(** * MSPModel_JuPedSim: the JuPedSim pedestrian-model adapter of SUMO

    A shallow embedding of [src/microsim/transportables/MSPModel_JuPedSim.cpp].

    Conventions.
    - C++ [double] values are idealised as real numbers ([R]); NaN and the
      infinities are not modelled.  Comparisons are the decidable comparisons
      of [R] turned into booleans.
    - Host objects reached through pointers (edges, persons) are named by
      identifiers and looked up in the network or in the person store.
    - The GEOS geometry library and the JuPedSim engine are external: GEOS
      geometries are terms over the constructors the adapter calls, their
      observations (simplicity, area, parts) are oracles of the class [GEOS];
      the engine is the class [JPSEngine].
    - Observable effects (warnings, engine calls, releases) are appended to a
      trace of [Event]s, oldest first.
    - The adapter's members and the host's persons are threaded through the
      calls as a [World]; a call ends as an [Outcome]: it returns, throws,
      runs into undefined behaviour, or runs out of fuel.
    - Loops without a structural bound (the sampling of a random departure
      position, the drain of a route, the repeated visits of one state within
      a step) carry fuel.  The drain and the visits are shown to get enough
      of it from their callers; the sampling loop has no bound in the code,
      and [add] takes its fuel as an argument.
    - [MSPModel_JuPedSim.h] is not among the sources: the inline members of
      [PState] that the claims depend on are modelled from the spec and
      marked as such. *)

From Stdlib Require Import Reals Lra Lia ZArith List String Bool Arith DecimalString.
Import ListNotations.
Open Scope string_scope.
Open Scope list_scope.
Open Scope R_scope.

#[local] Set Warnings "-register-all".

Set Implicit Arguments.

(* ===================================================================== *)
(** ** Numbers and positions *)
(* ===================================================================== *)

(** [a < b] on doubles. *)
Definition Rltb (a b : R) : bool := if Rlt_dec a b then true else false.

(** [a == b] on doubles. *)
Definition Reqb (a b : R) : bool := if Req_dec_T a b then true else false.

(** utils/geom/Position.h: a point with coordinates x, y, z. *)
Record Position := mkPosition { myX : R; myY : R; myZ : R }.

(** [Position()] : the default-constructed position. *)
Definition Position_default : Position := mkPosition 0 0 0.

(** [Position::INVALID]. *)
Definition Position_INVALID : Position :=
  mkPosition (-1073741824) (-1073741824) (-1073741824).

(** [Position::operator==]. *)
Definition Position_eqb (p q : Position) : bool :=
  Reqb (myX p) (myX q) && Reqb (myY p) (myY q) && Reqb (myZ p) (myZ q).

(** [Position::set(x, y)]: the elevation is kept. *)
Definition Position_set (p : Position) (x y : R) : Position :=
  mkPosition x y (myZ p).

(** Modelled from the spec: [Position::distanceTo2D] is declared in
    utils/geom/Position.h, which is not among the sources; the spec calls it
    the Euclidean 2D distance ignoring elevation. *)
Definition distanceTo2D (p q : Position) : R :=
  sqrt ((myX p - myX q) * (myX p - myX q) + (myY p - myY q) * (myY p - myY q)).

Definition PositionVector := list Position.

(** [Boundary]: an axis-aligned bounding box. *)
Record Boundary := mkBoundary { xmin : R; xmax : R; ymin : R; ymax : R }.

(* ===================================================================== *)
(** ** The host network (read-only queries) *)
(* ===================================================================== *)

Definition EdgeId := nat.
Definition LaneId := nat.
Bind Scope nat_scope with EdgeId LaneId.

(** [SumoXMLEdgeFunc]: the classification of an edge. *)
Inductive SumoXMLEdgeFunc :=
| EDGEFUNC_NORMAL
| EDGEFUNC_CONNECTOR
| EDGEFUNC_CROSSING
| EDGEFUNC_WALKINGAREA
| EDGEFUNC_INTERNAL.

Definition SumoXMLEdgeFunc_eqb (a b : SumoXMLEdgeFunc) : bool :=
  match a, b with
  | EDGEFUNC_NORMAL, EDGEFUNC_NORMAL
  | EDGEFUNC_CONNECTOR, EDGEFUNC_CONNECTOR
  | EDGEFUNC_CROSSING, EDGEFUNC_CROSSING
  | EDGEFUNC_WALKINGAREA, EDGEFUNC_WALKINGAREA
  | EDGEFUNC_INTERNAL, EDGEFUNC_INTERNAL => true
  | _, _ => false
  end.

(** [MSLane]: what the adapter reads of a lane. [laneFunction] is the
    function of the lane's edge ([MSLane::isNormal] asks the edge). *)
Record MSLane := mkLane {
  laneID : LaneId;
  laneFunction : SumoXMLEdgeFunc;
  getShape : PositionVector;
  getWidth : R
}.

(** [MSEdge]: what the adapter reads of an edge. [getSidewalk] is the result
    of [getSidewalk<MSEdge, MSLane>(edge)] ([None] for a null pointer);
    [tazParameter] is [getParameter("taz")]. *)
Record MSEdge := mkEdge {
  edgeID : EdgeId;
  myFunction : SumoXMLEdgeFunc;
  getPredecessors : list EdgeId;
  getSuccessors : list EdgeId;
  getSidewalk : option MSLane;
  tazParameter : string
}.

Record MSJunction := mkJunction {
  getIncoming : list EdgeId;
  getOutgoing : list EdgeId
}.

(** A polygon of the shape container. *)
Record SUMOPolygon := mkPolygon {
  getShapeType : string;
  polygonShape : PositionVector
}.

(** [MSNet]: edges are reached through [getEdge] (pointer dereference), the
    junction control and the polygons of the shape container are listed in
    iteration order. *)
Record MSNet := mkNet {
  getEdge : EdgeId -> MSEdge;
  getJunctionControl : list MSJunction;
  getPolygons : list (string * SUMOPolygon)
}.

Definition isNormal (e : MSEdge) : bool := SumoXMLEdgeFunc_eqb (myFunction e) EDGEFUNC_NORMAL.
Definition isCrossing (e : MSEdge) : bool := SumoXMLEdgeFunc_eqb (myFunction e) EDGEFUNC_CROSSING.
Definition isWalkingArea (e : MSEdge) : bool := SumoXMLEdgeFunc_eqb (myFunction e) EDGEFUNC_WALKINGAREA.
Definition isTazConnector (e : MSEdge) : bool := SumoXMLEdgeFunc_eqb (myFunction e) EDGEFUNC_CONNECTOR.
Definition lane_isNormal (l : MSLane) : bool := SumoXMLEdgeFunc_eqb (laneFunction l) EDGEFUNC_NORMAL.

(** [getPolygons().get(id)]. *)
Fixpoint polygons_get (ps : list (string * SUMOPolygon)) (id : string) : option SUMOPolygon :=
  match ps with
  | [] => None
  | (k, p) :: rest => if String.eqb k id then Some p else polygons_get rest id
  end.

(* ===================================================================== *)
(** ** GEOS geometries *)
(* ===================================================================== *)

Inductive GEOSBufCapStyles := GEOSBUF_CAP_ROUND | GEOSBUF_CAP_FLAT | GEOSBUF_CAP_SQUARE.
Inductive GEOSBufJoinStyles := GEOSBUF_JOIN_ROUND | GEOSBUF_JOIN_MITRE | GEOSBUF_JOIN_BEVEL.
Inductive GEOSGeomTypes := GEOS_MULTIPOLYGON.

(** A geometry is the term of GEOS calls that built it.  A collection may
    hold null pointers ([None]). *)
Inductive GEOSGeometry :=
| GEOSGeom_createLineString (coords : PositionVector)
| GEOSGeom_createPointFromXY (x y : R)
| GEOSGeom_createLinearRing (coords : PositionVector)
| GEOSGeom_createPolygon (shell : GEOSGeometry)
| GEOSBufferWithStyle (g : GEOSGeometry) (width : R) (quadsegs : Z)
    (endCapStyle : GEOSBufCapStyles) (joinStyle : GEOSBufJoinStyles) (mitreLimit : R)
| GEOSGeom_createCollection (type : GEOSGeomTypes) (geoms : list (option GEOSGeometry))
| GEOSConvexHull (g : GEOSGeometry)
| GEOSUnaryUnion (g : GEOSGeometry)
| GEOSDifference (g1 g2 : GEOSGeometry)
| GEOSGetGeometryN (g : GEOSGeometry) (n : nat)
| GEOSGetExteriorRing (g : GEOSGeometry)
| GEOSGetInteriorRingN (g : GEOSGeometry) (n : nat).

(** What the adapter observes of a geometry.  [GEOSGetNumGeometries] is the
    number of parts (the error value -1 is not modelled);
    [GEOSGetNumInteriorRings] may be -1. *)
Class GEOS := {
  GEOSisSimple : GEOSGeometry -> bool;
  GEOSGetNumGeometries : GEOSGeometry -> nat;
  GEOSArea : GEOSGeometry -> R;
  GEOSGetNumInteriorRings : GEOSGeometry -> Z;
  GEOSGeom_getCoordSeq : GEOSGeometry -> PositionVector
}.

Definition GEOS_QUADRANT_SEGMENTS : Z := 16.
Definition GEOS_MITRE_LIMIT : R := 5.
Definition GEOS_MIN_AREA : R := 1 / 100.

(* ===================================================================== *)
(** ** Geometry Builder *)
(* ===================================================================== *)

(** [std::count(v.begin(), v.end(), e) != 0]. *)
Definition contains (v : list EdgeId) (e : EdgeId) : bool := existsb (Nat.eqb e) v.

(** [MSPModel_JuPedSim::getAnchor]. An empty shape has no [back()] or
    [front()]; the default position stands for it. *)
Definition getAnchor (lane : MSLane) (edge : MSEdge) (incoming : list EdgeId) : Position :=
  if contains incoming (edgeID edge)
  then last (getShape lane) Position_default
  else hd Position_default (getShape lane).

(** [MSPModel_JuPedSim::getAdjacentEdgesOfEdge]. *)
Definition getAdjacentEdgesOfEdge (edge : MSEdge) : list EdgeId :=
  getPredecessors edge ++ getSuccessors edge.

(** [MSPModel_JuPedSim::getWalkingAreaInbetween]. *)
Definition getWalkingAreaInbetween (net : MSNet) (edge otherEdge : MSEdge) : option MSEdge :=
  find (fun nextEdge =>
          isWalkingArea nextEdge && contains (getAdjacentEdgesOfEdge nextEdge) (edgeID otherEdge))
       (map (getEdge net) (getAdjacentEdgesOfEdge edge)).

(** The edge [id] is a walking area next to [otherEdge]: what the loop of
    [getWalkingAreaInbetween] tests (lines 383-385). *)
Definition joins (net : MSNet) (otherEdge : MSEdge) (id : EdgeId) : Prop :=
  isWalkingArea (getEdge net id) = true
  /\ In (edgeID otherEdge) (getAdjacentEdgesOfEdge (getEdge net id)).

(** [MSPModel_JuPedSim::createGeometryFromCenterLine]. *)
Definition createGeometryFromCenterLine (centerLine : PositionVector) (width : R)
  (capStyle : GEOSBufCapStyles) : GEOSGeometry :=
  GEOSBufferWithStyle (GEOSGeom_createLineString centerLine) width
    GEOS_QUADRANT_SEGMENTS capStyle GEOSBUF_JOIN_ROUND GEOS_MITRE_LIMIT.

(** The ring closed by [if (shape.back() != shape.front()) push_back(front)].
    The shapes of the host (of a lane, of a polygon of the shape container)
    are taken to hold at least one point: [back()] and [front()] of an empty
    vector are undefined. *)
Definition closeShape (shape : PositionVector) : PositionVector :=
  match shape with
  | [] => []
  | front :: _ =>
      if Position_eqb (last shape Position_default) front then shape else shape ++ [front]
  end.

(** [MSPModel_JuPedSim::createGeometryFromShape]: [None] is the null pointer
    returned for a polygon that is not simple. *)
Definition createGeometryFromShape `{GEOS} (shape : PositionVector) : option GEOSGeometry :=
  let polygon := GEOSGeom_createPolygon (GEOSGeom_createLinearRing (closeShape shape)) in
  if GEOSisSimple polygon then Some polygon else None.

(** [MSPModel_JuPedSim::createGeometryFromAnchors]. *)
Definition createGeometryFromAnchors (anchor : Position) (lane : MSLane)
  (otherAnchor : Position) (otherLane : MSLane) : GEOSGeometry :=
  if Reqb (getWidth lane) (getWidth otherLane) then
    createGeometryFromCenterLine [anchor; otherAnchor] (getWidth lane / 2) GEOSBUF_CAP_ROUND
  else
    let dilatedAnchorPoint :=
      GEOSBufferWithStyle (GEOSGeom_createPointFromXY (myX anchor) (myY anchor))
        (getWidth lane / 2) GEOS_QUADRANT_SEGMENTS GEOSBUF_CAP_ROUND GEOSBUF_JOIN_ROUND
        GEOS_MITRE_LIMIT in
    let dilatedOtherAnchorPoint :=
      GEOSBufferWithStyle (GEOSGeom_createPointFromXY (myX otherAnchor) (myY otherAnchor))
        (getWidth otherLane / 2) GEOS_QUADRANT_SEGMENTS GEOSBUF_CAP_ROUND GEOSBUF_JOIN_ROUND
        GEOS_MITRE_LIMIT in
    GEOSConvexHull
      (GEOSGeom_createCollection GEOS_MULTIPOLYGON
         [Some dilatedAnchorPoint; Some dilatedOtherAnchorPoint]).

(** The shape of the sidewalk of a walking-area edge (such an edge always has
    one; the empty shape stands for a missing lane). *)
Definition sidewalkShape (e : MSEdge) : PositionVector :=
  match getSidewalk e with
  | Some l => getShape l
  | None => []
  end.

(** The neighbours of the walking area the mixed case looks at (line 492):
    its predecessors when [edge] is a crossing, its successors otherwise. *)
Definition walkingAreaEdges (edge walkingArea : MSEdge) : list EdgeId :=
  if isCrossing edge then getPredecessors walkingArea else getSuccessors walkingArea.

(** What the body of the inner loop of [buildPedestrianNetwork] (the loop
    over [nextEdge], lines 470-510) does for one pair. *)
Inductive PairOutcome :=
| NoGeometry
    (* nothing is pushed for this pair *)
| WalkingAreaShape (g : GEOSGeometry)
    (* the walking area's own polygon is pushed; [continue] *)
| Connector (anchor nextAnchor : Position) (g : GEOSGeometry).
    (* [createGeometryFromAnchors(anchor, lane, nextAnchor, nextLane)] is pushed *)

Definition pairOutcome `{GEOS} (net : MSNet) (edge : MSEdge) (lane : MSLane)
  (nextEdge : MSEdge) : PairOutcome :=
  if Nat.eqb (edgeID nextEdge) (edgeID edge) then NoGeometry else
  match getWalkingAreaInbetween net edge nextEdge with
  | None => NoGeometry
  | Some walkingArea =>
      let walkingAreaIncoming := getPredecessors walkingArea in
      match getSidewalk nextEdge with
      | None => NoGeometry
      | Some nextLane =>
          let synthesize anchor nextAnchor :=
            Connector anchor nextAnchor (createGeometryFromAnchors anchor lane nextAnchor nextLane) in
          if isNormal edge && isNormal nextEdge then
            match createGeometryFromShape (sidewalkShape walkingArea) with
            | Some walkingAreaGeom => WalkingAreaShape walkingAreaGeom
            | None =>
                synthesize (getAnchor lane edge walkingAreaIncoming)
                           (getAnchor nextLane nextEdge walkingAreaIncoming)
            end
          else if (isNormal edge && isCrossing nextEdge) || (isCrossing edge && isNormal nextEdge) then
            if negb (existsb (fun e => isNormal (getEdge net e))
                       (walkingAreaEdges edge walkingArea)) then
              synthesize (getAnchor lane edge walkingAreaIncoming)
                         (getAnchor nextLane nextEdge walkingAreaIncoming)
            else
              (* the anchors keep their default-constructed value *)
              synthesize Position_default Position_default
          else if isCrossing edge && isCrossing nextEdge then
            synthesize (getAnchor lane edge walkingAreaIncoming)
                       (getAnchor nextLane nextEdge walkingAreaIncoming)
          else NoGeometry
      end
  end.

(** The geometries one pair appends to [walkableAreas]. *)
Definition pairGeometries (o : PairOutcome) : list (option GEOSGeometry) :=
  match o with
  | NoGeometry => []
  | WalkingAreaShape g => [Some g]
  | Connector _ _ g => [Some g]
  end.

(** The body of the loop over [edge] (lines 464-514). *)
Definition edgeGeometries `{GEOS} (net : MSNet) (adjacent : list EdgeId) (edge : MSEdge)
  : list (option GEOSGeometry) :=
  if isWalkingArea edge then [] else
  match getSidewalk edge with
  | None => []
  | Some lane =>
      Some (createGeometryFromCenterLine (getShape lane) (getWidth lane / 2) GEOSBUF_CAP_ROUND)
      :: flat_map (fun nextEdge => pairGeometries (pairOutcome net edge lane (getEdge net nextEdge)))
                  adjacent
  end.

(** The set of edges adjacent to a junction.  The source iterates a
    [std::set] of pointers (address order); here the order is the one of first
    occurrence. *)
Definition junctionAdjacent (j : MSJunction) : list EdgeId :=
  nodup Nat.eq_dec (getIncoming j ++ getOutgoing j).

Definition junctionGeometries `{GEOS} (net : MSNet) (j : MSJunction) : list (option GEOSGeometry) :=
  let adjacent := junctionAdjacent j in
  flat_map (fun e => edgeGeometries net adjacent (getEdge net e)) adjacent.

(** The additional walkable areas and the obstacles of the shape container
    (lines 518-525). *)
Definition additionalWalkableAreas `{GEOS} (net : MSNet) : list (option GEOSGeometry) :=
  flat_map (fun kp : string * SUMOPolygon =>
              let t := getShapeType (snd kp) in
              if String.eqb t "jupedsim.walkable_area" || String.eqb t "taz"
              then [createGeometryFromShape (polygonShape (snd kp))] else [])
           (getPolygons net).

Definition additionalObstacles `{GEOS} (net : MSNet) : list (option GEOSGeometry) :=
  flat_map (fun kp : string * SUMOPolygon =>
              let t := getShapeType (snd kp) in
              if String.eqb t "jupedsim.walkable_area" || String.eqb t "taz" then []
              else if String.eqb t "jupedsim.obstacle"
              then [createGeometryFromShape (polygonShape (snd kp))] else [])
           (getPolygons net).

Definition walkableAreas `{GEOS} (net : MSNet) : list (option GEOSGeometry) :=
  flat_map (junctionGeometries net) (getJunctionControl net) ++ additionalWalkableAreas net.

(** The geometry [finalWalkableAreas] that [buildPedestrianNetwork] computes
    before it checks it. *)
Definition finalWalkableAreas `{GEOS} (net : MSNet) : GEOSGeometry :=
  let disjointWalkableAreas := GEOSGeom_createCollection GEOS_MULTIPOLYGON (walkableAreas net) in
  let initialWalkableAreas := GEOSUnaryUnion disjointWalkableAreas in
  let disjointAdditionalObstacles :=
    GEOSGeom_createCollection GEOS_MULTIPOLYGON (additionalObstacles net) in
  let additionalObstaclesUnion := GEOSUnaryUnion disjointAdditionalObstacles in
  GEOSDifference initialWalkableAreas additionalObstaclesUnion.

(** [ProcessError]: the exception of a fatal error, with its message. *)
Inductive ProcessError := mkProcessError (what : string).

(** [MSPModel_JuPedSim::buildPedestrianNetwork]: [inl] is the thrown
    exception. *)
Definition buildPedestrianNetwork `{GEOS} (net : MSNet) : ProcessError + GEOSGeometry :=
  let final := finalWalkableAreas net in
  if negb (GEOSisSimple final)
  then inl (mkProcessError "Union of walkable areas minus union of obstacles is not a simple polygon.")
  else inr final.

(* ===================================================================== *)
(** ** The JuPedSim engine *)
(* ===================================================================== *)

Definition JPS_ErrorMessage := string.
Definition JPS_StageId := nat.
Definition JPS_JourneyId := nat.
Definition JPS_AgentId := nat.
Bind Scope nat_scope with JPS_StageId JPS_JourneyId JPS_AgentId.

Record JPS_Point := mkJPSPoint { jps_x : R; jps_y : R }.

Inductive JPS_Transition := JPS_FixedTransition (stage : JPS_StageId).

(** A journey description: the stages added to it and the transitions set
    for them, in call order. *)
Record JPS_JourneyDescription := mkJourney {
  journeyStages : list JPS_StageId;
  journeyTransitions : list (JPS_StageId * JPS_Transition)
}.

(** [JPS_JourneyDescription_Create()]. *)
Definition JPS_JourneyDescription_Create : JPS_JourneyDescription := mkJourney [] [].

(** [JPS_JourneyDescription_AddStage]. *)
Definition JPS_JourneyDescription_AddStage (j : JPS_JourneyDescription) (s : JPS_StageId)
  : JPS_JourneyDescription :=
  mkJourney (journeyStages j ++ [s]) (journeyTransitions j).

(** The geometry builder: the areas fed to it, in call order. *)
Record JPS_GeometryBuilder := mkGeometryBuilder {
  accessibleAreas : list (list JPS_Point);
  excludedAreas : list (list JPS_Point)
}.

Definition JPS_GeometryBuilder_Create : JPS_GeometryBuilder := mkGeometryBuilder [] [].

Definition JPS_GeometryBuilder_AddAccessibleArea (b : JPS_GeometryBuilder) (ps : list JPS_Point)
  : JPS_GeometryBuilder :=
  mkGeometryBuilder (accessibleAreas b ++ [ps]) (excludedAreas b).

Definition JPS_GeometryBuilder_ExcludeFromAccessibleArea (b : JPS_GeometryBuilder)
  (ps : list JPS_Point) : JPS_GeometryBuilder :=
  mkGeometryBuilder (accessibleAreas b) (excludedAreas b ++ [ps]).

(** [JPS_CollisionFreeSpeedModelBuilder_Create(a, b, c, d)]. *)
Record JPS_CollisionFreeSpeedModelBuilder := JPS_CollisionFreeSpeedModelBuilder_Create {
  strengthNeighborRepulsion : R;
  rangeNeighborRepulsion : R;
  strengthGeometryRepulsion : R;
  rangeGeometryRepulsion : R
}.

(** [JPS_CollisionFreeSpeedModelAgentParameters]. *)
Record JPS_CollisionFreeSpeedModelAgentParameters := mkAgentParameters {
  journeyId : JPS_JourneyId;
  stageId : JPS_StageId;
  position : JPS_Point;
  radius : R;
  v0 : R
}.

(** The engine's call contract.  A call that reports through an error message
    returns [inl message] when the message is set and [inr value] otherwise;
    a call on the simulation also returns the simulation as it leaves it. *)
Class JPSEngine := {
  JPS_Geometry : Type;
  JPS_OperationalModel : Type;
  JPS_Simulation : Type;
  JPS_GeometryBuilder_Build : JPS_GeometryBuilder -> JPS_ErrorMessage + JPS_Geometry;
  JPS_CollisionFreeSpeedModelBuilder_Build :
    JPS_CollisionFreeSpeedModelBuilder -> JPS_ErrorMessage + JPS_OperationalModel;
  JPS_Simulation_Create :
    JPS_OperationalModel -> JPS_Geometry -> R -> JPS_ErrorMessage + JPS_Simulation;
  JPS_Simulation_AddStageWaypoint :
    JPS_Simulation -> JPS_Point -> R -> JPS_Simulation * (JPS_ErrorMessage + JPS_StageId);
  JPS_Transition_CreateFixedTransition : JPS_StageId -> JPS_ErrorMessage + JPS_Transition;
  JPS_JourneyDescription_SetTransitionForStage :
    JPS_JourneyDescription -> JPS_StageId -> JPS_Transition ->
    JPS_ErrorMessage + JPS_JourneyDescription;
  JPS_Simulation_AddJourney :
    JPS_Simulation -> JPS_JourneyDescription -> JPS_Simulation * (JPS_ErrorMessage + JPS_JourneyId);
  JPS_Simulation_AddCollisionFreeSpeedModelAgent :
    JPS_Simulation -> JPS_CollisionFreeSpeedModelAgentParameters ->
    JPS_Simulation * (JPS_ErrorMessage + JPS_AgentId);
  JPS_Simulation_Iterate : JPS_Simulation -> JPS_Simulation * option JPS_ErrorMessage;
  JPS_Agent_GetPosition : JPS_Simulation -> JPS_AgentId -> JPS_Point;
  JPS_Agent_GetOrientation : JPS_Simulation -> JPS_AgentId -> JPS_Point;
  JPS_Simulation_MarkAgentForRemoval : JPS_Simulation -> JPS_AgentId -> JPS_Simulation
}.

(* ===================================================================== *)
(** ** Observable effects *)
(* ===================================================================== *)

(** An argument of a formatted message. *)
Inductive Arg := ArgString (s : string) | ArgInt (n : Z).

(** The effects the adapter has on its surroundings.  A formatted message is
    kept as its format and its arguments ([%] marks an argument's place). *)
Inductive Event :=
| WRITE_WARNINGF (format : string) (args : list Arg)
| WRITE_ERRORF (format : string) (args : list Arg)
| initGEOS
| finishGEOS
| GEOSGeom_destroy (g : GEOSGeometry)
| dumpGeometry (g : GEOSGeometry) (filename : string)
| addPolygon (id : string) (shape : PositionVector) (holes : list PositionVector)
| addEvent
| Call_JPS_GeometryBuilder_Create
| Call_JPS_GeometryBuilder_Build
| Call_JPS_CollisionFreeSpeedModelBuilder_Build
| Call_JPS_Simulation_Create
| Call_JPS_Simulation_AddStageWaypoint (p : JPS_Point) (failure : option JPS_ErrorMessage)
| Call_JPS_Transition_CreateFixedTransition (s : JPS_StageId) (failure : option JPS_ErrorMessage)
| Call_JPS_JourneyDescription_SetTransitionForStage (s : JPS_StageId)
    (failure : option JPS_ErrorMessage)
| Call_JPS_Simulation_AddJourney (j : JPS_JourneyDescription) (failure : option JPS_ErrorMessage)
| Call_JPS_Simulation_AddCollisionFreeSpeedModelAgent (j : JPS_JourneyId)
    (failure : option JPS_ErrorMessage)
| Call_JPS_Simulation_Iterate
| Call_JPS_Simulation_MarkAgentForRemoval (a : JPS_AgentId)
| JPS_ErrorMessage_Free
| JPS_Transition_Free (t : JPS_Transition)
| JPS_JourneyDescription_Free (j : JPS_JourneyDescription)
| JPS_Simulation_Free
| JPS_OperationalModel_Free
| JPS_CollisionFreeSpeedModelBuilder_Free
| JPS_Geometry_Free
| JPS_GeometryBuilder_Free.

Definition Trace := list Event.

(** The events that are calls of the engine. *)
Definition isJPSCall (e : Event) : bool :=
  match e with
  | Call_JPS_GeometryBuilder_Create
  | Call_JPS_GeometryBuilder_Build
  | Call_JPS_CollisionFreeSpeedModelBuilder_Build
  | Call_JPS_Simulation_Create
  | Call_JPS_Simulation_AddStageWaypoint _ _
  | Call_JPS_Transition_CreateFixedTransition _ _
  | Call_JPS_JourneyDescription_SetTransitionForStage _ _
  | Call_JPS_Simulation_AddJourney _ _
  | Call_JPS_Simulation_AddCollisionFreeSpeedModelAgent _ _
  | Call_JPS_Simulation_Iterate
  | Call_JPS_Simulation_MarkAgentForRemoval _ => true
  | _ => false
  end.

(** The events that are warnings. *)
Definition isWarning (e : Event) : bool :=
  match e with
  | WRITE_WARNINGF _ _ => true
  | _ => false
  end.

(** The failure a call reported, if any. *)
Definition failureOf {A : Type} (r : JPS_ErrorMessage + A) : option JPS_ErrorMessage :=
  match r with
  | inl m => Some m
  | inr _ => None
  end.

(** The releases of a transition. *)
Definition isTransitionRelease (e : Event) : bool :=
  match e with
  | JPS_Transition_Free _ => true
  | _ => false
  end.

(** The iterations of the engine, and the errors logged. *)
Definition isIterateCall (e : Event) : bool :=
  match e with
  | Call_JPS_Simulation_Iterate => true
  | _ => false
  end.

Definition isIterationError (e : Event) : bool :=
  match e with
  | WRITE_ERRORF _ _ => true
  | _ => false
  end.

(** The geometries written to a file. *)
Definition isDump (e : Event) : bool :=
  match e with
  | dumpGeometry _ _ => true
  | _ => false
  end.

(* ===================================================================== *)
(** ** Model Initializer *)
(* ===================================================================== *)

(** [MSPModel_JuPedSim::getCoordinates]: a [Position(x, y)] for every
    coordinate of the sequence, in order. *)
Definition getCoordinates `{GEOS} (geometry : GEOSGeometry) : PositionVector :=
  map (fun c => mkPosition (myX c) (myY c) 0) (GEOSGeom_getCoordSeq geometry).

(** [MSPModel_JuPedSim::convertToJPSPoints], the overload for a geometry
    (lines 593-608): the loop runs while [i < coordinateSequenceSize - 1], in
    [unsigned int], so that every coordinate but the last is converted.  On an
    empty sequence the bound wraps around to 4294967295 and the loop reads
    coordinates that do not exist into variables that were never written:
    the call is undefined ([None]). *)
Definition convertToJPSPoints `{GEOS} (geometry : GEOSGeometry) : option (list JPS_Point) :=
  match GEOSGeom_getCoordSeq geometry with
  | [] => None
  | first :: others =>
      Some (map (fun p => mkJPSPoint (myX p) (myY p)) (removelast (first :: others)))
  end.

(** [MSPModel_JuPedSim::convertToJPSPoints], the overload for a position
    vector (lines 581-590): every point is converted, then the last one is
    popped.  [pop_back()] on an empty vector is undefined ([None]). *)
Definition convertToJPSPoints_PositionVector (coordinates : PositionVector)
  : option (list JPS_Point) :=
  match coordinates with
  | [] => None
  | _ :: _ => Some (removelast (map (fun p => mkJPSPoint (myX p) (myY p)) coordinates))
  end.

(** [MSPModel_JuPedSim::getHoleArea]. *)
Definition getHoleArea `{GEOS} (hole : GEOSGeometry) : R :=
  GEOSArea (GEOSGeom_createPolygon hole).

(** The interior rings of a polygon whose area exceeds [GEOS_MIN_AREA]
    (none when the number of rings is -1, the error value; GEOS returns no
    other negative number). *)
Definition largeHoles `{GEOS} (polygon : GEOSGeometry) : list GEOSGeometry :=
  let nbrInteriorRings := GEOSGetNumInteriorRings polygon in
  if Z.eqb nbrInteriorRings (-1) then [] else
  filter (fun linearRing => Rltb GEOS_MIN_AREA (getHoleArea linearRing))
         (map (GEOSGetInteriorRingN polygon) (seq 0 (Z.to_nat nbrInteriorRings))).

(** One turn of the loop of [preparePolygonForJPS] for a hole that is large
    enough (lines 658-660). *)
Definition excludeHole `{GEOS} (builder : option JPS_GeometryBuilder) (linearRing : GEOSGeometry)
  : option JPS_GeometryBuilder :=
  match builder, convertToJPSPoints linearRing with
  | Some b, Some holeCoordinates =>
      Some (JPS_GeometryBuilder_ExcludeFromAccessibleArea b holeCoordinates)
  | _, _ => None
  end.

(** [MSPModel_JuPedSim::preparePolygonForJPS]: the geometry builder as the
    call leaves it; [None] when a conversion to points is undefined. *)
Definition preparePolygonForJPS `{GEOS} (builder : JPS_GeometryBuilder) (polygon : GEOSGeometry)
  : option JPS_GeometryBuilder :=
  match convertToJPSPoints (GEOSGetExteriorRing polygon) with
  | None => None
  | Some exteriorCoordinates =>
      fold_left excludeHole (largeHoles polygon)
        (Some (JPS_GeometryBuilder_AddAccessibleArea builder exteriorCoordinates))
  end.

(** [MSPModel_JuPedSim::preparePolygonForDrawing]: the polygon registered with
    the shape container, if any. *)
Definition preparePolygonForDrawing `{GEOS} (polygon : GEOSGeometry) (polygonId : string)
  : Trace :=
  if Z.eqb (GEOSGetNumInteriorRings polygon) (-1) then [] else
  [addPolygon polygonId (getCoordinates (GEOSGetExteriorRing polygon))
     (map getCoordinates (largeHoles polygon))].

(** The state of the selection loop of [initialize] (lines 700-713). *)
Record MaxArea := mkMaxArea {
  maxArea : R;
  maxAreaConnectedComponentPolygon : option GEOSGeometry;
  maxAreaIndex : nat
}.

(** One turn of the selection loop, for component [i]. *)
Definition selectStep `{GEOS} (network : GEOSGeometry) (acc : MaxArea) (i : nat) : MaxArea :=
  let connectedComponentPolygon := GEOSGetGeometryN network i in
  let area := GEOSArea connectedComponentPolygon in
  if Rltb (maxArea acc) area
  then mkMaxArea area (Some connectedComponentPolygon) i
  else acc.

(** The selection loop: [maxArea] starts at 0.0 and no polygon is chosen. *)
Definition selectMaxArea `{GEOS} (network : GEOSGeometry) : MaxArea :=
  fold_left (selectStep network) (seq 0 (GEOSGetNumGeometries network)) (mkMaxArea 0 None 0).

(** The warning of [initialize] about several connected components. *)
Definition componentsWarning (nbrConnectedComponents : nat) : Trace :=
  if (1 <? nbrConnectedComponents)%nat
  then [WRITE_WARNINGF "When generating geometry for JuPedSim % connected components were detected."
          [ArgInt (Z.of_nat nbrConnectedComponents)]]
  else [].

(** How a call of the adapter ends. *)
Inductive Outcome (A : Type) :=
| Returns (a : A)
    (* the call returns [a] *)
| Throws (e : ProcessError)
    (* the call throws *)
| Undefined
    (* undefined behaviour: a null pointer or an empty container is
       dereferenced, a loop reads past the end of a sequence, or an integer is
       divided by zero *)
| OutOfFuel.
    (* the loop did not end within the fuel given *)

Arguments Returns {A} a.
Arguments Throws {A} e.
Arguments Undefined {A}.
Arguments OutOfFuel {A}.

(** [std::to_string] of an index. *)
Definition to_string (n : nat) : string := DecimalString.NilEmpty.string_of_uint (Nat.to_uint n).

(** [STEPS2TIME]: milliseconds to seconds. *)
Definition STEPS2TIME (t : Z) : R := IZR t / 1000.

(* ===================================================================== *)
(** ** Persons and their stages (host side) *)
(* ===================================================================== *)

Definition PersonId := nat.
Bind Scope nat_scope with PersonId.

Inductive MSStageType :=
| WAITING_FOR_DEPART | WAITING | WALKING | DRIVING | ACCESS | TRIP | TRANSHIP.

Definition isWalkingOrTrip (t : MSStageType) : bool :=
  match t with
  | WALKING | TRIP => true
  | _ => false
  end.

Inductive DepartPosDefinition := DEPARTPOS_DEFAULT | DEPARTPOS_GIVEN | RANDOM_LOCATION.

(** A stage of a person's plan: what the adapter reads of it, and the route
    position [moveToNextEdge] advances.  [getDestinationStop] is the access
    position of the destination stop, if the stage ends at one; [myOrigin] is
    the edge [getEdge()] answers for a stage that does not move along a route. *)
Record MSStage := mkStage {
  getStageType : MSStageType;
  getRoute : list EdgeId;
  myRouteStep : nat;
  getDepartPos : R;
  getDepartPosLat : R;
  getArrivalPos : R;
  getDestination : EdgeId;
  getDestinationStop : option R;
  myOrigin : EdgeId
}.

Definition MSStage_default : MSStage :=
  mkStage WAITING [] 0 0 0 0 0%nat None 0%nat.

(** [MSStage::getEdge]: the current route edge of a walking stage, the origin
    otherwise. *)
Definition MSStage_getEdge (s : MSStage) : EdgeId :=
  match getStageType s with
  | WALKING => nth (myRouteStep s) (getRoute s) (getDestination s)
  | _ => myOrigin s
  end.

(** A person: the plan with the index of the current stage, and the
    parameters of the vehicle type the insertion reads. *)
Record MSPerson := mkPerson {
  getID : string;
  myPlan : list MSStage;
  myStep : nat;
  departPosProcedure : DepartPosDefinition;
  wasSet_LENGTH : bool;
  wasSet_WIDTH : bool;
  vtype_getLength : R;
  vtype_getWidth : R;
  getMaxSpeed : R
}.

(** [getNextStage(offset)] for [offset >= 0], and [getNextStage(-1)]. *)
Definition getNextStage (p : MSPerson) (offset : nat) : MSStage :=
  nth (myStep p + offset) (myPlan p) MSStage_default.

Definition getPreviousStage (p : MSPerson) : MSStage :=
  nth (myStep p - 1) (myPlan p) MSStage_default.

Definition getCurrentStage (p : MSPerson) : MSStage := getNextStage p 0.

Definition getCurrentStageIndex (p : MSPerson) : nat := myStep p.

(** The stages from the current one on ([getNumRemainingStages] of them). *)
Definition remainingStages (p : MSPerson) : list MSStage := skipn (myStep p) (myPlan p).

Definition setStep (n : nat) (p : MSPerson) : MSPerson :=
  mkPerson (getID p) (myPlan p) n (departPosProcedure p) (wasSet_LENGTH p) (wasSet_WIDTH p)
    (vtype_getLength p) (vtype_getWidth p) (getMaxSpeed p).

Definition setPlan (plan : list MSStage) (p : MSPerson) : MSPerson :=
  mkPerson (getID p) plan (myStep p) (departPosProcedure p) (wasSet_LENGTH p) (wasSet_WIDTH p)
    (vtype_getLength p) (vtype_getWidth p) (getMaxSpeed p).

Definition setRouteStep (n : nat) (s : MSStage) : MSStage :=
  mkStage (getStageType s) (getRoute s) n (getDepartPos s) (getDepartPosLat s) (getArrivalPos s)
    (getDestination s) (getDestinationStop s) (myOrigin s).

(** Replace the element at index [i]. *)
Fixpoint list_set {A : Type} (i : nat) (a : A) (l : list A) : list A :=
  match l, i with
  | [], _ => []
  | _ :: t, O => a :: t
  | h :: t, S j => h :: list_set j a t
  end.

(** Modelled from the spec: [MSStageMoving::moveToNextEdge] is host code that
    is not among the sources; the spec describes it as the command that
    advances to the stage's next route edge and returns whether this causes
    arrival.  [i] names the stage object the call is made on.  At the last
    edge of the route the stage has arrived and the person proceeds to the
    next stage of the plan. *)
Definition moveToNextEdge (i : nat) (p : MSPerson) : MSPerson * bool :=
  let stage := nth i (myPlan p) MSStage_default in
  if (S (myRouteStep stage) <? List.length (getRoute stage))%nat
  then (setPlan (list_set i (setRouteStep (S (myRouteStep stage)) stage) (myPlan p)) p, false)
  else (setStep (S (myStep p)) p, true).

(** [while (!stage->moveToNextEdge(person, time, 1, nullptr));] with the
    number of turns bounded by [fuel]. *)
Fixpoint drainEdges (fuel : nat) (i : nat) (p : MSPerson) : option MSPerson :=
  match fuel with
  | O => None
  | S f =>
      let (p', arrived) := moveToNextEdge i p in
      if arrived then Some p' else drainEdges f i p'
  end.

(** Host routines the adapter calls whose code is not among the sources:
    geometry of lane shapes, the random number generator, map matching and
    the two sentinel values of the lateral departure position. *)
Class Host := {
  positionAtOffset : PositionVector -> R -> R -> Position;
  rotationAtOffset : PositionVector -> R -> R;
  around : PositionVector -> Position -> bool;
  getBoxBoundary : PositionVector -> Boundary;
  atan2 : R -> R -> R;
  UNSPECIFIED_POS_LAT : R;
  RANDOM_POS_LAT : R;
  RandState : Type;
  RandHelper_rand : RandState -> R -> R -> R * RandState;
  moveToXYMap_matchingRoutePosition :
    MSNet -> Position -> list EdgeId -> MSPerson -> option (MSLane * R)
}.

(* ===================================================================== *)
(** ** Pedestrian State *)
(* ===================================================================== *)

(** [MSPModel_JuPedSim::PState].  [myPerson] and [myStage] stand for the
    pointers to the host's person and stage. *)
Record PState := mkPState {
  myPerson : PersonId;
  myStage : nat;
  myJourney : JPS_JourneyDescription;
  myJourneyId : JPS_JourneyId;
  myStageId : JPS_StageId;
  myWaypoints : PositionVector;
  myAgentId : JPS_AgentId;
  myPosition : Position;
  myPreviousPosition : Position;
  myAngle : R;
  myLanePosition : R;
  myWaitingToEnter : bool
}.

(** [PState::PState]: the agent id starts at 0 and the state waits to
    enter. *)
Definition PState_new (person : PersonId) (stage : nat) (journey : JPS_JourneyDescription)
  (journeyId : JPS_JourneyId) (stageId : JPS_StageId) (waypoints : PositionVector) : PState :=
  mkPState person stage journey journeyId stageId waypoints 0%nat (mkPosition 0 0 0)
    Position_default 0 0 true.

(** [PState::~PState]: the journey description is released. *)
Definition PState_destructor (s : PState) : Trace := [JPS_JourneyDescription_Free (myJourney s)].

Definition setPosition (x y : R) (s : PState) : PState :=
  mkPState (myPerson s) (myStage s) (myJourney s) (myJourneyId s) (myStageId s) (myWaypoints s)
    (myAgentId s) (Position_set (myPosition s) x y) (myPreviousPosition s) (myAngle s)
    (myLanePosition s) (myWaitingToEnter s).

Definition setPreviousPosition (previousPosition : Position) (s : PState) : PState :=
  mkPState (myPerson s) (myStage s) (myJourney s) (myJourneyId s) (myStageId s) (myWaypoints s)
    (myAgentId s) (myPosition s) previousPosition (myAngle s) (myLanePosition s)
    (myWaitingToEnter s).

Definition setAngle (angle : R) (s : PState) : PState :=
  mkPState (myPerson s) (myStage s) (myJourney s) (myJourneyId s) (myStageId s) (myWaypoints s)
    (myAgentId s) (myPosition s) (myPreviousPosition s) angle (myLanePosition s)
    (myWaitingToEnter s).

Definition setLanePosition (lanePosition : R) (s : PState) : PState :=
  mkPState (myPerson s) (myStage s) (myJourney s) (myJourneyId s) (myStageId s) (myWaypoints s)
    (myAgentId s) (myPosition s) (myPreviousPosition s) (myAngle s) lanePosition
    (myWaitingToEnter s).

(** [PState::getPosition], [PState::getAgentId]. *)
Definition getPosition (s : PState) : Position := myPosition s.
Definition getAgentId (s : PState) : JPS_AgentId := myAgentId s.

(** [PState::getEdgePos], [PState::getAngle]. *)
Definition getEdgePos (s : PState) : R := myLanePosition s.
Definition getAngle (s : PState) : R := myAngle s.

(** [PState::getNextWaypoint]: [myWaypoints.front()], undefined on an empty
    queue. *)
Definition getNextWaypoint (s : PState) : option Position := hd_error (myWaypoints s).

(** Modelled from the spec: [PState::setAgentId] is defined in
    MSPModel_JuPedSim.h, which is not among the sources; on success the
    insertion stores the returned agent id and clears the waiting-to-enter
    flag. *)
Definition setAgentId (id : JPS_AgentId) (s : PState) : PState :=
  mkPState (myPerson s) (myStage s) (myJourney s) (myJourneyId s) (myStageId s) (myWaypoints s)
    id (myPosition s) (myPreviousPosition s) (myAngle s) (myLanePosition s) false.

(** Modelled from the spec: [PState::isWaitingToEnter] is defined in
    MSPModel_JuPedSim.h; the flag is true until the engine accepts the
    pedestrian as an agent. *)
Definition isWaitingToEnter (s : PState) : bool := myWaitingToEnter s.

(** Modelled from the spec: [PState::advanceNextWaypoint] is defined in
    MSPModel_JuPedSim.h; it pops the completed waypoint from the queue and
    tells whether that was the last one. *)
Definition advanceNextWaypoint (s : PState) : PState * bool :=
  let rest := tl (myWaypoints s) in
  (mkPState (myPerson s) (myStage s) (myJourney s) (myJourneyId s) (myStageId s) rest
     (myAgentId s) (myPosition s) (myPreviousPosition s) (myAngle s) (myLanePosition s)
     (myWaitingToEnter s),
   match rest with [] => true | _ => false end).

(* ===================================================================== *)
(** ** The adapter *)
(* ===================================================================== *)

Section Adapter.

Context {G : GEOS} {E : JPSEngine} {H : Host}.

(** The members of [MSPModel_JuPedSim].  [myPedestrianStates] holds pointers
    ([PState*]) to states allocated by [add]. *)
Record MSPModel_JuPedSim := mkModel {
  myNetwork : MSNet;
  myJPSDeltaT : Z;
  myExitTolerance : R;
  myGEOSPedestrianNetwork : GEOSGeometry;
  myIsPedestrianNetworkConnected : bool;
  myJPSGeometryBuilder : JPS_GeometryBuilder;
  myJPSGeometry : JPS_Geometry;
  myJPSModelBuilder : JPS_CollisionFreeSpeedModelBuilder;
  myJPSModel : JPS_OperationalModel;
  myJPSSimulation : JPS_Simulation;
  myPedestrianStates : list PState;
  myNumActivePedestrians : Z
}.

(** The events of [buildPedestrianNetwork] up to the simplicity check. *)
Definition buildPedestrianNetwork_trace (net : MSNet) : Trace :=
  let disjointWalkableAreas := GEOSGeom_createCollection GEOS_MULTIPOLYGON (walkableAreas net) in
  let initialWalkableAreas := GEOSUnaryUnion disjointWalkableAreas in
  let disjointAdditionalObstacles :=
    GEOSGeom_createCollection GEOS_MULTIPOLYGON (additionalObstacles net) in
  let additionalObstaclesUnion := GEOSUnaryUnion disjointAdditionalObstacles in
  [ dumpGeometry disjointWalkableAreas "disjointWalkableAreas.wkt";
    dumpGeometry initialWalkableAreas "initialWalkableAreas.wkt";
    GEOSGeom_destroy disjointWalkableAreas;
    dumpGeometry disjointAdditionalObstacles "disjointAdditionalObstacles.wkt";
    dumpGeometry additionalObstaclesUnion "additionalObstaclesUnion.wkt";
    dumpGeometry (finalWalkableAreas net) "finalWalkableAreas.wkt";
    GEOSGeom_destroy initialWalkableAreas;
    GEOSGeom_destroy additionalObstaclesUnion;
    GEOSGeom_destroy disjointAdditionalObstacles ].

(** [MSPModel_JuPedSim::initialize], for the options [jpsDeltaT]
    (pedestrian.jupedsim.step-length) and [exitTolerance]
    (pedestrian.jupedsim.exit-tolerance): the events, and the adapter built or
    the exception thrown. *)
Definition initialize (net : MSNet) (jpsDeltaT : Z) (exitTolerance : R)
  : Trace * Outcome MSPModel_JuPedSim :=
  let t0 := initGEOS :: buildPedestrianNetwork_trace net in
  match buildPedestrianNetwork net with
  | inl e => (t0, Throws e)
  | inr network =>
      let nbrConnectedComponents := GEOSGetNumGeometries network in
      let connected := Nat.eqb nbrConnectedComponents 1 in
      let t1 := t0 ++ componentsWarning nbrConnectedComponents in
      let selected := selectMaxArea network in
      match maxAreaConnectedComponentPolygon selected with
      | None => (t1, Undefined)
      | Some polygon =>
          let maxAreaPolygonId := String.append "jupedsim.pedestrian_network." (to_string (maxAreaIndex selected)) in
          match preparePolygonForJPS JPS_GeometryBuilder_Create polygon with
          | None =>
              (t1 ++ [dumpGeometry polygon "pedestrianNetwork.wkt";
                      Call_JPS_GeometryBuilder_Create],
               Undefined)
          | Some builder =>
          let t2 := t1 ++ [dumpGeometry polygon "pedestrianNetwork.wkt";
                           Call_JPS_GeometryBuilder_Create]
                       ++ preparePolygonForDrawing polygon maxAreaPolygonId
                       ++ [Call_JPS_GeometryBuilder_Build] in
          match JPS_GeometryBuilder_Build builder with
          | inl message =>
              (t2 ++ [JPS_ErrorMessage_Free],
               Throws (mkProcessError (String.append "Error creating the geometry: " message)))
          | inr geometry =>
              let modelBuilder := JPS_CollisionFreeSpeedModelBuilder_Create 8 (1 / 10) 5 (2 / 100) in
              let t3 := t2 ++ [Call_JPS_CollisionFreeSpeedModelBuilder_Build] in
              match JPS_CollisionFreeSpeedModelBuilder_Build modelBuilder with
              | inl message =>
                  (t3 ++ [JPS_ErrorMessage_Free],
                   Throws (mkProcessError (String.append "Error creating the pedestrian model: " message)))
              | inr model =>
                  let t4 := t3 ++ [Call_JPS_Simulation_Create] in
                  match JPS_Simulation_Create model geometry (STEPS2TIME jpsDeltaT) with
                  | inl message =>
                      (t4 ++ [JPS_ErrorMessage_Free],
                       Throws (mkProcessError (String.append "Error creating the simulation: " message)))
                  | inr simulation =>
                      (t4,
                       Returns (mkModel net jpsDeltaT exitTolerance network connected builder
                                  geometry modelBuilder model simulation [] 0%Z))
                  end
              end
          end
          end
      end
  end.

(** The constructor [MSPModel_JuPedSim::MSPModel_JuPedSim]: [initialize()],
    then the recurring event is registered with the scheduler.  An exception
    of [initialize] leaves the constructor. *)
Definition MSPModel_JuPedSim_new (net : MSNet) (jpsDeltaT : Z) (exitTolerance : R)
  : Trace * Outcome MSPModel_JuPedSim :=
  match initialize net jpsDeltaT exitTolerance with
  | (t, Returns m) => (t ++ [addEvent], Returns m)
  | r => r
  end.

(** The events of [initialize] up to and including the call that builds the
    engine's geometry (lines 682-722), for the network [network] that
    [buildPedestrianNetwork] returned and the component [polygon] that was
    selected. *)
Definition geometryEvents (net : MSNet) (network polygon : GEOSGeometry) : Trace :=
  ((initGEOS :: buildPedestrianNetwork_trace net)
     ++ componentsWarning (GEOSGetNumGeometries network))
    ++ [dumpGeometry polygon "pedestrianNetwork.wkt"; Call_JPS_GeometryBuilder_Create]
    ++ preparePolygonForDrawing polygon
         (String.append "jupedsim.pedestrian_network."
            (to_string (maxAreaIndex (selectMaxArea network))))
    ++ [Call_JPS_GeometryBuilder_Build].

(** The adapter together with what it acts on: the host's persons, the
    random number generator, the host's step length [DELTA_T] and the trace
    of events so far. *)
Record World := mkWorld {
  adapter : MSPModel_JuPedSim;
  persons : PersonId -> MSPerson;
  rng : RandState;
  DELTA_T : Z;
  trace : Trace
}.

Definition setAdapter (m : MSPModel_JuPedSim) (w : World) : World :=
  mkWorld m (persons w) (rng w) (DELTA_T w) (trace w).

Definition emit (es : Trace) (w : World) : World :=
  mkWorld (adapter w) (persons w) (rng w) (DELTA_T w) (trace w ++ es).

Definition setRng (r : RandState) (w : World) : World :=
  mkWorld (adapter w) (persons w) r (DELTA_T w) (trace w).

Definition setPerson (id : PersonId) (p : MSPerson) (w : World) : World :=
  mkWorld (adapter w) (fun k => if Nat.eqb k id then p else persons w k) (rng w) (DELTA_T w)
    (trace w).

Definition setSimulation (sim : JPS_Simulation) (w : World) : World :=
  let m := adapter w in
  setAdapter (mkModel (myNetwork m) (myJPSDeltaT m) (myExitTolerance m)
                (myGEOSPedestrianNetwork m) (myIsPedestrianNetworkConnected m)
                (myJPSGeometryBuilder m) (myJPSGeometry m) (myJPSModelBuilder m) (myJPSModel m)
                sim (myPedestrianStates m) (myNumActivePedestrians m)) w.

Definition setPedestrianStates (states : list PState) (w : World) : World :=
  let m := adapter w in
  setAdapter (mkModel (myNetwork m) (myJPSDeltaT m) (myExitTolerance m)
                (myGEOSPedestrianNetwork m) (myIsPedestrianNetworkConnected m)
                (myJPSGeometryBuilder m) (myJPSGeometry m) (myJPSModelBuilder m) (myJPSModel m)
                (myJPSSimulation m) states (myNumActivePedestrians m)) w.

Definition setNumActivePedestrians (n : Z) (w : World) : World :=
  let m := adapter w in
  setAdapter (mkModel (myNetwork m) (myJPSDeltaT m) (myExitTolerance m)
                (myGEOSPedestrianNetwork m) (myIsPedestrianNetworkConnected m)
                (myJPSGeometryBuilder m) (myJPSGeometry m) (myJPSModelBuilder m) (myJPSModel m)
                (myJPSSimulation m) (myPedestrianStates m) n) w.

(** [MSPModel_JuPedSim::registerArrived]. *)
Definition registerArrived (w : World) : World :=
  setNumActivePedestrians (myNumActivePedestrians (adapter w) - 1)%Z w.

(** [MSPModel_JuPedSim::getActiveNumber]. *)
Definition getActiveNumber (w : World) : Z := myNumActivePedestrians (adapter w).

(** [MSPModel_JuPedSim::clearState]: the vector of pointers is cleared and
    the counter reset.  Clearing a vector of [PState*] destroys the pointers,
    not the states they point to: no destructor runs. *)
Definition clearState (w : World) : World :=
  setNumActivePedestrians 0%Z (setPedestrianStates [] w).

(** [MSPModel_JuPedSim::remove]: the body is empty. *)
Definition remove (state : PState) (w : World) : World := w.

(** [MSPModel_JuPedSim::~MSPModel_JuPedSim]. *)
Definition MSPModel_JuPedSim_destructor (w : World) : World :=
  emit [ JPS_Simulation_Free;
         JPS_OperationalModel_Free;
         JPS_CollisionFreeSpeedModelBuilder_Free;
         JPS_Geometry_Free;
         JPS_GeometryBuilder_Free;
         GEOSGeom_destroy (myGEOSPedestrianNetwork (adapter w));
         finishGEOS ]
       (clearState w).

(* --------------------------------------------------------------------- *)
(** *** Insertion Contract *)
(* --------------------------------------------------------------------- *)

(** The radius [tryPedestrianInsertion] gives the agent. *)
Definition agentRadius (person : MSPerson) : R :=
  if wasSet_LENGTH person || wasSet_WIDTH person then
    if negb (wasSet_WIDTH person) then (1 / 2) * vtype_getLength person
    else if negb (wasSet_LENGTH person) then (1 / 2) * vtype_getWidth person
    else (1 / 4) * (vtype_getLength person + vtype_getWidth person)
  else 3 / 10.

(** [MSPModel_JuPedSim::tryPedestrianInsertion]: the state as the call
    leaves it, and the world. *)
Definition tryPedestrianInsertion (state : PState) (w : World) : PState * World :=
  let person := persons w (myPerson state) in
  let agent_parameters :=
    mkAgentParameters (myJourneyId state) (myStageId state)
      (mkJPSPoint (myX (getPosition state)) (myY (getPosition state)))
      (agentRadius person) (getMaxSpeed person) in
  let (sim, r) :=
    JPS_Simulation_AddCollisionFreeSpeedModelAgent (myJPSSimulation (adapter w)) agent_parameters in
  let w1 :=
    emit [Call_JPS_Simulation_AddCollisionFreeSpeedModelAgent (myJourneyId state) (failureOf r)]
         (setSimulation sim w) in
  match r with
  | inl message =>
      (state,
       emit [WRITE_WARNINGF "Error while adding person '%' as JuPedSim agent: %"
               [ArgString (getID person); ArgString message];
             JPS_ErrorMessage_Free] w1)
  | inr agentId => (setAgentId agentId state, w1)
  end.

(* --------------------------------------------------------------------- *)
(** *** Journey Builder *)
(* --------------------------------------------------------------------- *)

(** [MSPModel_JuPedSim::addWaypoint]: the result, the world, and the journey
    and [predecessor] as the call leaves them. *)
Definition addWaypoint (w : World) (journey : JPS_JourneyDescription)
  (predecessor : JPS_StageId) (point : Position)
  : bool * World * JPS_JourneyDescription * JPS_StageId :=
  let jpsPoint := mkJPSPoint (myX point) (myY point) in
  let (sim, r) :=
    JPS_Simulation_AddStageWaypoint (myJPSSimulation (adapter w)) jpsPoint
      (myExitTolerance (adapter w)) in
  let w1 := emit [Call_JPS_Simulation_AddStageWaypoint jpsPoint (failureOf r)]
                 (setSimulation sim w) in
  match r with
  | inl message =>
      (false,
       emit [WRITE_WARNINGF "Error while adding waypoint for an agent: %" [ArgString message];
             JPS_ErrorMessage_Free] w1,
       journey, predecessor)
  | inr waypointId =>
      if Nat.eqb predecessor 0 then
        (true, w1, JPS_JourneyDescription_AddStage journey waypointId, waypointId)
      else
        let rt := JPS_Transition_CreateFixedTransition waypointId in
        let w2 := emit [Call_JPS_Transition_CreateFixedTransition waypointId (failureOf rt)] w1 in
        match rt with
        | inl message =>
            (false,
             emit [WRITE_WARNINGF "Error while creating fixed transition for an agent: %"
                     [ArgString message];
                   JPS_ErrorMessage_Free] w2,
             journey, predecessor)
        | inr transition =>
            let rs := JPS_JourneyDescription_SetTransitionForStage journey predecessor transition in
            let w3 :=
              emit [Call_JPS_JourneyDescription_SetTransitionForStage predecessor (failureOf rs)]
                   w2 in
            match rs with
            | inl message =>
                (false,
                 emit [WRITE_WARNINGF "Error while setting transition for an agent: %"
                         [ArgString message];
                       JPS_ErrorMessage_Free] w3,
                 journey, predecessor)
            | inr journey' =>
                (true, emit [JPS_Transition_Free transition] w3,
                 JPS_JourneyDescription_AddStage journey' waypointId, waypointId)
            end
        end
  end.

(** The rejection sampling of [add] (lines 171-176), with at most [fuel]
    draws. *)
Fixpoint sampleDeparturePosition (fuel : nat) (shape : PositionVector) (bbox : Boundary)
  (departurePosition : Position) (r : RandState) : option (Position * RandState) :=
  if around shape departurePosition then Some (departurePosition, r) else
  match fuel with
  | O => None
  | S f =>
      let (x, r1) := RandHelper_rand r (xmin bbox) (xmax bbox) in
      let (y, r2) := RandHelper_rand r1 (ymin bbox) (ymax bbox) in
      sampleDeparturePosition f shape bbox (mkPosition x y (myZ departurePosition)) r2
  end.

Definition isRandomLocation (d : DepartPosDefinition) : bool :=
  match d with
  | RANDOM_LOCATION => true
  | _ => false
  end.

(** The departure position after lines 161-179 of [add]: a random point of
    the zone of origin, or [Position::INVALID]. *)
Definition randomLocationDeparture (fuel : nat) (w : World) (person : MSPerson)
  : Outcome (Position * World) :=
  let net := myNetwork (adapter w) in
  if Nat.eqb (getCurrentStageIndex person) 2 && isRandomLocation (departPosProcedure person) then
    let tripOrigin := getEdge net (MSStage_getEdge (getPreviousStage person)) in
    if isTazConnector tripOrigin then
      match polygons_get (getPolygons net) (tazParameter tripOrigin) with
      | None =>
          Returns (Position_INVALID,
                   emit [WRITE_WARNINGF "FromTaz '%' for person '%' has no shape information."
                           [ArgString (tazParameter tripOrigin); ArgString (getID person)]] w)
      | Some tazShape =>
          match sampleDeparturePosition fuel (polygonShape tazShape)
                  (getBoxBoundary (polygonShape tazShape)) Position_INVALID (rng w) with
          | None => OutOfFuel
          | Some (p, r) => Returns (p, setRng r w)
          end
      end
    else Returns (Position_INVALID, w)
  else Returns (Position_INVALID, w).

(** The departure position of lines 180-190 of [add]. *)
Definition laneDeparturePosition (w : World) (departureLane : MSLane) (stage : MSStage)
  : Position * World :=
  let halfDepartureLaneWidth := getWidth departureLane / 2 in
  let y0 := getDepartPosLat stage in
  let y1 := if Reqb y0 UNSPECIFIED_POS_LAT then 0 else y0 in
  let (departureRelativePositionY, r) :=
    if Reqb y1 RANDOM_POS_LAT
    then RandHelper_rand (rng w) (- halfDepartureLaneWidth) halfDepartureLaneWidth
    else (y1, rng w) in
  (positionAtOffset (getShape departureLane) (getDepartPos stage) (- departureRelativePositionY),
   setRng r w).

(** How the loop of lines 198-216 of [add] ends. *)
Inductive JourneyLoop :=
| LoopFailed (w : World)
    (* [addWaypoint] returned false: [add] returns the null pointer *)
| LoopDone (arrivalStage : MSStage) (w : World) (journey : JPS_JourneyDescription)
    (startingStage predecessor : JPS_StageId) (waypoints : PositionVector)
| LoopUndefined.
    (* a destination without a sidewalk *)

(** The loop of lines 198-216 of [add]: [prev] is [getNextStage(stageOffset - 1)]
    and [rest] the stages from [getNextStage(stageOffset)] on. *)
Fixpoint addIntermediateWaypoints (prev : MSStage) (rest : list MSStage) (w : World)
  (journey : JPS_JourneyDescription) (startingStage predecessor : JPS_StageId)
  (waypoints : PositionVector) : JourneyLoop :=
  match rest with
  | [] => LoopDone prev w journey startingStage predecessor waypoints
  | next :: rest' =>
      if negb (isWalkingOrTrip (getStageType next)) then
        LoopDone prev w journey startingStage predecessor waypoints
      else
        let prevArrivalPos :=
          match getDestinationStop prev with
          | Some accessPos => accessPos
          | None => getArrivalPos prev
          end in
        match getSidewalk (getEdge (myNetwork (adapter w)) (getDestination prev)) with
        | None => LoopUndefined
        | Some lane =>
            let point := positionAtOffset (getShape lane) prevArrivalPos 0 in
            match addWaypoint w journey predecessor point with
            | (false, w', _, _) => LoopFailed w'
            | (true, w', journey', predecessor') =>
                addIntermediateWaypoints next rest' w' journey'
                  (if Nat.eqb startingStage 0 then predecessor' else startingStage)
                  predecessor' (waypoints ++ [point])
            end
        end
  end.

(** The waypoint the loop of [add] pushes for the stage [prev]
    (lines 204-208): the position on the sidewalk of the stage's destination,
    at the access position of its destination stop if it has one and at its
    arrival position otherwise.  [None] when the destination has no
    sidewalk. *)
Definition stageWaypoint (net : MSNet) (prev : MSStage) : option Position :=
  match getSidewalk (getEdge net (getDestination prev)) with
  | None => None
  | Some lane =>
      Some (positionAtOffset (getShape lane)
              match getDestinationStop prev with
              | Some accessPos => accessPos
              | None => getArrivalPos prev
              end 0)
  end.

(** The state [add] builds before it tries to insert it (lines 237-241). *)
Definition departingState (person : PersonId) (stage : nat) (st : MSStage)
  (departureLane : MSLane) (departurePosition : Position) (journey : JPS_JourneyDescription)
  (journeyId : JPS_JourneyId) (startingStage : JPS_StageId) (waypoints : PositionVector)
  : PState :=
  setAngle (rotationAtOffset (getShape departureLane) (getDepartPos st))
    (setPosition (myX departurePosition) (myY departurePosition)
       (setPreviousPosition departurePosition
          (setLanePosition (getDepartPos st)
             (PState_new person stage journey journeyId startingStage waypoints)))).

(** The lookup at the head of [add] (lines 156-160). *)
Definition findState (person : PersonId) (states : list PState) : option PState :=
  find (fun pstate => Nat.eqb (myPerson pstate) person) states.

(** [MSPModel_JuPedSim::add(person, stage, now)]: the state returned ([None]
    for the null pointer) and the world.  [stage] is the index of the stage
    in the person's plan; [fuel] bounds the rejection sampling. *)
Definition add (fuel : nat) (person : PersonId) (stage : nat) (now : Z) (w : World)
  : Outcome (option PState * World) :=
  match findState person (myPedestrianStates (adapter w)) with
  | Some pstate => Returns (Some pstate, w)
  | None =>
      let net := myNetwork (adapter w) in
      let p := persons w person in
      let st := nth stage (myPlan p) MSStage_default in
      match getRoute st with
      | [] => Undefined
      | front :: _ =>
      match getSidewalk (getEdge net front) with
      | None => Undefined
      | Some departureLane =>
      match randomLocationDeparture fuel w p with
      | Throws e => Throws e
      | Undefined => Undefined
      | OutOfFuel => OutOfFuel
      | Returns (p0, w0) =>
      let (departurePosition, w1) :=
        if Position_eqb p0 Position_INVALID
        then laneDeparturePosition w0 departureLane st
        else (p0, w0) in
      match remainingStages p with
      | [] => Undefined
      | current :: rest =>
      match addIntermediateWaypoints current rest w1 JPS_JourneyDescription_Create 0%nat 0%nat [] with
      | LoopUndefined => Undefined
      | LoopFailed w2 => Returns (None, w2)
      | LoopDone arrivalStage w2 journey startingStage predecessor waypoints =>
      match getSidewalk (getEdge net (getDestination arrivalStage)) with
      | None => Undefined
      | Some arrivalLane =>
      let arrivalPosition :=
        positionAtOffset (getShape arrivalLane) (getArrivalPos arrivalStage) 0 in
      match addWaypoint w2 journey predecessor arrivalPosition with
      | (false, w3, _, _) => Returns (None, w3)
      | (true, w3, journey', predecessor') =>
      let startingStage' := if Nat.eqb startingStage 0 then predecessor' else startingStage in
      let (sim, r) := JPS_Simulation_AddJourney (myJPSSimulation (adapter w3)) journey' in
      let w4 := emit [Call_JPS_Simulation_AddJourney journey' (failureOf r)]
                     (setSimulation sim w3) in
      match r with
      | inl message =>
          Returns (None,
                   emit [WRITE_WARNINGF "Error while adding a journey for an agent: %"
                           [ArgString message];
                         JPS_ErrorMessage_Free] w4)
      | inr journeyId =>
          let state0 :=
            PState_new person stage journey' journeyId startingStage'
              (waypoints ++ [arrivalPosition]) in
          let state1 :=
            setAngle (rotationAtOffset (getShape departureLane) (getDepartPos st))
              (setPosition (myX departurePosition) (myY departurePosition)
                 (setPreviousPosition departurePosition
                    (setLanePosition (getDepartPos st) state0))) in
          let w5 := setNumActivePedestrians (myNumActivePedestrians (adapter w4) + 1)%Z w4 in
          let (state, w6) := tryPedestrianInsertion state1 w5 in
          Returns (Some state,
                   setPedestrianStates (myPedestrianStates (adapter w6) ++ [state]) w6)
      end
      end
      end
      end
      end
      end
      end
      end
  end.

(* --------------------------------------------------------------------- *)
(** *** Step Synchronizer *)
(* --------------------------------------------------------------------- *)

(** The current route edge of a walking stage ([stage->getEdge()]). *)
Definition getRouteEdge (stage : MSStage) : EdgeId :=
  nth (myRouteStep stage) (getRoute stage) (getDestination stage).

(** Lines 281-317 of [execute], for a state that is inserted: the position
    and heading are fetched from the engine, the position is matched against
    the forward route, and the host stage is advanced when the matched lane
    is another normal lane than the expected one.  Returns the state, the
    world, [newPosition] and the index of the stage object [stage].  The cast
    of the current stage to a walking stage is taken to succeed, and a route
    edge without a sidewalk is taken not to match. *)
Definition updatePosition (time : Z) (state : PState) (w : World)
  : PState * World * Position * nat :=
  let net := myNetwork (adapter w) in
  let person := persons w (myPerson state) in
  let stageIndex := myStep person in
  let stage := getCurrentStage person in
  let sim := myJPSSimulation (adapter w) in
  let s1 := setPreviousPosition (getPosition state) state in
  let position := JPS_Agent_GetPosition sim (getAgentId state) in
  let s2 := setPosition (jps_x position) (jps_y position) s1 in
  let orientation := JPS_Agent_GetOrientation sim (getAgentId state) in
  let s3 := setAngle (atan2 (jps_y orientation) (jps_x orientation)) s2 in
  let newPosition := mkPosition (jps_x position) (jps_y position) 0 in
  let forwardRoute := skipn (myRouteStep stage) (getRoute stage) in
  let found := moveToXYMap_matchingRoutePosition net newPosition forwardRoute person in
  let s4 :=
    match found with
    | Some (_, candidateLaneLongitudinalPosition) =>
        setLanePosition candidateLaneLongitudinalPosition s3
    | None => s3
    end in
  match found, getSidewalk (getEdge net (getRouteEdge stage)) with
  | Some (candidateLane, candidateLaneLongitudinalPosition), Some expectedLane =>
      if lane_isNormal expectedLane && lane_isNormal candidateLane
         && negb (Nat.eqb (laneID candidateLane) (laneID expectedLane))
      then (setLanePosition candidateLaneLongitudinalPosition s4,
            setPerson (myPerson state) (fst (moveToNextEdge stageIndex person)) w,
            newPosition, stageIndex)
      else (s4, w, newPosition, stageIndex)
  | _, _ => (s4, w, newPosition, stageIndex)
  end.

(** The visits the loop of [execute] pays to one inserted state until the
    iterator moves on: the iterator is advanced when the next waypoint is not
    near (line 328) and replaced by [erase] when the last waypoint was popped
    (line 325); after popping a waypoint that is not the last, the same state
    is visited again.  The result is the state kept ([None] when erased).
    [fuel] bounds the number of visits. *)
Fixpoint visitInserted (fuel : nat) (time : Z) (state : PState) (w : World)
  : Outcome (option PState * World) :=
  match fuel with
  | O => OutOfFuel
  | S fuel' =>
      let '(s1, w1, newPosition, stageIndex) := updatePosition time state w in
      match getNextWaypoint s1 with
      | None => Undefined
      | Some nextWaypoint =>
          if Rltb (distanceTo2D newPosition nextWaypoint) (2 * myExitTolerance (adapter w1)) then
            let person := persons w1 (myPerson s1) in
            let stage := nth stageIndex (myPlan person) MSStage_default in
            match drainEdges (S (List.length (getRoute stage))) stageIndex person with
            | None => OutOfFuel
            | Some person' =>
                let w2 := setPerson (myPerson s1) person' w1 in
                let (s2, last) := advanceNextWaypoint s1 in
                if last then
                  let w3 := registerArrived w2 in
                  Returns (None,
                           emit [Call_JPS_Simulation_MarkAgentForRemoval (getAgentId s2)]
                             (setSimulation
                                (JPS_Simulation_MarkAgentForRemoval
                                   (myJPSSimulation (adapter w3)) (getAgentId s2)) w3))
                else visitInserted fuel' time s2 w2
            end
          else Returns (Some s1, w1)
      end
  end.

(** The body of the loop of [execute] for one element of
    [myPedestrianStates] (lines 273-329). *)
Definition visitState (time : Z) (state : PState) (w : World) : Outcome (option PState * World) :=
  if isWaitingToEnter state then
    let (state', w') := tryPedestrianInsertion state w in
    Returns (Some state', w')
  else visitInserted (S (List.length (myWaypoints state))) time state w.

(** The loop of [execute] over [myPedestrianStates] (lines 272-330): the
    states left in the vector, in order. *)
Fixpoint updateStates (time : Z) (states : list PState) (w : World)
  : Outcome (list PState * World) :=
  match states with
  | [] => Returns ([], w)
  | state :: rest =>
      match visitState time state w with
      | Returns (kept, w1) =>
          match updateStates time rest w1 with
          | Returns (rest', w2) =>
              Returns (match kept with Some s => s :: rest' | None => rest' end, w2)
          | r => r
          end
      | Throws e => Throws e
      | Undefined => Undefined
      | OutOfFuel => OutOfFuel
      end
  end.

(** The sub-steps of the engine (lines 261-267): [n] iterations from
    iteration number [i] on. *)
Fixpoint iterate (n : nat) (i : Z) (w : World) : World :=
  match n with
  | O => w
  | S n' =>
      let (sim, failure) := JPS_Simulation_Iterate (myJPSSimulation (adapter w)) in
      let w1 :=
        emit (Call_JPS_Simulation_Iterate
              :: match failure with
                 | Some message =>
                     [WRITE_ERRORF "Error during iteration %: %" [ArgInt i; ArgString message]]
                 | None => []
                 end)
             (setSimulation sim w) in
      iterate n' (i + 1)%Z w1
  end.

(** [(int)] of a [SUMOTime] (a [long long]): the value modulo 2^32, in the
    range of [int]. *)
Definition toInt (z : Z) : Z := ((z + 2147483648) mod 4294967296 - 2147483648)%Z.

(** [MSPModel_JuPedSim::execute]: the delay returned and the world.  The
    number of iterations is [(int)(DELTA_T / myJPSDeltaT)] (line 259): the
    division truncates towards zero and is undefined for a step length of 0
    (its only other undefined case, the least [long long] divided by -1, does
    not arise for the step length of the host, which is positive); the loop
    [for (int i = 0; i < nbrIterations; ++i)] does not run for a number that
    is not positive. *)
Definition execute (time : Z) (w : World) : Outcome (Z * World) :=
  if Z.eqb (myJPSDeltaT (adapter w)) 0 then Undefined else
  let nbrIterations := toInt (Z.quot (DELTA_T w) (myJPSDeltaT (adapter w))) in
  let w1 := iterate (Z.to_nat nbrIterations) 0%Z w in
  match updateStates time (myPedestrianStates (adapter w1)) w1 with
  | Returns (states, w2) =>
      Returns (DELTA_T w, emit [JPS_ErrorMessage_Free] (setPedestrianStates states w2))
  | Throws e => Throws e
  | Undefined => Undefined
  | OutOfFuel => OutOfFuel
  end.

(** The tracked set, the engine's simulation and the exit tolerance of a
    world. *)
Definition tracked (w : World) : list PState := myPedestrianStates (adapter w).
Definition simulation (w : World) : JPS_Simulation := myJPSSimulation (adapter w).
Definition exitTolerance (w : World) : R := myExitTolerance (adapter w).

(** [n] host steps: [execute] called [n] times, at times [time],
    [time + DELTA_T], ... *)
Fixpoint run (n : nat) (time : Z) (w : World) : Outcome World :=
  match n with
  | O => Returns w
  | S n' =>
      match execute time w with
      | Returns (delay, w1) => run n' (time + delay)%Z w1
      | Throws e => Throws e
      | Undefined => Undefined
      | OutOfFuel => OutOfFuel
      end
  end.

(** The calls of the Journey Builder that report through an error message
    (waypoint, transition, journey registration), with the message of a
    failed one. *)
Definition journeyCallFailure (e : Event) : option JPS_ErrorMessage :=
  match e with
  | Call_JPS_Simulation_AddStageWaypoint _ failure
  | Call_JPS_Transition_CreateFixedTransition _ failure
  | Call_JPS_JourneyDescription_SetTransitionForStage _ failure
  | Call_JPS_Simulation_AddJourney _ failure => failure
  | _ => None
  end.

(** The requests to remove an agent from the engine. *)
Definition isRemovalRequest (e : Event) : bool :=
  match e with
  | Call_JPS_Simulation_MarkAgentForRemoval _ => true
  | _ => false
  end.

(** The releases of a journey description. *)
Definition isJourneyRelease (e : Event) : bool :=
  match e with
  | JPS_JourneyDescription_Free _ => true
  | _ => false
  end.

(** What the Journey Builder and the insertion leave alone of a world:
    everything but the engine's simulation, the random number generator and
    the trace. *)
Definition sameButEngine (w w' : World) : Prop :=
  myNetwork (adapter w') = myNetwork (adapter w)
  /\ exitTolerance w' = exitTolerance w
  /\ myJPSDeltaT (adapter w') = myJPSDeltaT (adapter w)
  /\ tracked w' = tracked w
  /\ getActiveNumber w' = getActiveNumber w
  /\ persons w' = persons w
  /\ DELTA_T w' = DELTA_T w.

(** No event of [es] is a failed call of the Journey Builder. *)
Definition Clean (es : Trace) : Prop :=
  forall e, In e es -> journeyCallFailure e = None.

(** Every failed call of the Journey Builder in [es] comes with a warning
    that carries the engine's message. *)
Definition Reported (es : Trace) : Prop :=
  forall e message,
    In e es -> journeyCallFailure e = Some message ->
    exists format, In (WRITE_WARNINGF format [ArgString message]) es.

(** [newPosition] of [execute] for an inserted state: the position the
    engine reports for its agent. *)
Definition newPositionOf (state : PState) (w : World) : Position :=
  let position := JPS_Agent_GetPosition (myJPSSimulation (adapter w)) (getAgentId state) in
  mkPosition (jps_x position) (jps_y position) 0.

(** The test of line 319 for the state's next pending waypoint. *)
Definition nearNextWaypoint (state : PState) (w : World) : Prop :=
  match myWaypoints state with
  | nextWaypoint :: _ =>
      distanceTo2D (newPositionOf state w) nextWaypoint < 2 * exitTolerance w
  | [] => False
  end.


(** Every tracked state has a pending waypoint. *)
Definition queuesNonEmpty (w : World) : Prop :=
  forall state, In state (tracked w) -> myWaypoints state <> [].

(** The insertion attempts for journey [j] in [es] that the engine refused. *)
Definition refusedInsertions (j : JPS_JourneyId) (es : Trace) : list Event :=
  filter (fun e => match e with
                   | Call_JPS_Simulation_AddCollisionFreeSpeedModelAgent j' (Some _) => Nat.eqb j' j
                   | _ => false
                   end) es.

(** The engine refuses every agent of journey [j], whatever the state of
    the simulation (for instance because the place it would enter at stays
    occupied). *)
Definition Rejects (j : JPS_JourneyId) : Prop :=
  forall sim parameters,
    journeyId parameters = j ->
    exists sim' message,
      JPS_Simulation_AddCollisionFreeSpeedModelAgent sim parameters = (sim', inl message).

(** How the visits to an inserted state end, seen from the state [state] and
    the world [w] they started from. *)
Definition visited (state : PState) (w : World) (kept : option PState) (w' : World) : Prop :=
  tracked w' = tracked w
  /\ match kept with
     | Some state' =>
         (* the state stays tracked: its queue is a non-empty suffix of the
            queue it had, and nothing was popped exactly when the next
            waypoint was not near *)
         trace w' = trace w
         /\ getActiveNumber w' = getActiveNumber w
         /\ simulation w' = simulation w
         /\ myWaypoints state' <> []
         /\ myPerson state' = myPerson state
         /\ myAgentId state' = myAgentId state
         /\ isWaitingToEnter state' = isWaitingToEnter state
         /\ exists popped,
             myWaypoints state = popped ++ myWaypoints state'
             /\ (popped = [] <-> ~ nearNextWaypoint state w)
     | None =>
         (* the last waypoint was popped: arrival is registered, the removal
            of the agent is requested and the state is erased *)
         trace w' = trace w ++ [Call_JPS_Simulation_MarkAgentForRemoval (myAgentId state)]
         /\ getActiveNumber w' = (getActiveNumber w - 1)%Z
         /\ nearNextWaypoint state w
     end.

(** The tracked states belong to distinct persons. *)
Definition personsDistinct (w : World) : Prop := NoDup (map myPerson (tracked w)).

(** [PState::getSpeed]: the distance covered since the previous position,
    over the length of a host step in seconds. *)
Definition getSpeed (s : PState) (w : World) : R :=
  distanceTo2D (myPosition s) (myPreviousPosition s) / STEPS2TIME (DELTA_T w).

(** The counter is the number of tracked states. *)
Definition countsTracked (w : World) : Prop :=
  getActiveNumber w = Z.of_nat (List.length (tracked w)).

End Adapter.

(* ===================================================================== *)
(** ** Example surroundings *)
(* ===================================================================== *)

(** A geometry library that reports [n] parts, part [i] of area [area i],
    and [simple] for every simplicity check.  Every ring is the same closed
    triangle, and no polygon has a hole. *)
Definition exampleGEOS (simple : bool) (n : nat) (area : nat -> R) : GEOS :=
  {| GEOSisSimple := fun _ => simple;
     GEOSGetNumGeometries := fun _ => n;
     GEOSArea := fun g => match g with GEOSGetGeometryN _ i => area i | _ => 0 end;
     GEOSGetNumInteriorRings := fun _ => 0%Z;
     GEOSGeom_getCoordSeq := fun _ =>
       [mkPosition 0 0 0; mkPosition 30 0 0; mkPosition 30 2 0; mkPosition 0 0 0] |}.

(** One part of area 1; every geometry is simple. *)
Definition simpleGEOS : GEOS := exampleGEOS true 1 (fun _ => 1).

(** Two parts, of areas 1 and 3. *)
Definition twoPartsGEOS : GEOS :=
  exampleGEOS true 2 (fun i => match i with O => 1 | _ => 3 end).

Definition exampleLane (id : LaneId) (f : SumoXMLEdgeFunc) (x0 x1 : R) : MSLane :=
  mkLane id f [mkPosition x0 0 0; mkPosition x1 0 0] 2.

(** A crossing (edge 1) that leads into a walking area (edge 3), which leads
    into a normal edge (edge 2). *)
Definition crossingLane : MSLane := exampleLane 1%nat EDGEFUNC_CROSSING 0 10.
Definition normalLane : MSLane := exampleLane 2%nat EDGEFUNC_NORMAL 12 30.
Definition crossingEdge : MSEdge :=
  mkEdge 1%nat EDGEFUNC_CROSSING [] [3%nat] (Some crossingLane) "".
Definition normalEdge : MSEdge :=
  mkEdge 2%nat EDGEFUNC_NORMAL [3%nat] [] (Some normalLane) "".
Definition walkingAreaEdge : MSEdge :=
  mkEdge 3%nat EDGEFUNC_WALKINGAREA [1%nat] [2%nat] (Some (exampleLane 3%nat EDGEFUNC_WALKINGAREA 10 12)) "".
Definition internalEdge : MSEdge :=
  mkEdge 4%nat EDGEFUNC_INTERNAL [3%nat] [] (Some (exampleLane 4%nat EDGEFUNC_INTERNAL 12 20)) "".

Definition exampleNet : MSNet :=
  mkNet (fun id => match id with
                   | 1%nat => crossingEdge
                   | 2%nat => normalEdge
                   | 3%nat => walkingAreaEdge
                   | _ => internalEdge
                   end)
        [mkJunction [1%nat] [2%nat]] [].

(** An engine whose simulation is the number of identifiers it has handed
    out.  Creation always succeeds; a waypoint is refused with the message
    [waypointError p] when there is one, an agent with [agentError j] when
    there is one (and the simulation is left as it was); [agentPosition]
    tells where an agent is. *)
Definition exampleEngine (waypointError : JPS_Point -> option JPS_ErrorMessage)
  (agentError : JPS_JourneyId -> option JPS_ErrorMessage)
  (agentPosition : JPS_AgentId -> JPS_Point) : JPSEngine :=
  {| JPS_Geometry := JPS_GeometryBuilder;
     JPS_OperationalModel := JPS_CollisionFreeSpeedModelBuilder;
     JPS_Simulation := nat;
     JPS_GeometryBuilder_Build := fun b => inr b;
     JPS_CollisionFreeSpeedModelBuilder_Build := fun b => inr b;
     JPS_Simulation_Create := fun _ _ _ => inr 0%nat;
     JPS_Simulation_AddStageWaypoint := fun sim p _ =>
       match waypointError p with
       | Some message => (sim, inl message)
       | None => (S sim, inr (S sim))
       end;
     JPS_Transition_CreateFixedTransition := fun s => inr (JPS_FixedTransition s);
     JPS_JourneyDescription_SetTransitionForStage := fun j s t =>
       inr (mkJourney (journeyStages j) (journeyTransitions j ++ [(s, t)]));
     JPS_Simulation_AddJourney := fun sim _ => (S sim, inr (S sim));
     JPS_Simulation_AddCollisionFreeSpeedModelAgent := fun sim parameters =>
       match agentError (journeyId parameters) with
       | Some message => (sim, inl message)
       | None => (S sim, inr (S sim))
       end;
     JPS_Simulation_Iterate := fun sim => (sim, None);
     JPS_Agent_GetPosition := fun _ a => agentPosition a;
     JPS_Agent_GetOrientation := fun _ _ => mkJPSPoint 1 0;
     JPS_Simulation_MarkAgentForRemoval := fun sim _ => sim |}.

(** An engine that accepts everything and keeps every agent at the origin. *)
Definition acceptingEngine : JPSEngine :=
  exampleEngine (fun _ => None) (fun _ => None) (fun _ => mkJPSPoint 0 0).

(** A host whose lanes run along the x axis: the position at an offset is
    the point at that abscissa, shifted sideways by the lateral offset.  No
    position is matched to a lane. *)
Definition exampleHost : Host :=
  {| positionAtOffset := fun _ pos lat => mkPosition pos lat 0;
     rotationAtOffset := fun _ _ => 0;
     around := fun _ _ => true;
     getBoxBoundary := fun _ => mkBoundary 0 1 0 1;
     atan2 := fun _ _ => 0;
     UNSPECIFIED_POS_LAT := 1000000;
     RANDOM_POS_LAT := -1000000;
     RandState := unit;
     RandHelper_rand := fun r a _ => (a, r);
     moveToXYMap_matchingRoutePosition := fun _ _ _ _ => None |}.

Definition waitingStage : MSStage :=
  mkStage WAITING_FOR_DEPART [] 0 0 0 0 2%nat None 2%nat.

(** A walk along the normal edge (edge 2) from position 12 to [arrival]. *)
Definition walkingStage (arrival : R) : MSStage :=
  mkStage WALKING [2%nat] 0 12 0 arrival 2%nat None 2%nat.

(** Person 0 waits and then walks to position 20; every other person waits,
    walks to position 20 and then walks on to position 25. *)
Definition examplePerson : MSPerson :=
  mkPerson "p0" [waitingStage; walkingStage 20] 1 DEPARTPOS_DEFAULT false false 0 0 (13 / 10).
Definition twoWalksPerson : MSPerson :=
  mkPerson "p1" [waitingStage; walkingStage 20; walkingStage 25] 1 DEPARTPOS_DEFAULT
    false false 0 0 (13 / 10).
Definition examplePersons (id : PersonId) : MSPerson :=
  match id with
  | O => examplePerson
  | _ => twoWalksPerson
  end.

(** A world around [exampleNet] for an example engine: the exit tolerance,
    the tracked states and the counter are given; the host step is one
    second, the engine's step a tenth of it. *)
Definition exampleWorld (waypointError : JPS_Point -> option JPS_ErrorMessage)
  (agentError : JPS_JourneyId -> option JPS_ErrorMessage)
  (agentPosition : JPS_AgentId -> JPS_Point)
  (tolerance : R) (states : list PState) (active : Z)
  : @World (exampleEngine waypointError agentError agentPosition) exampleHost :=
  @mkWorld (exampleEngine waypointError agentError agentPosition) exampleHost
    (@mkModel (exampleEngine waypointError agentError agentPosition)
       exampleNet 100 tolerance
       (GEOSGeom_createPolygon (GEOSGeom_createLinearRing [])) true
       JPS_GeometryBuilder_Create JPS_GeometryBuilder_Create
       (JPS_CollisionFreeSpeedModelBuilder_Create 8 (1 / 10) 5 (2 / 100))
       (JPS_CollisionFreeSpeedModelBuilder_Create 8 (1 / 10) 5 (2 / 100))
       0%nat states active)
    examplePersons tt 1000 [].

(** An empty world whose engine refuses every waypoint. *)
Definition refusingWaypoints :=
  exampleWorld (fun _ => Some "degenerate waypoint") (fun _ => None)
    (fun _ => mkJPSPoint 0 0) 1 [] 0.

(** The events of the destructor after [clearState()], for the pedestrian
    network [network]. *)
Definition destructorReleases (network : GEOSGeometry) : Trace :=
  [ JPS_Simulation_Free;
    JPS_OperationalModel_Free;
    JPS_CollisionFreeSpeedModelBuilder_Free;
    JPS_Geometry_Free;
    JPS_GeometryBuilder_Free;
    GEOSGeom_destroy network;
    finishGEOS ].

(** The state of an inserted pedestrian (agent 1, journey 1) of person
    [person] with the waypoint queue [waypoints], and of one that still waits
    to enter. *)
Definition insertedState (person : PersonId) (waypoints : PositionVector) : PState :=
  mkPState person 1 (mkJourney [1%nat] []) 1 1 waypoints 1 (mkPosition 12 0 0)
    (mkPosition 12 0 0) 0 12 false.
Definition waitingState (person : PersonId) (waypoints : PositionVector) : PState :=
  mkPState person 1 (mkJourney [1%nat] []) 1 1 waypoints 0 (mkPosition 12 0 0)
    (mkPosition 12 0 0) 0 12 true.

(** A world that tracks three pedestrians: two inserted, one waiting. *)
Definition threePedestrians : @World acceptingEngine exampleHost :=
  exampleWorld (fun _ => None) (fun _ => None) (fun _ => mkJPSPoint 0 0) 1
    [insertedState 0 [mkPosition 20 0 0];
     insertedState 1 [mkPosition 20 0 0];
     waitingState 2 [mkPosition 20 0 0]] 3.


Definition threeEqualPartsGEOS : GEOS := exampleGEOS true 3 (fun _ => 1).

(** A geometry library for a square with two holes: ring 0 has area 1, the
    other ring area 1/1000. *)
Definition holedGEOS : GEOS :=
  {| GEOSisSimple := fun _ => true;
     GEOSGetNumGeometries := fun _ => 1%nat;
     GEOSArea := fun g =>
       match g with
       | GEOSGeom_createPolygon (GEOSGetInteriorRingN _ O) => 1
       | GEOSGeom_createPolygon (GEOSGetInteriorRingN _ _) => 1 / 1000
       | _ => 16
       end;
     GEOSGetNumInteriorRings := fun _ => 2%Z;
     GEOSGeom_getCoordSeq := fun g =>
       match g with
       | GEOSGetInteriorRingN _ _ =>
           [mkPosition 1 1 0; mkPosition 2 1 0; mkPosition 2 2 0; mkPosition 1 1 0]
       | _ => [mkPosition 0 0 0; mkPosition 4 0 0; mkPosition 4 4 0; mkPosition 0 0 0]
       end |}.

(** The square with two holes: what is left of a walkable area once two
    obstacles inside it are taken away. *)
Definition holedSquare : GEOSGeometry :=
  GEOSGetGeometryN
    (GEOSDifference
       (GEOSUnaryUnion
          (GEOSGeom_createCollection GEOS_MULTIPOLYGON
             [Some (GEOSGeom_createPolygon
                      (GEOSGeom_createLinearRing
                         [mkPosition 0 0 0; mkPosition 4 0 0; mkPosition 4 4 0;
                          mkPosition 0 0 0]))]))
       (GEOSUnaryUnion
          (GEOSGeom_createCollection GEOS_MULTIPOLYGON
             [Some (GEOSGeom_createPolygon
                      (GEOSGeom_createLinearRing
                         [mkPosition 1 1 0; mkPosition 2 1 0; mkPosition 2 2 0;
                          mkPosition 1 1 0]));
              Some (GEOSGeom_createPolygon
                      (GEOSGeom_createLinearRing
                         [mkPosition 3 3 0; mkPosition (31 / 10) 3 0;
                          mkPosition (31 / 10) (31 / 10) 0; mkPosition 3 3 0]))])))
    0.

(** An engine whose creation calls fail: the geometry for [failing = 0], the
    operational model for 1, the simulation for 2. *)
Definition failingEngine (failing : nat) : JPSEngine :=
  {| JPS_Geometry := JPS_GeometryBuilder;
     JPS_OperationalModel := JPS_CollisionFreeSpeedModelBuilder;
     JPS_Simulation := nat;
     JPS_GeometryBuilder_Build := fun b =>
       match failing with O => inl "no accessible area" | _ => inr b end;
     JPS_CollisionFreeSpeedModelBuilder_Build := fun b =>
       match failing with 1%nat => inl "bad parameters" | _ => inr b end;
     JPS_Simulation_Create := fun _ _ _ =>
       match failing with 2%nat => inl "bad step length" | _ => inr 0%nat end;
     JPS_Simulation_AddStageWaypoint := fun sim _ _ => (S sim, inr (S sim));
     JPS_Transition_CreateFixedTransition := fun s => inr (JPS_FixedTransition s);
     JPS_JourneyDescription_SetTransitionForStage := fun j s t =>
       inr (mkJourney (journeyStages j) (journeyTransitions j ++ [(s, t)]));
     JPS_Simulation_AddJourney := fun sim _ => (S sim, inr (S sim));
     JPS_Simulation_AddCollisionFreeSpeedModelAgent := fun sim _ => (S sim, inr (S sim));
     JPS_Simulation_Iterate := fun sim => (sim, None);
     JPS_Agent_GetPosition := fun _ _ => mkJPSPoint 0 0;
     JPS_Agent_GetOrientation := fun _ _ => mkJPSPoint 1 0;
     JPS_Simulation_MarkAgentForRemoval := fun sim _ => sim |}.

(** An engine that cannot set a transition, and an empty world around it. *)
Definition brokenTransitionsEngine : JPSEngine :=
  {| JPS_Geometry := JPS_GeometryBuilder;
     JPS_OperationalModel := JPS_CollisionFreeSpeedModelBuilder;
     JPS_Simulation := nat;
     JPS_GeometryBuilder_Build := fun b => inr b;
     JPS_CollisionFreeSpeedModelBuilder_Build := fun b => inr b;
     JPS_Simulation_Create := fun _ _ _ => inr 0%nat;
     JPS_Simulation_AddStageWaypoint := fun sim _ _ => (S sim, inr (S sim));
     JPS_Transition_CreateFixedTransition := fun s => inr (JPS_FixedTransition s);
     JPS_JourneyDescription_SetTransitionForStage := fun _ _ _ => inl "unknown stage";
     JPS_Simulation_AddJourney := fun sim _ => (S sim, inr (S sim));
     JPS_Simulation_AddCollisionFreeSpeedModelAgent := fun sim _ => (S sim, inr (S sim));
     JPS_Simulation_Iterate := fun sim => (sim, None);
     JPS_Agent_GetPosition := fun _ _ => mkJPSPoint 0 0;
     JPS_Agent_GetOrientation := fun _ _ => mkJPSPoint 1 0;
     JPS_Simulation_MarkAgentForRemoval := fun sim _ => sim |}.

Definition brokenTransitionsWorld : @World brokenTransitionsEngine exampleHost :=
  @mkWorld brokenTransitionsEngine exampleHost
    (@mkModel brokenTransitionsEngine exampleNet 100 1
       (GEOSGeom_createPolygon (GEOSGeom_createLinearRing [])) true
       JPS_GeometryBuilder_Create JPS_GeometryBuilder_Create
       (JPS_CollisionFreeSpeedModelBuilder_Create 8 (1 / 10) 5 (2 / 100))
       (JPS_CollisionFreeSpeedModelBuilder_Create 8 (1 / 10) 5 (2 / 100))
       0%nat [] 0)
    examplePersons tt 1000 [].

(** A network with a zone connector (edge 5) of the zone "zone", for which
    the shape container holds no polygon; a person whose trip starts in that
    zone at a random location and who is at the walk that follows; and an
    empty world around them. *)
Definition zoneEdge : MSEdge := mkEdge 5%nat EDGEFUNC_CONNECTOR [] [] None "zone".
Definition zoneNet : MSNet :=
  mkNet (fun id => match id with
                   | 1%nat => crossingEdge
                   | 2%nat => normalEdge
                   | 3%nat => walkingAreaEdge
                   | 5%nat => zoneEdge
                   | _ => internalEdge
                   end)
        [mkJunction [1%nat] [2%nat]] [].
Definition zonePerson : MSPerson :=
  mkPerson "p2" [waitingStage; mkStage WAITING [] 0 0 0 0 5%nat None 5%nat; walkingStage 20] 2
    RANDOM_LOCATION false false 0 0 (13 / 10).
Definition zoneWorld : @World acceptingEngine exampleHost :=
  @mkWorld acceptingEngine exampleHost
    (@mkModel acceptingEngine zoneNet 100 1
       (GEOSGeom_createPolygon (GEOSGeom_createLinearRing [])) true
       JPS_GeometryBuilder_Create JPS_GeometryBuilder_Create
       (JPS_CollisionFreeSpeedModelBuilder_Create 8 (1 / 10) 5 (2 / 100))
       (JPS_CollisionFreeSpeedModelBuilder_Create 8 (1 / 10) 5 (2 / 100))
       0%nat [] 0)
    (fun _ => zonePerson) tt 1000 [].

(** [exampleNet] with an obstacle that covers all of it: a square of side
    200 around the origin. *)
Definition coveringObstacle : SUMOPolygon :=
  mkPolygon "jupedsim.obstacle"
    [mkPosition (-100) (-100) 0; mkPosition 100 (-100) 0; mkPosition 100 100 0;
     mkPosition (-100) 100 0].
Definition coveredNet : MSNet :=
  mkNet (getEdge exampleNet) (getJunctionControl exampleNet) [("obstacle", coveringObstacle)].

(** A geometry library for a network whose obstacles cover its walkable
    areas: what is left of a geometry once a union of obstacles, of which
    there is at least one, is taken away is an empty polygon, which has one
    part, of area 0, whose ring has no coordinates.  Everything else is as
    for [simpleGEOS]. *)
Definition coveredGEOS : GEOS :=
  {| GEOSisSimple := fun _ => true;
     GEOSGetNumGeometries := fun _ => 1%nat;
     GEOSArea := fun g =>
       match g with
       | GEOSGetGeometryN
           (GEOSDifference _ (GEOSUnaryUnion (GEOSGeom_createCollection _ (_ :: _)))) _ => 0
       | GEOSGetGeometryN _ _ => 1
       | _ => 0
       end;
     GEOSGetNumInteriorRings := fun _ => 0%Z;
     GEOSGeom_getCoordSeq := fun g =>
       match g with
       | GEOSGetExteriorRing
           (GEOSGetGeometryN
              (GEOSDifference _ (GEOSUnaryUnion (GEOSGeom_createCollection _ (_ :: _)))) _) =>
           []
       | _ => [mkPosition 0 0 0; mkPosition 30 0 0; mkPosition 30 2 0; mkPosition 0 0 0]
       end |}.

(** An engine whose every other iteration fails: the simulation counts the
    iterations, and the iterations from an even count fail. *)
Definition flakyEngine : JPSEngine :=
  {| JPS_Geometry := JPS_GeometryBuilder;
     JPS_OperationalModel := JPS_CollisionFreeSpeedModelBuilder;
     JPS_Simulation := nat;
     JPS_GeometryBuilder_Build := fun b => inr b;
     JPS_CollisionFreeSpeedModelBuilder_Build := fun b => inr b;
     JPS_Simulation_Create := fun _ _ _ => inr 0%nat;
     JPS_Simulation_AddStageWaypoint := fun sim _ _ => (sim, inr 1%nat);
     JPS_Transition_CreateFixedTransition := fun s => inr (JPS_FixedTransition s);
     JPS_JourneyDescription_SetTransitionForStage := fun j s t =>
       inr (mkJourney (journeyStages j) (journeyTransitions j ++ [(s, t)]));
     JPS_Simulation_AddJourney := fun sim _ => (sim, inr 1%nat);
     JPS_Simulation_AddCollisionFreeSpeedModelAgent := fun sim _ => (sim, inr 1%nat);
     JPS_Simulation_Iterate := fun sim =>
       (S sim, if Nat.even sim then Some "no progress" else None);
     JPS_Agent_GetPosition := fun _ _ => mkJPSPoint 0 0;
     JPS_Agent_GetOrientation := fun _ _ => mkJPSPoint 1 0;
     JPS_Simulation_MarkAgentForRemoval := fun sim _ => sim |}.

(** A world around [flakyEngine] that tracks one pedestrian, far from its
    waypoint. *)
Definition flakyWorld : @World flakyEngine exampleHost :=
  @mkWorld flakyEngine exampleHost
    (@mkModel flakyEngine exampleNet 100 1
       (GEOSGeom_createPolygon (GEOSGeom_createLinearRing [])) true
       JPS_GeometryBuilder_Create JPS_GeometryBuilder_Create
       (JPS_CollisionFreeSpeedModelBuilder_Create 8 (1 / 10) 5 (2 / 100))
       (JPS_CollisionFreeSpeedModelBuilder_Create 8 (1 / 10) 5 (2 / 100))
       0%nat [insertedState 0 [mkPosition 20 0 0]] 1)
    examplePersons tt 1000 [].

(* ===================================================================== *)
(** ** Facts about comparisons *)
(* ===================================================================== *)

Lemma Rltb_true_iff (a b : R) : Rltb a b = true <-> a < b.
Proof.
  unfold Rltb. destruct (Rlt_dec a b) as [Hlt | Hge]; split; intro Hyp;
    try reflexivity; try assumption; try discriminate.
  contradiction.
Qed.

Lemma Rltb_false_iff (a b : R) : Rltb a b = false <-> b <= a.
Proof.
  unfold Rltb. destruct (Rlt_dec a b) as [Hlt | Hge]; split; intro Hyp;
    try reflexivity; try discriminate; lra.
Qed.

Lemma Reqb_true_iff (a b : R) : Reqb a b = true <-> a = b.
Proof.
  unfold Reqb. destruct (Req_dec_T a b) as [Heq | Hne]; split; intro Hyp;
    try reflexivity; try assumption; try discriminate.
  contradiction.
Qed.

Lemma Reqb_refl (a : R) : Reqb a a = true.
Proof. apply Reqb_true_iff. reflexivity. Qed.

Lemma Reqb_false (a b : R) : a <> b -> Reqb a b = false.
Proof.
  intros Hne. unfold Reqb. destruct (Req_dec_T a b) as [Heq | _]; [contradiction | reflexivity].
Qed.

Lemma Position_eqb_refl (p : Position) : Position_eqb p p = true.
Proof. unfold Position_eqb. rewrite !Reqb_refl. reflexivity. Qed.

(** Evaluation of a run on a concrete world, with the arithmetic of the
    doubles left for rewriting. *)
Ltac evaluate := lazy -[IZR Rltb Reqb Position_eqb distanceTo2D Rdiv Rminus Ropp].

(* ===================================================================== *)
(** ** Geometry Builder: the connector cases *)
(* ===================================================================== *)

Section ConnectorCases.

Context {G : GEOS}.

Variable net : MSNet.
Variables edge nextEdge : MSEdge.
Variable lane : MSLane.




End ConnectorCases.




(* ===================================================================== *)
(** ** Geometry Builder: the simplicity check *)
(* ===================================================================== *)

Section Initialization.

Context {G : GEOS} {E : JPSEngine}.

Variable net : MSNet.
Variable jpsDeltaT : Z.
Variable exitTolerance : R.

Lemma buildPedestrianNetwork_trace_no_call :
  existsb isJPSCall (buildPedestrianNetwork_trace net) = false.
Proof. reflexivity. Qed.

Lemma buildPedestrianNetwork_trace_no_warning :
  existsb isWarning (buildPedestrianNetwork_trace net) = false.
Proof. reflexivity. Qed.

(** [buildPedestrianNetwork] returns exactly when the final geometry is
    simple, and then returns that geometry. *)
Lemma buildPedestrianNetwork_returns network :
  buildPedestrianNetwork net = inr network <->
  GEOSisSimple (finalWalkableAreas net) = true /\ network = finalWalkableAreas net.
Proof.
  unfold buildPedestrianNetwork.
  destruct (GEOSisSimple (finalWalkableAreas net)); simpl; split.
  - intros Heq. injection Heq as <-. split; reflexivity.
  - intros [_ ->]. reflexivity.
  - discriminate.
  - intros [Hf _]. discriminate.
Qed.

(** What [initialize] returns was built from the network that
    [buildPedestrianNetwork] returned. *)
Lemma initialize_returns t m :
  initialize net jpsDeltaT exitTolerance = (t, Returns m) ->
  buildPedestrianNetwork net = inr (myGEOSPedestrianNetwork m).
Proof.
  unfold initialize.
  destruct (buildPedestrianNetwork net) as [e | network]; [discriminate |].
  destruct (maxAreaConnectedComponentPolygon (selectMaxArea network)); [| discriminate].
  destruct (preparePolygonForJPS _ _); [| discriminate].
  destruct (JPS_GeometryBuilder_Build _); [discriminate |].
  destruct (JPS_CollisionFreeSpeedModelBuilder_Build _); [discriminate |].
  destruct (JPS_Simulation_Create _ _ _); [discriminate |].
  intros Heq. injection Heq as _ <-. reflexivity.
Qed.

Lemma MSPModel_JuPedSim_new_returns t m :
  MSPModel_JuPedSim_new net jpsDeltaT exitTolerance = (t, Returns m) ->
  exists t', initialize net jpsDeltaT exitTolerance = (t', Returns m).
Proof.
  unfold MSPModel_JuPedSim_new.
  destruct (initialize net jpsDeltaT exitTolerance) as [t' [m' | e | |]]; try discriminate.
  intros Heq. injection Heq as _ <-. exists t'. reflexivity.
Qed.

End Initialization.

(** C7: the final walkable geometry is checked for simplicity.  When it is
    not simple, [buildPedestrianNetwork] throws a descriptive error, the
    constructor of the adapter ends with that exception, and up to then no
    call of the engine was made (no engine geometry is built).  Whenever
    the constructor returns an adapter, the geometry it holds is the final
    walkable geometry and is simple. *)
Theorem nonsimple_geometry_is_fatal `{GEOS} `{JPSEngine} (net : MSNet) (jpsDeltaT : Z)
  (exitTolerance : R) :
  (GEOSisSimple (finalWalkableAreas net) = false ->
   buildPedestrianNetwork net
   = inl (mkProcessError "Union of walkable areas minus union of obstacles is not a simple polygon.")
   /\ MSPModel_JuPedSim_new net jpsDeltaT exitTolerance
      = (initGEOS :: buildPedestrianNetwork_trace net,
         Throws (mkProcessError
                   "Union of walkable areas minus union of obstacles is not a simple polygon."))
   /\ existsb isJPSCall (fst (MSPModel_JuPedSim_new net jpsDeltaT exitTolerance)) = false)
  /\
  (forall t m,
      MSPModel_JuPedSim_new net jpsDeltaT exitTolerance = (t, Returns m) ->
      GEOSisSimple (finalWalkableAreas net) = true
      /\ myGEOSPedestrianNetwork m = finalWalkableAreas net).
Proof.
  split.
  - intros Hns.
    assert (Hb : buildPedestrianNetwork net
                 = inl (mkProcessError
                          "Union of walkable areas minus union of obstacles is not a simple polygon.")).
    { unfold buildPedestrianNetwork. rewrite Hns. reflexivity. }
    assert (Hn : MSPModel_JuPedSim_new net jpsDeltaT exitTolerance
                 = (initGEOS :: buildPedestrianNetwork_trace net,
                    Throws (mkProcessError
                      "Union of walkable areas minus union of obstacles is not a simple polygon."))).
    { unfold MSPModel_JuPedSim_new, initialize. rewrite Hb. reflexivity. }
    split; [exact Hb |]. split; [exact Hn |].
    rewrite Hn. reflexivity.
  - intros t m Hnew.
    destruct (MSPModel_JuPedSim_new_returns _ _ _ Hnew) as [t' Hinit].
    apply initialize_returns in Hinit.
    apply buildPedestrianNetwork_returns in Hinit. destruct Hinit as [Hs Hg].
    split; assumption.
Qed.

(** The theorem for a network whose final geometry is reported not simple. *)
Lemma nonsimple_geometry_is_fatal_witness :
  @MSPModel_JuPedSim_new (exampleGEOS false 1 (fun _ => 1)) acceptingEngine exampleNet 100 (1 / 2)
  = (initGEOS :: @buildPedestrianNetwork_trace (exampleGEOS false 1 (fun _ => 1)) exampleNet,
     Throws (mkProcessError
               "Union of walkable areas minus union of obstacles is not a simple polygon.")).
Proof.
  apply (proj1 (@nonsimple_geometry_is_fatal (exampleGEOS false 1 (fun _ => 1)) acceptingEngine
                  exampleNet 100%Z (1 / 2))).
  reflexivity.
Defined.

(* ===================================================================== *)
(** ** Model Initializer: the component of largest area *)
(* ===================================================================== *)

Section LargestComponent.

Context {G : GEOS}.

Variable network : GEOSGeometry.

(** The area of component [i]. *)
Let area (i : nat) : R := GEOSArea (GEOSGetGeometryN network i).

(** The loop over any indices [l] from any state [acc]: the running maximum
    does not decrease, bounds the area of every component visited, and the
    state is either untouched or names a visited component that beat the
    state the loop started from. *)
Lemma selectStep_fold (l : list nat) (acc : MaxArea) :
  let r := fold_left (selectStep network) l acc in
  maxArea acc <= maxArea r
  /\ (forall j, In j l -> area j <= maxArea r)
  /\ (r = acc
      \/ exists k, In k l
                   /\ r = mkMaxArea (area k) (Some (GEOSGetGeometryN network k)) k
                   /\ maxArea acc < area k).
Proof.
  revert acc. induction l as [| i l IH]; intros acc; simpl.
  - split; [lra |]. split; [intros j [] | left; reflexivity].
  - destruct (IH (selectStep network acc i)) as (Hmono & Hbound & Hsel).
    assert (Hstep : maxArea acc <= maxArea (selectStep network acc i)
                    /\ area i <= maxArea (selectStep network acc i)).
    { unfold selectStep. fold (area i).
      destruct (Rltb (maxArea acc) (area i)) eqn:Hlt; simpl.
      - apply Rltb_true_iff in Hlt. lra.
      - apply Rltb_false_iff in Hlt. lra. }
    destruct Hstep as [Hacc Hi].
    split; [lra |]. split.
    + intros j [<- | Hj]; [lra | apply Hbound; exact Hj].
    + destruct Hsel as [Heq | (k & Hk & Heq & Hlt)].
      * rewrite Heq. unfold selectStep. fold (area i).
        destruct (Rltb (maxArea acc) (area i)) eqn:Hlt.
        -- right. exists i. split; [left; reflexivity |]. split; [reflexivity |].
           apply Rltb_true_iff in Hlt. exact Hlt.
        -- left. reflexivity.
      * right. exists k. split; [right; exact Hk |]. split; [exact Heq | lra].
Qed.

(** When some component has positive area, the loop selects a component
    whose area no other component exceeds. *)
Lemma selectMaxArea_maximal :
  (exists i, (i < GEOSGetNumGeometries network)%nat /\ 0 < area i) ->
  exists k, (k < GEOSGetNumGeometries network)%nat
            /\ selectMaxArea network = mkMaxArea (area k) (Some (GEOSGetGeometryN network k)) k
            /\ forall j, (j < GEOSGetNumGeometries network)%nat -> area j <= area k.
Proof.
  intros (i & Hi & Hpos).
  destruct (selectStep_fold (seq 0 (GEOSGetNumGeometries network)) (mkMaxArea 0 None 0))
    as (_ & Hbound & Hsel).
  fold (selectMaxArea network) in Hbound, Hsel.
  assert (Hin : forall j, (j < GEOSGetNumGeometries network)%nat ->
                          In j (seq 0 (GEOSGetNumGeometries network))).
  { intros j Hj. apply in_seq. lia. }
  destruct Hsel as [Heq | (k & Hk & Heq & _)].
  - specialize (Hbound i (Hin i Hi)). rewrite Heq in Hbound. simpl in Hbound. lra.
  - exists k. split; [apply in_seq in Hk; lia |]. split; [exact Heq |].
    intros j Hj. specialize (Hbound j (Hin j Hj)). rewrite Heq in Hbound. exact Hbound.
Qed.

(** When no component has positive area, the loop selects nothing. *)
Lemma selectMaxArea_none :
  (forall i, (i < GEOSGetNumGeometries network)%nat -> area i <= 0) ->
  selectMaxArea network = mkMaxArea 0 None 0.
Proof.
  intros Hall.
  destruct (selectStep_fold (seq 0 (GEOSGetNumGeometries network)) (mkMaxArea 0 None 0))
    as (_ & _ & Hsel).
  fold (selectMaxArea network) in Hsel.
  destruct Hsel as [Heq | (k & Hk & _ & Hlt)]; [exact Heq |].
  apply in_seq in Hk. simpl in Hlt.
  assert (area k <= 0) by (apply Hall; lia). lra.
Qed.

End LargestComponent.

Section InitializeSelection.

Context {G : GEOS} {E : JPSEngine}.

(** The warnings in the trace of [initialize] are the warning about several
    components. *)
Lemma initialize_warning net jpsDeltaT exitTolerance network :
  buildPedestrianNetwork net = inr network ->
  existsb isWarning (fst (initialize net jpsDeltaT exitTolerance))
  = (1 <? GEOSGetNumGeometries network)%nat.
Proof.
  intros Hb. unfold initialize. rewrite Hb.
  assert (Hw : existsb isWarning (componentsWarning (GEOSGetNumGeometries network))
               = (1 <? GEOSGetNumGeometries network)%nat).
  { unfold componentsWarning. destruct (1 <? GEOSGetNumGeometries network)%nat; reflexivity. }
  assert (Hd : forall polygon id, existsb isWarning (preparePolygonForDrawing polygon id) = false).
  { intros polygon id. unfold preparePolygonForDrawing.
    destruct (Z.eqb _ _); reflexivity. }
  destruct (maxAreaConnectedComponentPolygon (selectMaxArea network)) as [polygon |].
  - destruct (preparePolygonForJPS _ _) as [builder |].
    + destruct (JPS_GeometryBuilder_Build _);
        [| destruct (JPS_CollisionFreeSpeedModelBuilder_Build _);
           [| destruct (JPS_Simulation_Create _ _ _)]];
        cbn [fst]; repeat rewrite existsb_app; rewrite Hw, Hd;
        cbn [existsb isWarning]; rewrite buildPedestrianNetwork_trace_no_warning;
        repeat rewrite orb_false_r; reflexivity.
    + cbn [fst]. rewrite !existsb_app, Hw. cbn [existsb isWarning].
      rewrite buildPedestrianNetwork_trace_no_warning, !orb_false_r. reflexivity.
  - cbn [fst]. rewrite existsb_app, Hw. cbn [existsb isWarning].
    rewrite buildPedestrianNetwork_trace_no_warning. reflexivity.
Qed.

(** The polygon fed to the engine's geometry builder is the selected one. *)
Lemma initialize_feeds_selected net jpsDeltaT exitTolerance network polygon m :
  buildPedestrianNetwork net = inr network ->
  maxAreaConnectedComponentPolygon (selectMaxArea network) = Some polygon ->
  snd (initialize net jpsDeltaT exitTolerance) = Returns m ->
  preparePolygonForJPS JPS_GeometryBuilder_Create polygon = Some (myJPSGeometryBuilder m).
Proof.
  intros Hb Hsel. unfold initialize. rewrite Hb, Hsel.
  destruct (preparePolygonForJPS _ _) as [builder |]; [| discriminate].
  destruct (JPS_GeometryBuilder_Build _); [discriminate |].
  destruct (JPS_CollisionFreeSpeedModelBuilder_Build _); [discriminate |].
  destruct (JPS_Simulation_Create _ _ _); [discriminate |].
  cbn [snd]. intros Heq. injection Heq as <-. reflexivity.
Qed.

End InitializeSelection.

(** What C2 promises, where the code keeps it: for a merged walkable geometry
    with N connected components of which at least one has positive area,
    [initialize] selects a component whose area is greater than or equal to
    the area of every component, that component is the one fed to the
    engine's geometry builder, and a warning is emitted exactly when N > 1. *)
Lemma largest_component_selected `{GEOS} `{JPSEngine} (net : MSNet) (jpsDeltaT : Z)
  (exitTolerance : R) (network : GEOSGeometry) :
  buildPedestrianNetwork net = inr network ->
  (exists i, (i < GEOSGetNumGeometries network)%nat
             /\ 0 < GEOSArea (GEOSGetGeometryN network i)) ->
  exists k,
    (k < GEOSGetNumGeometries network)%nat
    /\ maxAreaConnectedComponentPolygon (selectMaxArea network)
       = Some (GEOSGetGeometryN network k)
    /\ (forall j, (j < GEOSGetNumGeometries network)%nat ->
                  GEOSArea (GEOSGetGeometryN network j) <= GEOSArea (GEOSGetGeometryN network k))
    /\ (forall m, snd (initialize net jpsDeltaT exitTolerance) = Returns m ->
                  preparePolygonForJPS JPS_GeometryBuilder_Create (GEOSGetGeometryN network k)
                  = Some (myJPSGeometryBuilder m))
    /\ existsb isWarning (fst (initialize net jpsDeltaT exitTolerance))
       = (1 <? GEOSGetNumGeometries network)%nat.
Proof.
  intros Hb Hpos.
  destruct (selectMaxArea_maximal network Hpos) as (k & Hk & Hsel & Hmax).
  exists k. split; [exact Hk |].
  assert (Hpoly : maxAreaConnectedComponentPolygon (selectMaxArea network)
                  = Some (GEOSGetGeometryN network k)).
  { rewrite Hsel. reflexivity. }
  split; [exact Hpoly |]. split; [exact Hmax |]. split.
  - intros m Hm. exact (initialize_feeds_selected _ _ _ Hb Hpoly Hm).
  - apply initialize_warning. exact Hb.
Qed.

(** The lemma for a geometry of two parts, of areas 1 and 3: the second is
    selected, with a warning. *)
Example largest_of_two_components :
  exists k,
    (k < 2)%nat
    /\ maxAreaConnectedComponentPolygon
         (@selectMaxArea twoPartsGEOS (@finalWalkableAreas twoPartsGEOS exampleNet))
       = Some (GEOSGetGeometryN (@finalWalkableAreas twoPartsGEOS exampleNet) k)
    /\ (forall j, (j < 2)%nat ->
                  match j with O => 1 | _ => 3 end <= match k with O => 1 | _ => 3 end)
    /\ existsb isWarning (fst (@initialize twoPartsGEOS acceptingEngine exampleNet 100 (1 / 2)))
       = true.
Proof.
  destruct (@largest_component_selected twoPartsGEOS acceptingEngine exampleNet 100%Z (1 / 2)
              (@finalWalkableAreas twoPartsGEOS exampleNet))
    as (k & Hk & Hsel & Hmax & _ & Hwarning).
  - reflexivity.
  - exists 0%nat. split; [simpl; lia | simpl; lra].
  - exists k. repeat (split; [assumption |]). exact Hwarning.
Qed.

(** C2, where the code breaks it: when the merged walkable geometry has
    N >= 1 components and none of them has positive area, the selection loop
    selects no component at all, because the running maximum starts at 0.0
    and is replaced only by a strictly greater area.  The polygon is then a
    null pointer, which [initialize] goes on to write out and to convert: the
    constructor is undefined, before any call of the engine.  The warning
    about several components is still emitted exactly when N > 1. *)
Theorem component_without_area_is_not_selected `{GEOS} `{JPSEngine} (net : MSNet)
  (jpsDeltaT : Z) (exitTolerance : R) (network : GEOSGeometry) :
  buildPedestrianNetwork net = inr network ->
  (1 <= GEOSGetNumGeometries network)%nat ->
  (forall i, (i < GEOSGetNumGeometries network)%nat ->
             GEOSArea (GEOSGetGeometryN network i) <= 0) ->
  maxAreaConnectedComponentPolygon (selectMaxArea network) = None
  /\ (forall k, (k < GEOSGetNumGeometries network)%nat ->
                maxAreaConnectedComponentPolygon (selectMaxArea network)
                <> Some (GEOSGetGeometryN network k))
  /\ MSPModel_JuPedSim_new net jpsDeltaT exitTolerance
     = ((initGEOS :: buildPedestrianNetwork_trace net)
          ++ componentsWarning (GEOSGetNumGeometries network),
        Undefined)
  /\ existsb isJPSCall (fst (MSPModel_JuPedSim_new net jpsDeltaT exitTolerance)) = false
  /\ existsb isWarning (fst (MSPModel_JuPedSim_new net jpsDeltaT exitTolerance))
     = (1 <? GEOSGetNumGeometries network)%nat.
Proof.
  intros Hb _ Hall.
  assert (Hnone : maxAreaConnectedComponentPolygon (selectMaxArea network) = None).
  { rewrite (selectMaxArea_none network Hall). reflexivity. }
  assert (Hnew : MSPModel_JuPedSim_new net jpsDeltaT exitTolerance
                 = ((initGEOS :: buildPedestrianNetwork_trace net)
                      ++ componentsWarning (GEOSGetNumGeometries network),
                    Undefined)).
  { unfold MSPModel_JuPedSim_new, initialize. rewrite Hb. cbv zeta. rewrite Hnone. reflexivity. }
  split; [exact Hnone |].
  split; [intros k _; rewrite Hnone; discriminate |].
  split; [exact Hnew |].
  rewrite Hnew. cbn [fst]. rewrite !existsb_app. split.
  - cbn [existsb isJPSCall]. rewrite buildPedestrianNetwork_trace_no_call.
    unfold componentsWarning. destruct (1 <? _)%nat; reflexivity.
  - cbn [existsb isWarning]. rewrite buildPedestrianNetwork_trace_no_warning.
    unfold componentsWarning. destruct (1 <? _)%nat; reflexivity.
Qed.

(** The final geometry of [coveredNet]: the obstacle is taken away from the
    walkable areas. *)
Lemma coveredNet_obstacles :
  exists obstacle,
    @additionalObstacles coveredGEOS coveredNet = [obstacle].
Proof. eexists. reflexivity. Qed.

(** The theorem for [exampleNet] under an obstacle that covers it: the
    geometry left is an empty polygon, which has one part, of area 0. *)
Lemma component_without_area_is_not_selected_witness :
  @GEOSGetNumGeometries coveredGEOS (@finalWalkableAreas coveredGEOS coveredNet) = 1%nat
  /\ maxAreaConnectedComponentPolygon
       (@selectMaxArea coveredGEOS (@finalWalkableAreas coveredGEOS coveredNet))
     = None
  /\ snd (@MSPModel_JuPedSim_new coveredGEOS acceptingEngine coveredNet 100 (1 / 2))
     = Undefined.
Proof.
  destruct (@component_without_area_is_not_selected coveredGEOS acceptingEngine coveredNet
              100%Z (1 / 2) (@finalWalkableAreas coveredGEOS coveredNet))
    as (Hnone & _ & Hnew & _).
  - reflexivity.
  - simpl. lia.
  - intros i _. unfold finalWalkableAreas.
    destruct coveredNet_obstacles as [obstacle ->]. simpl. lra.
  - split; [reflexivity |]. split; [exact Hnone |]. rewrite Hnew. reflexivity.
Defined.

(* ===================================================================== *)
(** ** The adapter: what the helpers change *)
(* ===================================================================== *)

Section Frames.

Context {E : JPSEngine} {H : Host}.

Implicit Types w : World.

Lemma sameButEngine_refl w : sameButEngine w w.
Proof. repeat split. Qed.

Lemma sameButEngine_trans w1 w2 w3 :
  sameButEngine w1 w2 -> sameButEngine w2 w3 -> sameButEngine w1 w3.
Proof.
  unfold sameButEngine.
  intros (A1 & A2 & A3 & A4 & A5 & A6 & A7) (B1 & B2 & B3 & B4 & B5 & B6 & B7).
  repeat split; congruence.
Qed.

Lemma sameButEngine_emit es w : sameButEngine w (emit es w).
Proof. repeat split. Qed.

Lemma sameButEngine_setSimulation sim w : sameButEngine w (setSimulation sim w).
Proof. repeat split. Qed.

Lemma sameButEngine_setRng r w : sameButEngine w (setRng r w).
Proof. repeat split. Qed.

Lemma trace_emit es w : trace (emit es w) = trace w ++ es.
Proof. reflexivity. Qed.

Lemma trace_setSimulation sim w : trace (setSimulation sim w) = trace w.
Proof. reflexivity. Qed.

Lemma Clean_nil : Clean [].
Proof. intros e []. Qed.

Lemma Clean_app es1 es2 : Clean es1 -> Clean es2 -> Clean (es1 ++ es2).
Proof.
  intros H1 H2 e Hin. apply in_app_or in Hin. destruct Hin; [apply H1 | apply H2]; assumption.
Qed.

Lemma Clean_Reported es : Clean es -> Reported es.
Proof. intros Hc e message Hin Hf. rewrite (Hc e Hin) in Hf. discriminate. Qed.

Lemma Reported_app es1 es2 : Reported es1 -> Reported es2 -> Reported (es1 ++ es2).
Proof.
  intros H1 H2 e message Hin Hf. apply in_app_or in Hin. destruct Hin as [Hin | Hin].
  - destruct (H1 e message Hin Hf) as [format Hw]. exists format. apply in_or_app. left. exact Hw.
  - destruct (H2 e message Hin Hf) as [format Hw]. exists format. apply in_or_app. right. exact Hw.
Qed.

(** [addWaypoint] touches the simulation and the trace only; when it
    returns true none of its calls failed, when it returns false a call
    failed and every failure is reported by a warning. *)
Lemma addWaypoint_spec w journey predecessor point b w' journey' predecessor' :
  addWaypoint w journey predecessor point = (b, w', journey', predecessor') ->
  sameButEngine w w'
  /\ exists es,
      trace w' = trace w ++ es
      /\ (if b then Clean es
          else Reported es /\ exists e message, In e es /\ journeyCallFailure e = Some message).
Proof.
  unfold addWaypoint.
  destruct (JPS_Simulation_AddStageWaypoint _ _ _) as [sim [message | waypointId]].
  - intros Heq. injection Heq as <- <- <- <-.
    split; [repeat split |].
    eexists. split; [cbn [trace emit setSimulation setAdapter]; rewrite <- app_assoc; reflexivity |].
    split.
    + intros e m Hin Hf. exists "Error while adding waypoint for an agent: %".
      cbn in Hin. destruct Hin as [<- | [<- | [<- | []]]]; cbn in Hf; try discriminate.
      injection Hf as <-. cbn. right. left. reflexivity.
    + eexists. exists message. split; [left; reflexivity | reflexivity].
  - destruct (Nat.eqb predecessor 0).
    + intros Heq. injection Heq as <- <- <- <-.
      split; [repeat split |].
      eexists. split; [reflexivity |].
      intros e [<- | []]. reflexivity.
    + destruct (JPS_Transition_CreateFixedTransition waypointId) as [message | transition].
      * intros Heq. injection Heq as <- <- <- <-.
        split; [repeat split |].
        eexists. split; [cbn [trace emit setSimulation setAdapter];
                         repeat rewrite <- app_assoc; reflexivity |].
        split.
        -- intros e m Hin Hf. exists "Error while creating fixed transition for an agent: %".
           cbn in Hin. destruct Hin as [<- | [<- | [<- | [<- | []]]]]; cbn in Hf; try discriminate.
           injection Hf as <-. cbn. right. right. left. reflexivity.
        -- eexists. exists message. split; [right; left; reflexivity | reflexivity].
      * destruct (JPS_JourneyDescription_SetTransitionForStage journey predecessor transition)
          as [message | journey''].
        -- intros Heq. injection Heq as <- <- <- <-.
           split; [repeat split |].
           eexists. split; [cbn [trace emit setSimulation setAdapter];
                            repeat rewrite <- app_assoc; reflexivity |].
           split.
           ++ intros e m Hin Hf. exists "Error while setting transition for an agent: %".
              cbn in Hin.
              destruct Hin as [<- | [<- | [<- | [<- | [<- | []]]]]]; cbn in Hf; try discriminate.
              injection Hf as <-. cbn. right. right. right. left. reflexivity.
           ++ eexists. exists message. split; [right; right; left; reflexivity | reflexivity].
        -- intros Heq. injection Heq as <- <- <- <-.
           split; [repeat split |].
           eexists. split; [cbn [trace emit setSimulation setAdapter];
                            repeat rewrite <- app_assoc; reflexivity |].
           intros e Hin. cbn in Hin.
           destruct Hin as [<- | [<- | [<- | [<- | []]]]]; reflexivity.
Qed.

End Frames.

Section JourneyBuilderFacts.

Context {E : JPSEngine} {H : Host}.

Implicit Types w : World.

(** A failed call of the Journey Builder occurs in [es]. *)
Let HasFailure (es : Trace) : Prop :=
  exists e message, In e es /\ journeyCallFailure e = Some message.

(** [tryPedestrianInsertion] makes one call of the engine.  When the engine
    refuses, the state is left as it was and a warning with the engine's
    message is logged; when it accepts, the agent id is stored and the
    waiting-to-enter flag cleared. *)
Lemma tryPedestrianInsertion_spec state w state' w' :
  tryPedestrianInsertion state w = (state', w') ->
  sameButEngine w w' /\ rng w' = rng w
  /\ exists sim parameters,
      journeyId parameters = myJourneyId state
      /\ ((exists message,
              JPS_Simulation_AddCollisionFreeSpeedModelAgent (simulation w) parameters
              = (sim, inl message)
              /\ state' = state
              /\ trace w'
                 = trace w
                   ++ [Call_JPS_Simulation_AddCollisionFreeSpeedModelAgent (myJourneyId state)
                         (Some message);
                       WRITE_WARNINGF "Error while adding person '%' as JuPedSim agent: %"
                         [ArgString (getID (persons w (myPerson state))); ArgString message];
                       JPS_ErrorMessage_Free])
          \/ (exists agentId,
                 JPS_Simulation_AddCollisionFreeSpeedModelAgent (simulation w) parameters
                 = (sim, inr agentId)
                 /\ state' = setAgentId agentId state
                 /\ trace w'
                    = trace w
                      ++ [Call_JPS_Simulation_AddCollisionFreeSpeedModelAgent (myJourneyId state)
                            None])).
Proof.
  unfold tryPedestrianInsertion, simulation.
  match goal with
  | |- context [JPS_Simulation_AddCollisionFreeSpeedModelAgent ?s ?p] =>
      set (parameters := p);
      destruct (JPS_Simulation_AddCollisionFreeSpeedModelAgent s parameters)
        as [sim [message | agentId]] eqn:Hcall
  end.
  - intros Heq. injection Heq as <- <-.
    split; [repeat split |]. split; [reflexivity |].
    exists sim, parameters. split; [reflexivity |]. left. exists message.
    split; [exact Hcall |]. split; [reflexivity |].
    cbn [trace emit setSimulation setAdapter]. rewrite <- app_assoc. reflexivity.
  - intros Heq. injection Heq as <- <-.
    split; [repeat split |]. split; [reflexivity |].
    exists sim, parameters. split; [reflexivity |]. right. exists agentId.
    split; [exact Hcall |]. split; reflexivity.
Qed.

Lemma randomLocationDeparture_spec fuel w person p0 w0 :
  randomLocationDeparture fuel w person = Returns (p0, w0) ->
  sameButEngine w w0 /\ simulation w0 = simulation w
  /\ exists es, trace w0 = trace w ++ es /\ Clean es.
Proof.
  unfold randomLocationDeparture.
  destruct (_ && _).
  - destruct (isTazConnector _).
    + destruct (polygons_get _ _) as [tazShape |].
      * destruct (sampleDeparturePosition _ _ _ _ _) as [[p r] |]; [| discriminate].
        intros Heq. injection Heq as <- <-.
        split; [repeat split |]. split; [reflexivity |].
        exists []. split; [cbn; rewrite app_nil_r; reflexivity | apply Clean_nil].
      * intros Heq. injection Heq as <- <-.
        split; [repeat split |]. split; [reflexivity |].
        eexists. split; [reflexivity |]. intros e [<- | []]. reflexivity.
    + intros Heq. injection Heq as <- <-.
      split; [apply sameButEngine_refl |]. split; [reflexivity |].
      exists []. split; [rewrite app_nil_r; reflexivity | apply Clean_nil].
  - intros Heq. injection Heq as <- <-.
    split; [apply sameButEngine_refl |]. split; [reflexivity |].
    exists []. split; [rewrite app_nil_r; reflexivity | apply Clean_nil].
Qed.

Lemma laneDeparturePosition_spec w lane stage p w' :
  laneDeparturePosition w lane stage = (p, w') ->
  sameButEngine w w' /\ simulation w' = simulation w /\ trace w' = trace w.
Proof.
  unfold laneDeparturePosition.
  destruct (if Reqb _ _ then _ else _) as [y r].
  intros Heq. injection Heq as <- <-. repeat split.
Qed.

(** The loop over the intermediate waypoints touches the simulation and the
    trace only; it ends without a failed call, or it fails and every failure
    is reported by a warning. *)
Lemma addIntermediateWaypoints_spec rest :
  forall prev w journey startingStage predecessor waypoints,
    match addIntermediateWaypoints prev rest w journey startingStage predecessor waypoints with
    | LoopFailed w' =>
        sameButEngine w w'
        /\ exists es, trace w' = trace w ++ es /\ Reported es /\ HasFailure es
    | LoopDone _ w' _ _ _ _ =>
        sameButEngine w w' /\ exists es, trace w' = trace w ++ es /\ Clean es
    | LoopUndefined => True
    end.
Proof.
  induction rest as [| next rest IH]; intros prev w journey startingStage predecessor waypoints;
    simpl.
  - split; [apply sameButEngine_refl |].
    exists []. split; [rewrite app_nil_r; reflexivity | apply Clean_nil].
  - destruct (negb (isWalkingOrTrip (getStageType next))).
    + split; [apply sameButEngine_refl |].
      exists []. split; [rewrite app_nil_r; reflexivity | apply Clean_nil].
    + destruct (getSidewalk _) as [lane |]; [| exact I].
      destruct (addWaypoint w journey predecessor _)
        as [[[b w1] journey1] predecessor1] eqn:Hadd.
      apply addWaypoint_spec in Hadd. destruct Hadd as (Hsame & es1 & Htrace & Hb).
      destruct b.
      * specialize (IH next w1 journey1
                      (if Nat.eqb startingStage 0 then predecessor1 else startingStage)
                      predecessor1 (waypoints ++ [positionAtOffset (getShape lane)
                         match getDestinationStop prev with
                         | Some accessPos => accessPos
                         | None => getArrivalPos prev
                         end 0])).
        destruct (addIntermediateWaypoints next rest w1 journey1 _ predecessor1 _)
          as [w2 | arrival w2 j2 s2 p2 wps2 |]; [| | exact I].
        -- destruct IH as (Hsame2 & es2 & Htrace2 & Hrep & e & message & Hin & Hf).
           split; [exact (sameButEngine_trans Hsame Hsame2) |].
           exists (es1 ++ es2). split; [rewrite Htrace2, Htrace, app_assoc; reflexivity |].
           split; [apply Reported_app; [apply Clean_Reported; exact Hb | exact Hrep] |].
           exists e, message. split; [apply in_or_app; right; exact Hin | exact Hf].
        -- destruct IH as (Hsame2 & es2 & Htrace2 & Hclean).
           split; [exact (sameButEngine_trans Hsame Hsame2) |].
           exists (es1 ++ es2). split; [rewrite Htrace2, Htrace, app_assoc; reflexivity |].
           apply Clean_app; assumption.
      * split; [exact Hsame |]. exists es1. destruct Hb as [Hrep Hfail].
        split; [exact Htrace |]. split; assumption.
Qed.

End JourneyBuilderFacts.

Section AddFacts.

Context {E : JPSEngine} {H : Host}.

Implicit Types w : World.

(** What a call of [add] that returns has done.  For a person that is
    tracked already it returns the tracked state and changes nothing.
    Otherwise it either returns the null pointer, after a failed call of the
    Journey Builder that a warning reports, with the tracked set and the
    counter as they were; or it returns a new state, appended to the tracked
    set, with the counter incremented by one, after one insertion attempt. *)
Lemma add_spec fuel person stage now w r w' :
  add fuel person stage now w = Returns (r, w') ->
  match findState person (tracked w) with
  | Some pstate => r = Some pstate /\ w' = w
  | None =>
      exists es,
      trace w' = trace w ++ es
      /\ match r with
         | None =>
             Reported es
             /\ (exists e message, In e es /\ journeyCallFailure e = Some message)
             /\ tracked w' = tracked w
             /\ getActiveNumber w' = getActiveNumber w
         | Some state =>
             Clean es
             /\ tracked w' = tracked w ++ [state]
             /\ getActiveNumber w' = (getActiveNumber w + 1)%Z
             /\ myPerson state = person
             /\ myWaypoints state <> []
             /\ exists sim0 sim parameters,
                 journeyId parameters = myJourneyId state
                 /\ ((exists message,
                         JPS_Simulation_AddCollisionFreeSpeedModelAgent sim0 parameters
                         = (sim, inl message)
                         /\ isWaitingToEnter state = true
                         /\ myAgentId state = 0%nat
                         /\ In (Call_JPS_Simulation_AddCollisionFreeSpeedModelAgent
                                  (myJourneyId state) (Some message)) es
                         /\ exists format id,
                             In (WRITE_WARNINGF format [ArgString id; ArgString message]) es)
                     \/ (exists agentId,
                            JPS_Simulation_AddCollisionFreeSpeedModelAgent sim0 parameters
                            = (sim, inr agentId)
                            /\ isWaitingToEnter state = false
                            /\ myAgentId state = agentId))
         end
  end.
Proof.
  unfold add. fold (tracked w).
  destruct (findState person (tracked w)) as [pstate |].
  { intros Heq. injection Heq as <- <-. split; reflexivity. }
  destruct (getRoute _) as [| front route]; [discriminate |].
  destruct (getSidewalk (getEdge _ front)) as [departureLane |]; [| discriminate].
  destruct (randomLocationDeparture fuel w (persons w person)) as [[p0 w0] | e | |] eqn:Hdep;
    try discriminate.
  apply randomLocationDeparture_spec in Hdep. destruct Hdep as (Hs0 & _ & es0 & Ht0 & Hc0).
  destruct (if Position_eqb p0 Position_INVALID then _ else _)
    as [departurePosition w1] eqn:Hlane.
  assert (Hw1 : sameButEngine w0 w1 /\ trace w1 = trace w0).
  { destruct (Position_eqb p0 Position_INVALID).
    - apply laneDeparturePosition_spec in Hlane. tauto.
    - injection Hlane as <- <-. split; [apply sameButEngine_refl | reflexivity]. }
  destruct Hw1 as [Hs1 Ht1].
  pose proof (sameButEngine_trans Hs0 Hs1) as Hs01.
  destruct (remainingStages _) as [| current rest]; [discriminate |].
  pose proof (addIntermediateWaypoints_spec rest current w1 JPS_JourneyDescription_Create
                0%nat 0%nat []) as Hloop.
  destruct (addIntermediateWaypoints current rest w1 _ _ _ _)
    as [w2 | arrivalStage w2 journey startingStage predecessor waypoints |]; [| | discriminate].
  - (* the loop failed *)
    destruct Hloop as (Hs2 & es2 & Ht2 & Hrep & e & message & Hin & Hf).
    intros Heq. injection Heq as <- <-.
    destruct (sameButEngine_trans Hs01 Hs2) as (_ & _ & _ & Htr & Hn & _).
    exists (es0 ++ es2). split; [rewrite Ht2, Ht1, Ht0, app_assoc; reflexivity |].
    split; [apply Reported_app; [apply Clean_Reported; exact Hc0 | exact Hrep] |].
    split; [exists e, message; split; [apply in_or_app; right; exact Hin | exact Hf] |].
    split; assumption.
  - destruct Hloop as (Hs2 & es2 & Ht2 & Hc2).
    pose proof (sameButEngine_trans Hs01 Hs2) as Hs02.
    destruct (getSidewalk _) as [arrivalLane |]; [| discriminate].
    destruct (addWaypoint w2 journey predecessor _)
      as [[[b w3] journey'] predecessor'] eqn:Hadd.
    apply addWaypoint_spec in Hadd. destruct Hadd as (Hs3 & es3 & Ht3 & Hb).
    pose proof (sameButEngine_trans Hs02 Hs3) as Hs03.
    destruct b.
    + destruct (JPS_Simulation_AddJourney _ journey') as [sim [message | jid]].
      * (* the journey was refused *)
        intros Heq. injection Heq as <- <-.
        destruct Hs03 as (_ & _ & _ & Htr & Hn & _).
        exists (es0 ++ es2 ++ es3
                ++ [Call_JPS_Simulation_AddJourney journey' (Some message);
                    WRITE_WARNINGF "Error while adding a journey for an agent: %"
                      [ArgString message];
                    JPS_ErrorMessage_Free]).
        split.
        { cbn [trace emit setSimulation setAdapter]. rewrite Ht3, Ht2, Ht1, Ht0.
          repeat rewrite <- app_assoc. reflexivity. }
        split.
        { apply Reported_app; [apply Clean_Reported; exact Hc0 |].
          apply Reported_app; [apply Clean_Reported; exact Hc2 |].
          apply Reported_app; [apply Clean_Reported; exact Hb |].
          intros e m Hin Hf. exists "Error while adding a journey for an agent: %".
          cbn in Hin. destruct Hin as [<- | [<- | [<- | []]]]; cbn in Hf; try discriminate.
          injection Hf as <-. right. left. reflexivity. }
        split.
        { exists (Call_JPS_Simulation_AddJourney journey' (Some message)), message.
          split; [| reflexivity].
          apply in_or_app. right. apply in_or_app. right. apply in_or_app. right.
          left. reflexivity. }
        split; assumption.
      * (* the state is created and inserted *)
        destruct (tryPedestrianInsertion _ _) as [state w6] eqn:Htry.
        apply tryPedestrianInsertion_spec in Htry.
        destruct Htry as (Hs6 & _ & sim6 & parameters & Hj & Hcases).
        intros Heq. injection Heq as <- <-.
        destruct Hs03 as (_ & _ & _ & Htr & Hn & _).
        destruct Hs6 as (_ & _ & _ & Htr6 & Hn6 & _).
        assert (Hstate : myPerson state = person /\ myWaypoints state <> []
                         /\ myJourneyId state = jid).
        { destruct Hcases as [(message & _ & -> & _) | (agentId & _ & -> & _)]; cbn;
            (split; [reflexivity |]); (split; [| reflexivity]);
            intros Hnil; apply app_eq_nil in Hnil; destruct Hnil as [_ Hnil]; discriminate. }
        destruct Hstate as (Hperson & Hwps & Hjid).
        destruct Hcases as [(message & Hcall & Hst & Ht6) | (agentId & Hcall & Hst & Ht6)].
        -- eexists. split.
           { cbn [trace setPedestrianStates setAdapter]. rewrite Ht6.
             cbn [trace emit setSimulation setAdapter setNumActivePedestrians].
             rewrite Ht3, Ht2, Ht1, Ht0. repeat rewrite <- app_assoc. reflexivity. }
           split.
           { apply Clean_app; [exact Hc0 |]. apply Clean_app; [exact Hc2 |].
             apply Clean_app; [exact Hb |].
             intros e Hin. cbn in Hin.
             destruct Hin as [<- | [<- | [<- | [<- | []]]]]; reflexivity. }
           split.
           { cbn [tracked adapter setPedestrianStates setAdapter myPedestrianStates].
             fold (tracked w6). rewrite Htr6.
             cbn [tracked adapter setNumActivePedestrians setAdapter myPedestrianStates emit
                    setSimulation].
             fold (tracked w3). rewrite Htr. reflexivity. }
           split.
           { cbn [getActiveNumber adapter setPedestrianStates setAdapter myNumActivePedestrians].
             fold (getActiveNumber w6). rewrite Hn6.
             cbn [getActiveNumber adapter setNumActivePedestrians setAdapter
                    myNumActivePedestrians emit setSimulation].
             fold (getActiveNumber w3). rewrite Hn. reflexivity. }
           split; [exact Hperson |]. split; [exact Hwps |].
           eexists. exists sim6, parameters. split; [rewrite Hjid; exact Hj |]. left. exists message.
           split; [exact Hcall |]. subst state.
           split; [reflexivity |]. split; [reflexivity |]. split.
           ++ apply in_or_app. right. apply in_or_app. right. apply in_or_app. right.
              right. left. reflexivity.
           ++ eexists. eexists.
              apply in_or_app. right. apply in_or_app. right. apply in_or_app. right.
              right. right. left. reflexivity.
        -- eexists. split.
           { cbn [trace setPedestrianStates setAdapter]. rewrite Ht6.
             cbn [trace emit setSimulation setAdapter setNumActivePedestrians].
             rewrite Ht3, Ht2, Ht1, Ht0. repeat rewrite <- app_assoc. reflexivity. }
           split.
           { apply Clean_app; [exact Hc0 |]. apply Clean_app; [exact Hc2 |].
             apply Clean_app; [exact Hb |].
             intros e Hin. cbn in Hin.
             destruct Hin as [<- | [<- | []]]; reflexivity. }
           split.
           { cbn [tracked adapter setPedestrianStates setAdapter myPedestrianStates].
             fold (tracked w6). rewrite Htr6.
             cbn [tracked adapter setNumActivePedestrians setAdapter myPedestrianStates emit
                    setSimulation].
             fold (tracked w3). rewrite Htr. reflexivity. }
           split.
           { cbn [getActiveNumber adapter setPedestrianStates setAdapter myNumActivePedestrians].
             fold (getActiveNumber w6). rewrite Hn6.
             cbn [getActiveNumber adapter setNumActivePedestrians setAdapter
                    myNumActivePedestrians emit setSimulation].
             fold (getActiveNumber w3). rewrite Hn. reflexivity. }
           split; [exact Hperson |]. split; [exact Hwps |].
           eexists. exists sim6, parameters. split; [rewrite Hjid; exact Hj |]. right. exists agentId.
           split; [exact Hcall |]. subst state. split; reflexivity.
    + (* the last waypoint was refused *)
      destruct Hb as (Hrep & e & message & Hin & Hf).
      intros Heq. injection Heq as <- <-.
      destruct Hs03 as (_ & _ & _ & Htr & Hn & _).
      exists (es0 ++ es2 ++ es3).
      split; [rewrite Ht3, Ht2, Ht1, Ht0; repeat rewrite <- app_assoc; reflexivity |].
      split.
      { apply Reported_app; [apply Clean_Reported; exact Hc0 |].
        apply Reported_app; [apply Clean_Reported; exact Hc2 | exact Hrep]. }
      split.
      { exists e, message. split; [| exact Hf].
        apply in_or_app. right. apply in_or_app. right. exact Hin. }
      split; assumption.
Qed.

(** [add] leaves the network, the exit tolerance and the step lengths
    alone. *)
Lemma add_frame fuel person stage now w r w' :
  add fuel person stage now w = Returns (r, w') ->
  myNetwork (adapter w') = myNetwork (adapter w)
  /\ exitTolerance w' = exitTolerance w
  /\ myJPSDeltaT (adapter w') = myJPSDeltaT (adapter w)
  /\ DELTA_T w' = DELTA_T w.
Proof.
  unfold add. fold (tracked w).
  destruct (findState person (tracked w)) as [pstate |].
  { intros Heq. injection Heq as _ <-. repeat split. }
  destruct (getRoute _) as [| front route]; [discriminate |].
  destruct (getSidewalk _) as [departureLane |]; [| discriminate].
  destruct (randomLocationDeparture fuel w _) as [[p0 w0] | e | |] eqn:Hdep;
    try discriminate.
  apply randomLocationDeparture_spec in Hdep. destruct Hdep as (Hs0 & _).
  destruct (if Position_eqb p0 Position_INVALID then _ else _)
    as [departurePosition w1] eqn:Hlane.
  assert (Hs1 : sameButEngine w0 w1).
  { destruct (Position_eqb p0 Position_INVALID).
    - apply laneDeparturePosition_spec in Hlane. tauto.
    - injection Hlane as <- <-. apply sameButEngine_refl. }
  pose proof (sameButEngine_trans Hs0 Hs1) as Hs01.
  destruct (remainingStages _) as [| current rest]; [discriminate |].
  pose proof (addIntermediateWaypoints_spec rest current w1 JPS_JourneyDescription_Create
                0%nat 0%nat []) as Hloop.
  destruct (addIntermediateWaypoints current rest w1 _ _ _ _)
    as [w2 | arrivalStage w2 journey startingStage predecessor waypoints |]; [| | discriminate].
  - destruct Hloop as (Hs2 & _). intros Heq. injection Heq as _ <-.
    destruct (sameButEngine_trans Hs01 Hs2) as (Hn & Ht & Hd & _ & _ & _ & HD).
    repeat split; assumption.
  - destruct Hloop as (Hs2 & _).
    pose proof (sameButEngine_trans Hs01 Hs2) as Hs02.
    destruct (getSidewalk _) as [arrivalLane |]; [| discriminate].
    destruct (addWaypoint w2 journey predecessor _)
      as [[[b w3] journey'] predecessor'] eqn:Hadd.
    apply addWaypoint_spec in Hadd. destruct Hadd as (Hs3 & _).
    destruct (sameButEngine_trans Hs02 Hs3) as (Hn & Ht & Hd & _ & _ & _ & HD).
    destruct b.
    + destruct (JPS_Simulation_AddJourney _ journey') as [sim [message | jid]].
      * intros Heq. injection Heq as _ <-. unfold exitTolerance in *. cbn.
        repeat split; assumption.
      * destruct (tryPedestrianInsertion _ _) as [state w6] eqn:Htry.
        apply tryPedestrianInsertion_spec in Htry. destruct Htry as (Hs6 & _).
        intros Heq. injection Heq as _ <-.
        destruct Hs6 as (Hn6 & Ht6 & Hd6 & _ & _ & _ & HD6).
        unfold exitTolerance in *. cbn in *. repeat split; congruence.
    + intros Heq. injection Heq as _ <-. repeat split; assumption.
Qed.

End AddFacts.

(* ===================================================================== *)
(** ** Journey Builder: idempotence and failure *)
(* ===================================================================== *)

Section Lookup.

Lemma findState_some person states pstate :
  findState person states = Some pstate -> In pstate states /\ myPerson pstate = person.
Proof.
  unfold findState. intros Hfind. apply find_some in Hfind. destruct Hfind as [Hin Heq].
  apply Nat.eqb_eq in Heq. split; assumption.
Qed.

Lemma findState_unique states :
  NoDup (map myPerson states) ->
  forall pstate, In pstate states -> findState (myPerson pstate) states = Some pstate.
Proof.
  induction states as [| s states IH]; intros Hnd pstate Hin; [destruct Hin |].
  simpl in Hnd. inversion Hnd as [| x l Hnotin Hnd']; subst.
  unfold findState. simpl.
  destruct Hin as [-> | Hin].
  - rewrite Nat.eqb_refl. reflexivity.
  - destruct (Nat.eqb (myPerson s) (myPerson pstate)) eqn:Heq.
    + apply Nat.eqb_eq in Heq. exfalso. apply Hnotin. rewrite Heq.
      apply in_map. exact Hin.
    + apply IH; assumption.
Qed.

Lemma findState_last person states pstate :
  findState person states = None -> myPerson pstate = person ->
  findState person (states ++ [pstate]) = Some pstate.
Proof.
  intros Hnone Hperson. induction states as [| s states IH]; unfold findState in *; simpl in *.
  - rewrite Hperson, Nat.eqb_refl. reflexivity.
  - destruct (Nat.eqb (myPerson s) person); [discriminate |]. apply IH. exact Hnone.
Qed.

End Lookup.

(** C4: the insertion entry point is idempotent per pedestrian.  For a
    pedestrian that has a state in the tracked set (one state per
    pedestrian), [add] returns that state and leaves the whole world as it
    was: no state is constructed, no call of the engine is made, the counter
    is not incremented.  And when [add] has returned a state for a
    pedestrian, calling it again for that pedestrian returns the same state
    and changes nothing. *)
Theorem add_is_idempotent `{JPSEngine} `{Host} (fuel : nat) (stage : nat) (now : Z)
  (w : World) :
  (forall pstate,
      In pstate (tracked w) -> NoDup (map myPerson (tracked w)) ->
      add fuel (myPerson pstate) stage now w = Returns (Some pstate, w))
  /\
  (forall person state w1,
      add fuel person stage now w = Returns (Some state, w1) ->
      forall fuel' stage' now', add fuel' person stage' now' w1 = Returns (Some state, w1)).
Proof.
  split.
  - intros pstate Hin Hnd. unfold add. fold (tracked w).
    rewrite (@findState_unique (tracked w) Hnd pstate Hin). reflexivity.
  - intros person state w1 Hadd fuel' stage' now'.
    assert (Hfind : findState person (tracked w1) = Some state).
    { apply add_spec in Hadd.
      destruct (findState person (tracked w)) as [pstate |] eqn:Hf.
      - destruct Hadd as [Hr ->]. injection Hr as <-. exact Hf.
      - destruct Hadd as (es & _ & _ & Htracked & _ & Hperson & _).
        rewrite Htracked. apply findState_last; assumption. }
    unfold add. fold (tracked w1). rewrite Hfind. reflexivity.
Qed.

(** The theorem for a world that tracks the pedestrian of person 0. *)
Lemma add_is_idempotent_witness :
  add 0 0 1 0
    (exampleWorld (fun _ => None) (fun _ => None) (fun _ => mkJPSPoint 0 0) 1
       [insertedState 0 [mkPosition 20 0 0]] 1)
  = Returns (Some (insertedState 0 [mkPosition 20 0 0]),
             exampleWorld (fun _ => None) (fun _ => None) (fun _ => mkJPSPoint 0 0) 1
               [insertedState 0 [mkPosition 20 0 0]] 1).
Proof.
  apply (proj1 (@add_is_idempotent acceptingEngine exampleHost 0 1 0%Z
                  (exampleWorld (fun _ => None) (fun _ => None) (fun _ => mkJPSPoint 0 0) 1
                     [insertedState 0 [mkPosition 20 0 0]] 1))
           (insertedState 0 [mkPosition 20 0 0])).
  - left. reflexivity.
  - simpl. constructor; [intros [] | constructor].
Defined.

(** C5: when a waypoint, transition or journey-registration call of the
    engine fails during [add], the insertion is aborted: [add] returns the
    null pointer, a warning carrying the engine's message is logged, no state
    is added to the tracked set and the counter is not incremented. *)
Theorem failed_insertion_is_atomic `{JPSEngine} `{Host} (fuel : nat) (person : PersonId)
  (stage : nat) (now : Z) (w w' : World) (r : option PState) (es : Trace) (e : Event)
  (message : JPS_ErrorMessage) :
  add fuel person stage now w = Returns (r, w') ->
  trace w' = trace w ++ es ->
  In e es ->
  journeyCallFailure e = Some message ->
  r = None
  /\ tracked w' = tracked w
  /\ getActiveNumber w' = getActiveNumber w
  /\ exists format, In (WRITE_WARNINGF format [ArgString message]) es.
Proof.
  intros Hadd Htrace Hin Hfail. apply add_spec in Hadd.
  destruct (findState person (tracked w)) as [pstate |].
  - destruct Hadd as [_ ->].
    assert (Hnil : es = []).
    { apply (app_inv_head (trace w)). rewrite app_nil_r. symmetry. exact Htrace. }
    subst es. destruct Hin.
  - destruct Hadd as (es' & Htrace' & Hr).
    assert (Hes : es' = es).
    { apply (app_inv_head (trace w)). rewrite <- Htrace, <- Htrace'. reflexivity. }
    subst es'.
    destruct r as [state |].
    + destruct Hr as (Hclean & _). rewrite (Hclean e Hin) in Hfail. discriminate.
    + destruct Hr as (Hrep & _ & Htracked & Hcount).
      split; [reflexivity |]. split; [exact Htracked |]. split; [exact Hcount |].
      exact (Hrep e message Hin Hfail).
Qed.

(** [add] for person 0 with an engine that refuses every waypoint. *)
Lemma add_refusingWaypoints :
  add 0 0 1 0 refusingWaypoints
  = Returns (None,
             emit [WRITE_WARNINGF "Error while adding waypoint for an agent: %"
                     [ArgString "degenerate waypoint"];
                   JPS_ErrorMessage_Free]
               (emit [Call_JPS_Simulation_AddStageWaypoint (mkJPSPoint 20 0)
                        (Some "degenerate waypoint")]
                  refusingWaypoints)).
Proof.
  unfold add. cbn. rewrite Position_eqb_refl. cbn.
  unfold laneDeparturePosition. cbn.
  repeat match goal with |- context [Reqb ?a ?b] => destruct (Reqb a b) end; reflexivity.
Qed.

(** The theorem for that call. *)
Lemma failed_insertion_is_atomic_witness :
  @None PState = None
  /\ tracked (emit [WRITE_WARNINGF "Error while adding waypoint for an agent: %"
                      [ArgString "degenerate waypoint"];
                    JPS_ErrorMessage_Free]
                (emit [Call_JPS_Simulation_AddStageWaypoint (mkJPSPoint 20 0)
                         (Some "degenerate waypoint")]
                   refusingWaypoints))
     = tracked refusingWaypoints
  /\ getActiveNumber
       (emit [WRITE_WARNINGF "Error while adding waypoint for an agent: %"
                [ArgString "degenerate waypoint"];
              JPS_ErrorMessage_Free]
          (emit [Call_JPS_Simulation_AddStageWaypoint (mkJPSPoint 20 0)
                   (Some "degenerate waypoint")]
             refusingWaypoints))
     = getActiveNumber refusingWaypoints
  /\ exists format,
      In (WRITE_WARNINGF format [ArgString "degenerate waypoint"])
         [Call_JPS_Simulation_AddStageWaypoint (mkJPSPoint 20 0) (Some "degenerate waypoint");
          WRITE_WARNINGF "Error while adding waypoint for an agent: %"
            [ArgString "degenerate waypoint"];
          JPS_ErrorMessage_Free].
Proof.
  apply (@failed_insertion_is_atomic _ _ 0%nat 0%nat 1%nat 0%Z refusingWaypoints _ None _
           (Call_JPS_Simulation_AddStageWaypoint (mkJPSPoint 20 0) (Some "degenerate waypoint"))
           "degenerate waypoint" add_refusingWaypoints).
  - reflexivity.
  - left. reflexivity.
  - reflexivity.
Defined.

(* ===================================================================== *)
(** ** Removal and teardown *)
(* ===================================================================== *)

(** C10: [remove] is a no-op.  Whatever the state passed and whatever the
    world, the world after the call is the world before it: the tracked set,
    the counter, every tracked state, the engine's simulation and the trace
    (so no agent is marked for removal and nothing is released). *)
Theorem remove_is_noop `{JPSEngine} `{Host} (state : PState) (w : World) :
  remove state w = w
  /\ tracked (remove state w) = tracked w
  /\ getActiveNumber (remove state w) = getActiveNumber w
  /\ simulation (remove state w) = simulation w
  /\ trace (remove state w) = trace w
  /\ existsb isRemovalRequest (trace (remove state w)) = existsb isRemovalRequest (trace w)
  /\ existsb isJourneyRelease (trace (remove state w)) = existsb isJourneyRelease (trace w).
Proof.
  unfold remove. repeat split.
Qed.

(** C9, as amended: the destructor empties the tracked set and resets the
    counter without destroying any state, so that no journey description is
    released by the teardown (the adapter tracks its states through plain
    pointers and deletes none of them, here or anywhere else; a state releases
    its journey description when it is itself destroyed).  Then the
    simulation, the operational model, the model builder, the geometry and the
    geometry builder are released, in that order, each once, followed by the
    pedestrian network and the shutdown of the geometry library. *)
Theorem destructor_releases_no_journey `{JPSEngine} `{Host} (w : World) :
  trace (MSPModel_JuPedSim_destructor w)
  = trace w ++ destructorReleases (myGEOSPedestrianNetwork (adapter w))
  /\ tracked (MSPModel_JuPedSim_destructor w) = []
  /\ getActiveNumber (MSPModel_JuPedSim_destructor w) = 0%Z
  /\ existsb isJourneyRelease (destructorReleases (myGEOSPedestrianNetwork (adapter w))) = false
  /\ NoDup (destructorReleases (myGEOSPedestrianNetwork (adapter w)))
  /\ (forall state, PState_destructor state = [JPS_JourneyDescription_Free (myJourney state)]).
Proof.
  split; [reflexivity |]. split; [reflexivity |]. split; [reflexivity |].
  split; [reflexivity |]. split; [| reflexivity].
  unfold destructorReleases.
  repeat (constructor; [simpl; intuition discriminate |]). constructor.
Qed.

(** C9, as stated, fails: at the teardown of an adapter that tracks three
    pedestrians, each holding a journey description, no journey description
    is released. *)
Lemma destructor_three_pedestrians :
  List.length (tracked threePedestrians) = 3%nat
  /\ filter isJourneyRelease (trace (MSPModel_JuPedSim_destructor threePedestrians)) = []
  /\ ~ (forall state,
           In state (tracked threePedestrians) ->
           In (JPS_JourneyDescription_Free (myJourney state))
              (trace (MSPModel_JuPedSim_destructor threePedestrians))).
Proof.
  split; [reflexivity |]. split; [reflexivity |].
  intros Hall.
  specialize (Hall (insertedState 0 [mkPosition 20 0 0]) (or_introl eq_refl)).
  cbn in Hall. intuition discriminate.
Qed.

(* ===================================================================== *)
(** ** Step Synchronizer: one visit *)
(* ===================================================================== *)

Section HostFacts.

Lemma nth_list_set {A : Type} (l : list A) :
  forall i a d, (i < List.length l)%nat -> nth i (list_set i a l) d = a.
Proof.
  induction l as [| h t IH]; intros i a d Hi; simpl in Hi; [lia |].
  destruct i as [| j]; simpl; [reflexivity |]. apply IH. lia.
Qed.

(** The loop that drains the host-side edge transitions ends: every turn
    that does not arrive moves the stage one edge on along its route. *)
Lemma drainEdges_ends i :
  forall fuel p,
    (List.length (getRoute (nth i (myPlan p) MSStage_default))
     - S (myRouteStep (nth i (myPlan p) MSStage_default)) < fuel)%nat ->
    exists p', drainEdges fuel i p = Some p'.
Proof.
  induction fuel as [| fuel IH]; intros p Hfuel; [lia |].
  simpl. unfold moveToNextEdge.
  set (stage := nth i (myPlan p) MSStage_default) in *.
  destruct (S (myRouteStep stage) <? List.length (getRoute stage))%nat eqn:Hlt.
  - apply Nat.ltb_lt in Hlt.
    assert (Hi : (i < List.length (myPlan p))%nat).
    { destruct (Nat.lt_ge_cases i (List.length (myPlan p))) as [Hl | Hg]; [exact Hl |].
      exfalso. unfold stage in Hlt. rewrite (nth_overflow _ _ Hg) in Hlt. simpl in Hlt. lia. }
    apply IH. cbn [myPlan setPlan]. rewrite (nth_list_set _ _ _ Hi).
    cbn [getRoute myRouteStep setRouteStep]. lia.
  - eexists. reflexivity.
Qed.

Lemma drainEdges_terminates i p :
  exists p',
    drainEdges (S (List.length (getRoute (nth i (myPlan p) MSStage_default)))) i p = Some p'.
Proof. apply drainEdges_ends. lia. Qed.

End HostFacts.

Section VisitFacts.

Context {E : JPSEngine} {H : Host}.

Implicit Types w : World.

(** [updatePosition] rewrites the kinematics of the state and may advance the
    host stage; the waypoint queue, the identity of the state, the adapter
    and the trace are left alone. *)
Lemma updatePosition_spec time state w s1 w1 newPosition stageIndex :
  updatePosition time state w = (s1, w1, newPosition, stageIndex) ->
  myWaypoints s1 = myWaypoints state
  /\ myPerson s1 = myPerson state
  /\ myAgentId s1 = myAgentId state
  /\ myWaitingToEnter s1 = myWaitingToEnter state
  /\ adapter w1 = adapter w
  /\ trace w1 = trace w
  /\ newPosition = newPositionOf state w.
Proof.
  unfold updatePosition.
  destruct (moveToXYMap_matchingRoutePosition _ _ _ _) as [[candidateLane pos] |].
  - destruct (getSidewalk _) as [expectedLane |].
    + destruct (_ && _); intros Heq; injection Heq as <- <- <- <-; repeat split.
    + intros Heq; injection Heq as <- <- <- <-; repeat split.
  - intros Heq; injection Heq as <- <- <- <-; repeat split.
Qed.

Lemma visitInserted_spec time :
  forall fuel state w,
    (List.length (myWaypoints state) < fuel)%nat ->
    myWaypoints state <> [] ->
    exists kept w',
      visitInserted fuel time state w = Returns (kept, w') /\ visited state w kept w'.
Proof.
  induction fuel as [| fuel IH]; intros state w Hfuel Hne; [lia |].
  cbn [visitInserted].
  destruct (updatePosition time state w) as [[[s1 w1] newPosition] stageIndex] eqn:Hupd.
  apply updatePosition_spec in Hupd.
  destruct Hupd as (Hwps & Hperson & Hagent & Hwait & Hadapter & Htrace & Hnew).
  destruct (myWaypoints state) as [| nextWaypoint rest] eqn:Hqueue; [contradiction |].
  unfold getNextWaypoint. rewrite Hwps. cbn [hd_error].
  assert (Hnear : nearNextWaypoint state w
                  <-> distanceTo2D newPosition nextWaypoint < 2 * myExitTolerance (adapter w1)).
  { unfold nearNextWaypoint, exitTolerance. rewrite Hqueue, Hnew, Hadapter. reflexivity. }
  assert (Hcount1 : getActiveNumber w1 = getActiveNumber w)
    by (unfold getActiveNumber; rewrite Hadapter; reflexivity).
  assert (Hsim1 : simulation w1 = simulation w)
    by (unfold simulation; rewrite Hadapter; reflexivity).
  assert (Htracked1 : tracked w1 = tracked w)
    by (unfold tracked; rewrite Hadapter; reflexivity).
  destruct (Rltb (distanceTo2D newPosition nextWaypoint) (2 * myExitTolerance (adapter w1)))
    eqn:Hlt.
  - apply Rltb_true_iff in Hlt. apply Hnear in Hlt.
    destruct (drainEdges_terminates stageIndex (persons w1 (myPerson s1))) as [person' Hdrain].
    rewrite Hdrain.
    unfold advanceNextWaypoint. rewrite Hwps. cbn [tl].
    destruct rest as [| second rest'].
    + (* the last waypoint *)
      eexists. eexists. split; [reflexivity |].
      split; [exact Htracked1 |].
      split; [cbn; rewrite Htrace, Hagent; reflexivity |].
      split; [| exact Hlt].
      rewrite <- Hcount1. reflexivity.
    + (* a waypoint that is not the last: the state is visited again *)
      match goal with
      | |- context [visitInserted fuel time ?s2 ?w2] =>
          destruct (IH s2 w2) as (kept & w' & Hvisit & Htracked & Hkept);
          [cbn; simpl in Hfuel; lia | cbn; discriminate |]
      end.
      rewrite Hvisit. exists kept, w'. split; [reflexivity |].
      split; [rewrite Htracked; exact Htracked1 |].
      destruct kept as [state' |].
      * destruct Hkept as (Ht & Hn & Hsim & Hne' & Hp & Ha & Hw & popped & Hpop & _).
        split; [rewrite Ht; exact Htrace |].
        split; [rewrite Hn; exact Hcount1 |].
        split; [rewrite Hsim; exact Hsim1 |].
        split; [exact Hne' |].
        split; [rewrite Hp; exact Hperson |].
        split; [rewrite Ha; exact Hagent |].
        split; [rewrite Hw; exact Hwait |].
        exists (nextWaypoint :: popped).
        split; [rewrite Hqueue; cbn in Hpop; cbn; rewrite Hpop; reflexivity |].
        split; [discriminate | intros Hnot; contradiction].
      * destruct Hkept as (Ht & Hn & _).
        split; [rewrite Ht; cbn; rewrite Htrace, Hagent; reflexivity |].
        split; [rewrite Hn, <- Hcount1; reflexivity | exact Hlt].
  - apply Rltb_false_iff in Hlt.
    exists (Some s1), w1. split; [reflexivity |].
    split; [exact Htracked1 |].
    split; [exact Htrace |].
    split; [exact Hcount1 |].
    split; [exact Hsim1 |].
    split; [rewrite Hwps; discriminate |].
    split; [exact Hperson |]. split; [exact Hagent |]. split; [exact Hwait |].
    exists []. split; [rewrite Hwps, Hqueue; reflexivity |].
    split; [intros _ Hn; apply Hnear in Hn; lra | reflexivity].
Qed.


End VisitFacts.

(* ===================================================================== *)
(** ** Step Synchronizer: one host step *)
(* ===================================================================== *)

Section StepFacts.

Context {E : JPSEngine} {H : Host}.

Implicit Types w : World.

Lemma refusedInsertions_app j es1 es2 :
  refusedInsertions j (es1 ++ es2) = refusedInsertions j es1 ++ refusedInsertions j es2.
Proof. apply filter_app. Qed.

(** One element of the tracked set, whether it waits to enter or is
    inserted: the state is kept with a pending waypoint and without any
    effect on the counter, or it is erased, with the counter decremented and
    the removal of its agent requested.  A waiting state that the engine
    refuses is kept as it is, after one refused attempt. *)
Lemma visitState_spec time state w :
  myWaypoints state <> [] ->
  exists kept w' es,
    visitState time state w = Returns (kept, w')
    /\ trace w' = trace w ++ es
    /\ tracked w' = tracked w
    /\ match kept with
       | Some state' =>
           getActiveNumber w' = getActiveNumber w
           /\ filter isRemovalRequest es = []
           /\ myWaypoints state' <> []
           /\ myPerson state' = myPerson state
       | None =>
           getActiveNumber w' = (getActiveNumber w - 1)%Z
           /\ filter isRemovalRequest es
              = [Call_JPS_Simulation_MarkAgentForRemoval (myAgentId state)]
           /\ isWaitingToEnter state = false
       end
    /\ (isWaitingToEnter state = true -> Rejects (myJourneyId state) ->
        kept = Some state
        /\ (1 <= List.length (refusedInsertions (myJourneyId state) es))%nat).
Proof.
  intros Hne. unfold visitState.
  destruct (isWaitingToEnter state) eqn:Hwaiting.
  - destruct (tryPedestrianInsertion state w) as [state' w'] eqn:Htry.
    apply tryPedestrianInsertion_spec in Htry.
    destruct Htry as (Hsame & _ & sim & parameters & Hj & Hcases).
    destruct Hsame as (_ & _ & _ & Htracked & Hcount & _).
    destruct Hcases as [(message & Hcall & -> & Htrace) | (agentId & Hcall & -> & Htrace)].
    + eexists. exists w'. eexists. split; [reflexivity |]. split; [exact Htrace |].
      split; [exact Htracked |]. split.
      * split; [exact Hcount |]. split; [reflexivity |]. split; [exact Hne | reflexivity].
      * intros _ _. split; [reflexivity |]. cbn. rewrite Nat.eqb_refl. cbn. lia.
    + eexists. exists w'. eexists. split; [reflexivity |]. split; [exact Htrace |].
      split; [exact Htracked |]. split.
      * split; [exact Hcount |]. split; [reflexivity |]. split; [exact Hne | reflexivity].
      * intros _ Hrej. destruct (Hrej (simulation w) parameters Hj) as (sim' & message & Hrefused).
        rewrite Hrefused in Hcall. discriminate.
  - destruct (@visitInserted_spec E H time (S (List.length (myWaypoints state))) state w)
      as (kept & w' & Hvisit & Htracked & Hkept); [lia | exact Hne |].
    rewrite Hvisit. exists kept, w'.
    destruct kept as [state' |].
    + destruct Hkept as (Htrace & Hcount & _ & Hne' & Hperson & _).
      exists []. split; [reflexivity |]. split; [rewrite app_nil_r; exact Htrace |].
      split; [exact Htracked |]. split; [| discriminate].
      split; [exact Hcount |]. split; [reflexivity |]. split; assumption.
    + destruct Hkept as (Htrace & Hcount & _).
      eexists. split; [reflexivity |]. split; [exact Htrace |].
      split; [exact Htracked |]. split; [| discriminate].
      split; [exact Hcount |]. split; reflexivity.
Qed.

(** The loop over the tracked set. *)
Lemma updateStates_spec time :
  forall states w,
    (forall state, In state states -> myWaypoints state <> []) ->
    exists states' w' es,
      updateStates time states w = Returns (states', w')
      /\ trace w' = trace w ++ es
      /\ tracked w' = tracked w
      /\ (forall state, In state states' -> myWaypoints state <> [])
      /\ (List.length states' <= List.length states)%nat
      /\ getActiveNumber w'
         = (getActiveNumber w - Z.of_nat (List.length states - List.length states'))%Z
      /\ List.length (filter isRemovalRequest es)
         = (List.length states - List.length states')%nat
      /\ (forall state,
             In state states -> isWaitingToEnter state = true ->
             Rejects (myJourneyId state) ->
             In state states'
             /\ (1 <= List.length (refusedInsertions (myJourneyId state) es))%nat).
Proof.
  induction states as [| state rest IH]; intros w Hne.
  - exists [], w, []. cbn. rewrite app_nil_r.
    repeat split; try reflexivity; try lia; try (intros s []); try contradiction.
  - cbn [updateStates].
    destruct (visitState_spec time state w (Hne state (or_introl eq_refl)))
      as (kept & w1 & es1 & Hvisit & Htrace1 & Htracked1 & Hkept & Hrej1).
    rewrite Hvisit.
    destruct (IH w1 (fun s Hs => Hne s (or_intror Hs)))
      as (rest' & w2 & es2 & Hloop & Htrace2 & Htracked2 & Hne2 & Hlen & Hcount & Hreq & Hrej2).
    rewrite Hloop.
    eexists. exists w2, (es1 ++ es2). split; [reflexivity |].
    split; [rewrite Htrace2, Htrace1, app_assoc; reflexivity |].
    split; [rewrite Htracked2; exact Htracked1 |].
    assert (Hrefused : forall s,
               In s (state :: rest) -> isWaitingToEnter s = true -> Rejects (myJourneyId s) ->
               In s (match kept with Some s' => s' :: rest' | None => rest' end)
               /\ (1 <= List.length (refusedInsertions (myJourneyId s) (es1 ++ es2)))%nat).
    { intros s [<- | Hin] Hw Hr; rewrite refusedInsertions_app, length_app.
      - destruct (Hrej1 Hw Hr) as [-> Hone]. split; [left; reflexivity | lia].
      - destruct (Hrej2 s Hin Hw Hr) as [Hin' Hone].
        split; [destruct kept; [right |]; exact Hin' | lia]. }
    destruct kept as [state' |].
    + destruct Hkept as (Hc1 & Hf1 & Hne1 & _).
      split; [intros s [<- | Hs]; [exact Hne1 | apply Hne2; exact Hs] |].
      split; [cbn; lia |].
      split; [rewrite Hcount, Hc1; cbn [List.length]; f_equal; f_equal; lia |].
      split; [rewrite filter_app, length_app, Hf1, Hreq; cbn [List.length]; lia |].
      exact Hrefused.
    + destruct Hkept as (Hc1 & Hf1 & _).
      split; [exact Hne2 |].
      split; [cbn; lia |].
      split; [rewrite Hcount, Hc1; cbn [List.length]; lia |].
      split; [rewrite filter_app, length_app, Hf1, Hreq; cbn [List.length]; lia |].
      exact Hrefused.
Qed.

(** The sub-steps of the engine touch the simulation and the trace only, and
    request no removal. *)
Lemma iterate_spec :
  forall n i w,
    sameButEngine w (iterate n i w)
    /\ exists es, trace (iterate n i w) = trace w ++ es /\ filter isRemovalRequest es = [].
Proof.
  induction n as [| n IH]; intros i w; cbn [iterate].
  - split; [apply sameButEngine_refl |]. exists []. rewrite app_nil_r. split; reflexivity.
  - destruct (JPS_Simulation_Iterate (myJPSSimulation (adapter w))) as [sim failure].
    match goal with
    | |- context [iterate n ?j ?w1] => destruct (IH j w1) as (Hsame & es & Htrace & Hfilter)
    end.
    split.
    + eapply sameButEngine_trans; [| exact Hsame].
      eapply sameButEngine_trans; [apply sameButEngine_setSimulation | apply sameButEngine_emit].
    + eexists. split; [rewrite Htrace; cbn [trace emit setSimulation setAdapter];
                       rewrite <- app_assoc; reflexivity |].
      rewrite filter_app, Hfilter. destruct failure; reflexivity.
Qed.

(** The visits leave the step lengths and the exit tolerance alone. *)
Lemma visitInserted_frame time :
  forall fuel state w kept w',
    visitInserted fuel time state w = Returns (kept, w') ->
    myJPSDeltaT (adapter w') = myJPSDeltaT (adapter w)
    /\ exitTolerance w' = exitTolerance w
    /\ DELTA_T w' = DELTA_T w.
Proof.
  induction fuel as [| fuel IH]; intros state w kept w' Hvisit; [discriminate |].
  cbn [visitInserted] in Hvisit.
  destruct (updatePosition time state w) as [[[s1 w1] newPosition] stageIndex] eqn:Hupd.
  assert (Hframe : adapter w1 = adapter w /\ DELTA_T w1 = DELTA_T w).
  { revert Hupd. unfold updatePosition.
    destruct (moveToXYMap_matchingRoutePosition _ _ _ _) as [[candidateLane pos] |].
    - destruct (getSidewalk _) as [expectedLane |].
      + destruct (_ && _); intros Heq; injection Heq as <- <- <- <-; split; reflexivity.
      + intros Heq; injection Heq as <- <- <- <-; split; reflexivity.
    - intros Heq; injection Heq as <- <- <- <-; split; reflexivity. }
  destruct Hframe as [Hadapter Hdelta].
  destruct (getNextWaypoint s1) as [nextWaypoint |]; [| discriminate].
  destruct (Rltb _ _).
  - destruct (drainEdges _ _ _) as [person' |]; [| discriminate].
    destruct (advanceNextWaypoint s1) as [s2 arrived]. destruct arrived.
    + injection Hvisit as <- <-. unfold exitTolerance. cbn. rewrite Hadapter, Hdelta.
      repeat split.
    + apply IH in Hvisit. unfold exitTolerance in *. cbn in Hvisit.
      rewrite Hadapter, Hdelta in Hvisit. exact Hvisit.
  - injection Hvisit as <- <-. unfold exitTolerance. rewrite Hadapter, Hdelta. repeat split.
Qed.

Lemma visitState_frame time state w kept w' :
  visitState time state w = Returns (kept, w') ->
  myJPSDeltaT (adapter w') = myJPSDeltaT (adapter w)
  /\ exitTolerance w' = exitTolerance w
  /\ DELTA_T w' = DELTA_T w.
Proof.
  unfold visitState. destruct (isWaitingToEnter state).
  - destruct (tryPedestrianInsertion state w) as [state' w1] eqn:Htry.
    intros Heq. injection Heq as _ <-.
    apply tryPedestrianInsertion_spec in Htry.
    destruct Htry as ((_ & Htol & Hstep & _ & _ & _ & Hdelta) & _).
    split; [exact Hstep |]. split; [exact Htol | exact Hdelta].
  - apply visitInserted_frame.
Qed.

Lemma updateStates_frame time :
  forall states w states' w',
    updateStates time states w = Returns (states', w') ->
    myJPSDeltaT (adapter w') = myJPSDeltaT (adapter w)
    /\ exitTolerance w' = exitTolerance w
    /\ DELTA_T w' = DELTA_T w.
Proof.
  induction states as [| state rest IH]; intros w states' w' Hloop.
  - cbn in Hloop. injection Hloop as _ <-. repeat split.
  - cbn [updateStates] in Hloop.
    destruct (visitState time state w) as [[kept w1] | e | |] eqn:Hvisit; try discriminate.
    destruct (updateStates time rest w1) as [[rest' w2] | e | |] eqn:Hrest; try discriminate.
    injection Hloop as _ <-.
    apply visitState_frame in Hvisit. apply IH in Hrest.
    destruct Hvisit as (H1 & H2 & H3). destruct Hrest as (H4 & H5 & H6).
    repeat split; congruence.
Qed.

(** A host step that returns was taken with a step length of the engine
    other than 0, and leaves the step lengths and the exit tolerance alone. *)
Lemma execute_frame time w delay w' :
  execute time w = Returns (delay, w') ->
  myJPSDeltaT (adapter w) <> 0%Z
  /\ myJPSDeltaT (adapter w') = myJPSDeltaT (adapter w)
  /\ exitTolerance w' = exitTolerance w
  /\ DELTA_T w' = DELTA_T w.
Proof.
  unfold execute.
  destruct (Z.eqb (myJPSDeltaT (adapter w)) 0) eqn:Hzero; [discriminate |].
  apply Z.eqb_neq in Hzero. cbv zeta.
  set (n := Z.to_nat (toInt (Z.quot (DELTA_T w) (myJPSDeltaT (adapter w))))).
  destruct (iterate_spec n 0%Z w) as (Hsame & _).
  destruct Hsame as (_ & Htol & Hstep & _ & _ & _ & Hdelta).
  destruct (updateStates time _ _) as [[states w2] | e | |] eqn:Hloop; try discriminate.
  intros Heq. injection Heq as _ <-.
  apply updateStates_frame in Hloop. destruct Hloop as (H1 & H2 & H3).
  split; [exact Hzero |]. unfold exitTolerance in *. cbn.
  repeat split; congruence.
Qed.

(** One host step, from a world in which every tracked state has a pending
    waypoint: [execute] returns the host's step length, every state that is
    still tracked has a pending waypoint, and the number of states erased is
    the amount by which the counter went down and the number of removals
    requested from the engine. *)
Lemma execute_spec time w :
  queuesNonEmpty w ->
  myJPSDeltaT (adapter w) <> 0%Z ->
  exists w' es,
    execute time w = Returns (DELTA_T w, w')
    /\ trace w' = trace w ++ es
    /\ queuesNonEmpty w'
    /\ (List.length (tracked w') <= List.length (tracked w))%nat
    /\ getActiveNumber w'
       = (getActiveNumber w
          - Z.of_nat (List.length (tracked w) - List.length (tracked w')))%Z
    /\ List.length (filter isRemovalRequest es)
       = (List.length (tracked w) - List.length (tracked w'))%nat
    /\ (forall state,
           In state (tracked w) -> isWaitingToEnter state = true ->
           Rejects (myJourneyId state) ->
           In state (tracked w')
           /\ (1 <= List.length (refusedInsertions (myJourneyId state) es))%nat).
Proof.
  intros Hinv Hstep. unfold execute.
  rewrite (proj2 (Z.eqb_neq _ _) Hstep). cbv zeta.
  set (n := Z.to_nat (toInt (Z.quot (DELTA_T w) (myJPSDeltaT (adapter w))))).
  destruct (iterate_spec n 0%Z w) as (Hsame & es0 & Htrace0 & Hfilter0).
  destruct Hsame as (_ & _ & _ & Htracked0 & Hcount0 & _).
  set (w1 := iterate n 0%Z w) in *.
  fold (tracked w1). rewrite Htracked0.
  destruct (updateStates_spec time (tracked w) w1 Hinv)
    as (states' & w2 & es & Hloop & Htrace & Htracked & Hne & Hlen & Hcount & Hreq & Hrej).
  rewrite Hloop.
  eexists. exists (es0 ++ es ++ [JPS_ErrorMessage_Free]). split; [reflexivity |].
  split; [cbn [trace emit setPedestrianStates setAdapter]; rewrite Htrace, Htrace0;
          repeat rewrite <- app_assoc; reflexivity |].
  split; [exact Hne |].
  split; [exact Hlen |].
  split; [unfold getActiveNumber in *; cbn; rewrite Hcount, Hcount0; reflexivity |].
  split.
  - rewrite !filter_app, !length_app, Hfilter0, Hreq. cbn. lia.
  - intros state Hin Hw Hr. destruct (Hrej state Hin Hw Hr) as [Hin' Hone].
    split; [exact Hin' |]. rewrite !refusedInsertions_app, !length_app. lia.
Qed.

End StepFacts.

Section RunFacts.

Context {E : JPSEngine} {H : Host}.

Implicit Types w : World.

(** [add] keeps every tracked state with a pending waypoint. *)
Lemma add_queuesNonEmpty fuel person stage now w r w' :
  queuesNonEmpty w ->
  add fuel person stage now w = Returns (r, w') ->
  queuesNonEmpty w'.
Proof.
  intros Hinv Hadd. apply add_spec in Hadd.
  destruct (findState person (tracked w)) as [pstate |].
  - destruct Hadd as [_ ->]. exact Hinv.
  - destruct Hadd as (es & _ & Hr). destruct r as [state |].
    + destruct Hr as (_ & Htracked & _ & _ & Hne & _).
      intros s Hin. unfold queuesNonEmpty in Hinv. rewrite Htracked in Hin.
      apply in_app_or in Hin. destruct Hin as [Hin | [<- | []]]; [apply Hinv; exact Hin | exact Hne].
    + destruct Hr as (_ & _ & Htracked & _).
      intros s Hin. rewrite Htracked in Hin. apply Hinv. exact Hin.
Qed.

(** [n] host steps from a world in which every tracked state has a pending
    waypoint, for a step length of the engine other than 0. *)
Lemma run_spec :
  forall n time w,
    queuesNonEmpty w ->
    myJPSDeltaT (adapter w) <> 0%Z ->
    exists wn es,
      run n time w = Returns wn
      /\ trace wn = trace w ++ es
      /\ queuesNonEmpty wn
      /\ (List.length (tracked wn) <= List.length (tracked w))%nat
      /\ getActiveNumber wn
         = (getActiveNumber w
            - Z.of_nat (List.length (tracked w) - List.length (tracked wn)))%Z
      /\ List.length (filter isRemovalRequest es)
         = (List.length (tracked w) - List.length (tracked wn))%nat
      /\ (forall state,
             In state (tracked w) -> isWaitingToEnter state = true ->
             Rejects (myJourneyId state) ->
             In state (tracked wn)
             /\ (n <= List.length (refusedInsertions (myJourneyId state) es))%nat).
Proof.
  induction n as [| n IH]; intros time w Hinv Hstep; cbn [run].
  - exists w, []. rewrite app_nil_r, Nat.sub_diag. cbn. rewrite Z.sub_0_r.
    repeat split; try reflexivity; try assumption; lia.
  - destruct (execute_spec time Hinv Hstep)
      as (w1 & es1 & Hexec & Htrace1 & Hinv1 & Hlen1 & Hcount1 & Hreq1 & Hrej1).
    rewrite Hexec.
    assert (Hstep1 : myJPSDeltaT (adapter w1) <> 0%Z).
    { destruct (execute_frame _ _ Hexec) as (_ & Heq & _). rewrite Heq. exact Hstep. }
    destruct (IH (time + DELTA_T w)%Z w1 Hinv1 Hstep1)
      as (wn & es2 & Hrun & Htrace2 & Hinvn & Hlen2 & Hcount2 & Hreq2 & Hrej2).
    exists wn, (es1 ++ es2). split; [exact Hrun |].
    split; [rewrite Htrace2, Htrace1, app_assoc; reflexivity |].
    split; [exact Hinvn |].
    split; [lia |].
    split; [rewrite Hcount2, Hcount1; lia |].
    split; [rewrite filter_app, length_app, Hreq1, Hreq2; lia |].
    intros state Hin Hw Hr.
    destruct (Hrej1 state Hin Hw Hr) as [Hin1 Hone].
    destruct (Hrej2 state Hin1 Hw Hr) as [Hinn Hn].
    split; [exact Hinn |]. rewrite refusedInsertions_app, length_app. lia.
Qed.

End RunFacts.

(* ===================================================================== *)
(** ** Step Synchronizer: the claims *)
(* ===================================================================== *)


(** Distances and comparisons of the examples. *)
Lemma unit_distance_x :
  distanceTo2D (mkPosition 0 0 0) (mkPosition 1 0 0) = 1.
Proof.
  unfold distanceTo2D. cbn.
  replace ((0 - 1) * (0 - 1) + (0 - 0) * (0 - 0)) with (1 * 1) by ring.
  apply sqrt_square. lra.
Qed.

Lemma unit_distance_y :
  distanceTo2D (mkPosition 0 0 0) (mkPosition 0 1 0) = 1.
Proof.
  unfold distanceTo2D. cbn.
  replace ((0 - 0) * (0 - 0) + (0 - 1) * (0 - 1)) with (1 * 1) by ring.
  apply sqrt_square. lra.
Qed.

Lemma one_within_twice_one : Rltb 1 (2 * 1) = true.
Proof. apply Rltb_true_iff. lra. Qed.








(** C6: when the engine refuses to insert the agent of a state, the state is
    left as it was (it still waits to enter and its agent id is still 0), a
    warning with the engine's message is logged, and neither the tracked set
    nor the counter changes; an agent id is stored only when the engine
    accepts, together with clearing the waiting-to-enter flag.
    - What [tryPedestrianInsertion] does is decided by the engine's answer to
      the one request it makes.
    - An engine that refuses every agent of the journey leaves the state as
      it was.
    - [add] appends the state it returns to the tracked set and increments
      the counter once, whether or not the first attempt succeeds.  When the
      engine refuses, the state waits to enter with agent id 0, and [n] host
      steps after the [add] (for a step length of the engine other than 0)
      keep it tracked as it was, with at least [n] more refused attempts
      logged, and the counter of before the [add] plus one, less the number
      of states erased meanwhile: the retries never increment it.
    - A step visits a state that waits to enter by retrying its insertion,
      and does nothing else with it (no position update).
    - The same over [n] steps from any world that tracks a waiting state the
      engine refuses. *)
Theorem rejected_insertion_is_retried `{JPSEngine} `{Host} :
  (forall state (w : World) state' w',
      tryPedestrianInsertion state w = (state', w') ->
      tracked w' = tracked w
      /\ getActiveNumber w' = getActiveNumber w
      /\ match
           snd (JPS_Simulation_AddCollisionFreeSpeedModelAgent (simulation w)
                  (mkAgentParameters (myJourneyId state) (myStageId state)
                     (mkJPSPoint (myX (getPosition state)) (myY (getPosition state)))
                     (agentRadius (persons w (myPerson state)))
                     (getMaxSpeed (persons w (myPerson state)))))
         with
         | inl message =>
             state' = state
             /\ trace w'
                = trace w
                  ++ [Call_JPS_Simulation_AddCollisionFreeSpeedModelAgent (myJourneyId state)
                        (Some message);
                      WRITE_WARNINGF "Error while adding person '%' as JuPedSim agent: %"
                        [ArgString (getID (persons w (myPerson state))); ArgString message];
                      JPS_ErrorMessage_Free]
         | inr agentId =>
             state' = setAgentId agentId state
             /\ isWaitingToEnter state' = false
             /\ myAgentId state' = agentId
             /\ trace w'
                = trace w
                  ++ [Call_JPS_Simulation_AddCollisionFreeSpeedModelAgent (myJourneyId state)
                        None]
         end)
  /\
  (forall state (w : World),
      Rejects (myJourneyId state) ->
      fst (tryPedestrianInsertion state w) = state)
  /\
  (forall fuel person stage now (w0 w1 : World) state,
      findState person (tracked w0) = None ->
      add fuel person stage now w0 = Returns (Some state, w1) ->
      getActiveNumber w1 = (getActiveNumber w0 + 1)%Z
      /\ tracked w1 = tracked w0 ++ [state]
      /\ (Rejects (myJourneyId state) ->
          isWaitingToEnter state = true
          /\ myAgentId state = 0%nat
          /\ forall n time,
               queuesNonEmpty w0 ->
               myJPSDeltaT (adapter w0) <> 0%Z ->
               exists wn es,
                 run n time w1 = Returns wn
                 /\ trace wn = trace w1 ++ es
                 /\ In state (tracked wn)
                 /\ (n <= List.length (refusedInsertions (myJourneyId state) es))%nat
                 /\ getActiveNumber wn
                    = (getActiveNumber w0 + 1
                       - Z.of_nat (List.length (tracked w1) - List.length (tracked wn)))%Z))
  /\
  (forall time state (w : World),
      isWaitingToEnter state = true ->
      visitState time state w
      = Returns (Some (fst (tryPedestrianInsertion state w)),
                 snd (tryPedestrianInsertion state w)))
  /\
  (forall n time state (w : World),
      queuesNonEmpty w ->
      myJPSDeltaT (adapter w) <> 0%Z ->
      In state (tracked w) ->
      isWaitingToEnter state = true ->
      Rejects (myJourneyId state) ->
      exists wn es,
        run n time w = Returns wn
        /\ trace wn = trace w ++ es
        /\ In state (tracked wn)
        /\ (n <= List.length (refusedInsertions (myJourneyId state) es))%nat
        /\ getActiveNumber wn
           = (getActiveNumber w
              - Z.of_nat (List.length (tracked w) - List.length (tracked wn)))%Z
        /\ (getActiveNumber wn <= getActiveNumber w)%Z).
Proof.
  split; [| split; [| split; [| split]]].
  - intros state w state' w'. unfold tryPedestrianInsertion, simulation.
    destruct (JPS_Simulation_AddCollisionFreeSpeedModelAgent _ _) as [sim [message | agentId]];
      cbn [snd failureOf]; intros Heq; injection Heq as <- <-.
    + split; [reflexivity |]. split; [reflexivity |]. split; [reflexivity |].
      cbn [trace emit setSimulation setAdapter]. rewrite <- app_assoc. reflexivity.
    + split; [reflexivity |]. split; [reflexivity |]. repeat split.
  - intros state w Hrej.
    destruct (tryPedestrianInsertion state w) as [state' w'] eqn:Htry.
    apply tryPedestrianInsertion_spec in Htry.
    destruct Htry as (_ & _ & sim & parameters & Hj & Hcases).
    destruct Hcases as [(message & _ & Hst & _) | (agentId & Hcall & _)].
    + exact Hst.
    + destruct (Hrej (simulation w) parameters Hj) as (sim' & message & Hrefused).
      rewrite Hrefused in Hcall. discriminate.
  - intros fuel person stage now w0 w1 state Hnone Hadd.
    pose proof (add_frame _ _ _ _ _ Hadd) as (_ & _ & Hstep01 & _).
    pose proof Hadd as Hspec.
    apply add_spec in Hspec. rewrite Hnone in Hspec.
    destruct Hspec as (es & _ & _ & Htracked & Hcount & _ & _ & sim0 & sim & parameters & Hj
                       & Hcases).
    split; [exact Hcount |]. split; [exact Htracked |].
    intros Hrej.
    destruct Hcases as [(message & _ & Hw & Ha & _) | (agentId & Hcall & _)].
    + split; [exact Hw |]. split; [exact Ha |].
      intros n time Hinv Hstep.
      assert (Hinv1 : queuesNonEmpty w1) by (eapply add_queuesNonEmpty; eassumption).
      assert (Hstep1 : myJPSDeltaT (adapter w1) <> 0%Z) by (rewrite Hstep01; exact Hstep).
      destruct (run_spec n time Hinv1 Hstep1)
        as (wn & esn & Hrun & Htrace & _ & Hlen & Hcountn & _ & Hrefused).
      assert (Hin : In state (tracked w1)).
      { rewrite Htracked. apply in_or_app. right. left. reflexivity. }
      destruct (Hrefused state Hin Hw Hrej) as [Hinn Hn].
      exists wn, esn. repeat (split; [assumption |]).
      rewrite Hcountn, Hcount. reflexivity.
    + destruct (Hrej sim0 parameters Hj) as (sim' & message & Hrefused).
      rewrite Hrefused in Hcall. discriminate.
  - intros time state w Hwaiting. unfold visitState. rewrite Hwaiting.
    destruct (tryPedestrianInsertion state w). reflexivity.
  - intros n time state w Hinv Hstep Hin Hwaiting Hrej.
    destruct (run_spec n time Hinv Hstep)
      as (wn & es & Hrun & Htrace & _ & Hlen & Hcount & _ & Hrefused).
    destruct (Hrefused state Hin Hwaiting Hrej) as [Hinn Hn].
    exists wn, es. repeat (split; [assumption |]). lia.
Qed.

(** [add] for person 0 with an engine that refuses every agent: the journey
    is registered and the state is created. *)
Lemma add_refusedAgent :
  exists state w1,
    add 0 0 1 0
      (exampleWorld (fun _ => None) (fun _ => Some "occupied") (fun _ => mkJPSPoint 0 0) 1 [] 0)
    = Returns (Some state, w1).
Proof.
  eexists. eexists. evaluate. rewrite Position_eqb_refl.
  rewrite (Reqb_false (a := 0) (b := 1000000)) by lra.
  rewrite (Reqb_false (a := 0) (b := -1000000)) by lra.
  reflexivity.
Qed.

(** The theorem for a pedestrian added to a world whose engine refuses every
    agent, followed by three host steps: the counter is 1 after the [add] and
    after the steps, and the state still waits, with agent id 0, after three
    more refusals. *)
Lemma rejected_insertion_is_retried_witness :
  exists state w1 wn es,
    add 0 0 1 0
      (exampleWorld (fun _ => None) (fun _ => Some "occupied") (fun _ => mkJPSPoint 0 0) 1 [] 0)
    = Returns (Some state, w1)
    /\ getActiveNumber w1 = 1%Z
    /\ tracked w1 = [state]
    /\ isWaitingToEnter state = true
    /\ myAgentId state = 0%nat
    /\ run 3 0 w1 = Returns wn
    /\ trace wn = trace w1 ++ es
    /\ In state (tracked wn)
    /\ (3 <= List.length (refusedInsertions (myJourneyId state) es))%nat
    /\ getActiveNumber wn
       = (0 + 1 - Z.of_nat (List.length (tracked w1) - List.length (tracked wn)))%Z.
Proof.
  destruct add_refusedAgent as (state & w1 & Hadd).
  destruct (proj1 (proj2 (proj2
              (@rejected_insertion_is_retried
                 (exampleEngine (fun _ => None) (fun _ => Some "occupied")
                    (fun _ => mkJPSPoint 0 0))
                 exampleHost))) 0%nat 0%nat 1%nat 0%Z
              (exampleWorld (fun _ => None) (fun _ => Some "occupied")
                 (fun _ => mkJPSPoint 0 0) 1 [] 0)
              w1 state eq_refl Hadd)
    as (Hcount & Htracked & Hrefused).
  destruct Hrefused as (Hwaiting & Hagent & Hrun).
  { intros sim parameters _. exists sim, "occupied". reflexivity. }
  destruct (Hrun 3%nat 0%Z) as (wn & es & Hrunn & Htrace & Hin & Hn & Hcountn).
  { intros s []. }
  { discriminate. }
  exists state, w1, wn, es.
  repeat (split; [assumption |]). exact Hcountn.
Defined.

(* ===================================================================== *)
(** ** One state per pedestrian *)
(* ===================================================================== *)

Section OneStatePerPerson.

Context {E : JPSEngine} {H : Host}.

Implicit Types w : World.

Lemma findState_none person states :
  findState person states = None -> ~ In person (map myPerson states).
Proof.
  unfold findState. intros Hnone Hin. apply in_map_iff in Hin.
  destruct Hin as (s & Hperson & Hin).
  apply (find_none _ _ Hnone) in Hin. rewrite Hperson, Nat.eqb_refl in Hin. discriminate.
Qed.

Lemma NoDup_snoc {A : Type} (l : list A) (a : A) :
  NoDup l -> ~ In a l -> NoDup (l ++ [a]).
Proof.
  induction l as [| h t IH]; intros Hnd Hnotin; cbn.
  - constructor; [intros [] | constructor].
  - inversion Hnd as [| x l Hh Ht]; subst. constructor.
    + intros Hin. apply in_app_or in Hin. destruct Hin as [Hin | [<- | []]].
      * apply Hh. exact Hin.
      * apply Hnotin. left. reflexivity.
    + apply IH; [exact Ht |]. intros Hin. apply Hnotin. right. exact Hin.
Qed.

Lemma add_personsDistinct fuel person stage now w r w' :
  personsDistinct w ->
  add fuel person stage now w = Returns (r, w') ->
  personsDistinct w'.
Proof.
  unfold personsDistinct. intros Hnd Hadd. apply add_spec in Hadd.
  destruct (findState person (tracked w)) as [pstate |] eqn:Hfind.
  - destruct Hadd as [_ ->]. exact Hnd.
  - destruct Hadd as (es & _ & Hr). destruct r as [state |].
    + destruct Hr as (_ & Htracked & _ & Hperson & _).
      rewrite Htracked, map_app. cbn [map].
      apply NoDup_snoc; [exact Hnd |].
      rewrite Hperson. apply findState_none. exact Hfind.
    + destruct Hr as (_ & _ & Htracked & _). rewrite Htracked. exact Hnd.
Qed.

(** The loop of [execute] keeps the persons of the states it keeps, in
    order. *)
Lemma updateStates_persons time :
  forall states w states' w',
    (forall state, In state states -> myWaypoints state <> []) ->
    updateStates time states w = Returns (states', w') ->
    (forall p, In p (map myPerson states') -> In p (map myPerson states))
    /\ (NoDup (map myPerson states) -> NoDup (map myPerson states')).
Proof.
  induction states as [| state rest IH]; intros w states' w' Hne Hloop.
  - cbn in Hloop. injection Hloop as <- <-. split; [intros p [] | intros _; constructor].
  - cbn [updateStates] in Hloop.
    destruct (visitState_spec time state w (Hne state (or_introl eq_refl)))
      as (kept & w1 & es1 & Hvisit & _ & _ & Hkept & _).
    rewrite Hvisit in Hloop.
    destruct (updateStates time rest w1) as [[rest' w2] | e | |] eqn:Hrest; try discriminate.
    destruct (IH w1 rest' w2 (fun s Hs => Hne s (or_intror Hs)) Hrest) as [Hsub Hnd].
    injection Hloop as <- <-.
    destruct kept as [state' |].
    + destruct Hkept as (_ & _ & _ & Hperson).
      cbn [map]. rewrite Hperson. split.
      * intros p [<- | Hin]; [left; reflexivity | right; apply Hsub; exact Hin].
      * intros Hnodup. inversion Hnodup as [| x l Hnotin Hnodup']; subst.
        constructor; [intros Hin; apply Hnotin; apply Hsub; exact Hin | apply Hnd; exact Hnodup'].
    + cbn [map]. split.
      * intros p Hin. right. apply Hsub. exact Hin.
      * intros Hnodup. inversion Hnodup as [| x l Hnotin Hnodup']; subst.
        apply Hnd. exact Hnodup'.
Qed.

Lemma execute_personsDistinct time w delay w' :
  queuesNonEmpty w ->
  personsDistinct w ->
  execute time w = Returns (delay, w') ->
  personsDistinct w'.
Proof.
  unfold personsDistinct, execute. intros Hinv Hnd.
  destruct (Z.eqb (myJPSDeltaT (adapter w)) 0); [discriminate |]. cbv zeta.
  set (n := Z.to_nat (toInt (Z.quot (DELTA_T w) (myJPSDeltaT (adapter w))))).
  destruct (iterate_spec n 0%Z w) as (Hsame & _).
  destruct Hsame as (_ & _ & _ & Htracked0 & _).
  set (w1 := iterate n 0%Z w) in *. fold (tracked w1). rewrite Htracked0.
  destruct (updateStates time (tracked w) w1) as [[states' w2] | e | |] eqn:Hloop;
    try discriminate.
  intros Heq. injection Heq as _ <-.
  destruct (updateStates_persons time (tracked w) w1 Hinv Hloop) as [_ Hkeep].
  apply Hkeep. exact Hnd.
Qed.

End OneStatePerPerson.

(** The tracked set never holds two states of one pedestrian: [add] appends
    a state only for a person that the lookup did not find, and a host step
    only erases states or updates them in place. *)
Theorem tracked_persons_stay_distinct `{JPSEngine} `{Host} :
  (forall fuel person stage now (w w' : World) r,
      personsDistinct w ->
      add fuel person stage now w = Returns (r, w') ->
      personsDistinct w')
  /\
  (forall time (w w' : World) delay,
      queuesNonEmpty w ->
      personsDistinct w ->
      execute time w = Returns (delay, w') ->
      personsDistinct w').
Proof.
  split.
  - intros fuel person stage now w w' r Hnd Hadd. eapply add_personsDistinct; eassumption.
  - intros time w w' delay Hinv Hnd Hexec. eapply execute_personsDistinct; eassumption.
Qed.

(** [add] for person 0 in a world that tracks person 1 already: the new
    state is appended. *)
Lemma add_second_person :
  exists state w',
    add 0 0 1 0
      (exampleWorld (fun _ => None) (fun _ => None) (fun _ => mkJPSPoint 0 0) 1
         [waitingState 1 [mkPosition 20 0 0]] 1)
    = Returns (Some state, w')
    /\ map myPerson (tracked w') = [1%nat; 0%nat].
Proof.
  eexists. eexists. split.
  - evaluate. rewrite Position_eqb_refl.
    rewrite (Reqb_false (a := 0) (b := 1000000)) by lra.
    rewrite (Reqb_false (a := 0) (b := -1000000)) by lra.
    reflexivity.
  - reflexivity.
Qed.

(** One host step of a world that tracks persons 0 and 1, in which person 0
    arrives. *)
Lemma execute_with_arrival :
  exists w',
    execute 0
      (exampleWorld (fun _ => None) (fun _ => None) (fun _ => mkJPSPoint 0 0) 1
         [insertedState 0 [mkPosition 1 0 0]; waitingState 1 [mkPosition 20 0 0]] 2)
    = Returns (1000%Z, w')
    /\ map myPerson (tracked w') = [1%nat].
Proof.
  eexists. split.
  - evaluate. rewrite unit_distance_x, one_within_twice_one. reflexivity.
  - reflexivity.
Qed.

(** The theorem for an [add] that appends the state of a second person, and
    for a host step in which one of two pedestrians arrives. *)
Lemma tracked_persons_stay_distinct_witness :
  (exists state w',
      add 0 0 1 0
        (exampleWorld (fun _ => None) (fun _ => None) (fun _ => mkJPSPoint 0 0) 1
           [waitingState 1 [mkPosition 20 0 0]] 1)
      = Returns (Some state, w')
      /\ map myPerson (tracked w') = [1%nat; 0%nat]
      /\ personsDistinct w')
  /\ (exists w',
         execute 0
           (exampleWorld (fun _ => None) (fun _ => None) (fun _ => mkJPSPoint 0 0) 1
              [insertedState 0 [mkPosition 1 0 0]; waitingState 1 [mkPosition 20 0 0]] 2)
         = Returns (1000%Z, w')
         /\ map myPerson (tracked w') = [1%nat]
         /\ personsDistinct w').
Proof.
  split.
  - destruct add_second_person as (state & w' & Hadd & Hpersons).
    exists state, w'. split; [exact Hadd |]. split; [exact Hpersons |].
    apply (proj1 (@tracked_persons_stay_distinct acceptingEngine exampleHost) 0%nat 0%nat 1%nat
             0%Z
             (exampleWorld (fun _ => None) (fun _ => None) (fun _ => mkJPSPoint 0 0) 1
                [waitingState 1 [mkPosition 20 0 0]] 1)
             w' (Some state)).
    + repeat constructor. intros [].
    + exact Hadd.
  - destruct execute_with_arrival as (w' & Hexec & Hpersons).
    exists w'. split; [exact Hexec |]. split; [exact Hpersons |].
    apply (proj2 (@tracked_persons_stay_distinct acceptingEngine exampleHost) 0%Z
             (exampleWorld (fun _ => None) (fun _ => None) (fun _ => mkJPSPoint 0 0) 1
                [insertedState 0 [mkPosition 1 0 0]; waitingState 1 [mkPosition 20 0 0]] 2)
             w' 1000%Z).
    + intros s [<- | [<- | []]]; discriminate.
    + repeat constructor; cbn; intuition discriminate.
    + exact Hexec.
Defined.

(* ===================================================================== *)
(** ** Concrete runs *)
(* ===================================================================== *)


(** One host step over two tracked states, with exit tolerance 1 and the
    engine reporting every agent at the origin.  The first state is inserted
    and both its waypoints are 1 away: the iterator is not advanced after the
    first waypoint is popped, so the state is visited again in the same step,
    the second waypoint is popped too, the state is erased and the removal of
    its agent requested.  The second state was waiting: it is inserted and
    stays tracked. *)
Example execute_two_near_waypoints :
  exists w',
    execute 0
      (exampleWorld (fun _ => None) (fun _ => None) (fun _ => mkJPSPoint 0 0) 1
         [insertedState 0 [mkPosition 1 0 0; mkPosition 0 1 0];
          waitingState 1 [mkPosition 20 0 0]] 2)
    = Returns (1000%Z, w')
    /\ tracked w' = [setAgentId 1 (waitingState 1 [mkPosition 20 0 0])]
    /\ getActiveNumber w' = 1%Z
    /\ filter isRemovalRequest (trace w') = [Call_JPS_Simulation_MarkAgentForRemoval 1].
Proof.
  eexists. split.
  - evaluate.
    rewrite unit_distance_x, one_within_twice_one, unit_distance_y, one_within_twice_one.
    reflexivity.
  - split; [reflexivity |]. split; reflexivity.
Qed.

(** [add] for a walking stage on an empty world whose engine accepts
    everything: the state is tracked and counted, it is inserted at once
    (the engine's third handle, after the waypoint and the journey), its
    queue holds the arrival position and it stands at the departure position
    of the lane. *)
Example add_accepted :
  exists state w',
    add 0 0 1 0 (exampleWorld (fun _ => None) (fun _ => None) (fun _ => mkJPSPoint 0 0) 1 [] 0)
    = Returns (Some state, w')
    /\ tracked w' = [state]
    /\ getActiveNumber w' = 1%Z
    /\ isWaitingToEnter state = false
    /\ myAgentId state = 3%nat
    /\ myWaypoints state = [mkPosition 20 0 0]
    /\ myPosition state = mkPosition 12 0 0.
Proof.
  eexists. eexists. split.
  - evaluate. rewrite Position_eqb_refl.
    rewrite (Reqb_false (a := 0) (b := 1000000)) by lra.
    rewrite (Reqb_false (a := 0) (b := -1000000)) by lra.
    reflexivity.
  - repeat split. unfold Position_set. cbn. f_equal. lra.
Qed.

(* ===================================================================== *)
(** ** Geometry Builder: rings, lookups and contributions *)
(* ===================================================================== *)

(** The first element of a list that passes a test. *)
Lemma find_first {A : Type} (f : A -> bool) (l : list A) :
  match find f l with
  | Some a =>
      exists before after,
        l = before ++ a :: after /\ f a = true /\ forall b, In b before -> f b = false
  | None => forall b, In b l -> f b = false
  end.
Proof.
  induction l as [| h t IH]; simpl.
  - intros b [].
  - destruct (f h) eqn:Hh.
    + exists [], t. split; [reflexivity |]. split; [exact Hh | intros b []].
    + destruct (find f t) as [a |].
      * destruct IH as (before & after & -> & Ha & Hb).
        exists (h :: before), after. split; [reflexivity |]. split; [exact Ha |].
        intros b [<- | Hin]; [exact Hh | apply Hb; exact Hin].
      * intros b [<- | Hin]; [exact Hh | apply IH; exact Hin].
Qed.

Lemma contains_In (v : list EdgeId) (e : EdgeId) : contains v e = true <-> In e v.
Proof.
  unfold contains. rewrite existsb_exists. split.
  - intros (x & Hin & Heq). apply Nat.eqb_eq in Heq. subst x. exact Hin.
  - intros Hin. exists e. split; [exact Hin | apply Nat.eqb_refl].
Qed.

Lemma closeShape_cases (front : Position) (rest : PositionVector) :
  (Position_eqb (last (front :: rest) Position_default) front = true
   /\ closeShape (front :: rest) = front :: rest)
  \/ (Position_eqb (last (front :: rest) Position_default) front = false
      /\ closeShape (front :: rest) = (front :: rest) ++ [front]).
Proof.
  unfold closeShape.
  destruct (Position_eqb (last (front :: rest) Position_default) front);
    [left | right]; split; reflexivity.
Qed.

Lemma closeShape_closed (shape : PositionVector) :
  shape <> [] ->
  Position_eqb (last (closeShape shape) Position_default)
    (hd Position_default (closeShape shape)) = true
  /\ closeShape (closeShape shape) = closeShape shape.
Proof.
  destruct shape as [| front rest]; [contradiction |]. intros _.
  destruct (closeShape_cases front rest) as [[Heq ->] | [Hne ->]].
  - split; [exact Heq |]. unfold closeShape. rewrite Heq. reflexivity.
  - assert (Hlast : last ((front :: rest) ++ [front]) Position_default = front)
      by apply last_last.
    split.
    + rewrite Hlast. apply Position_eqb_refl.
    + unfold closeShape. cbn [app]. cbn [app] in Hlast. rewrite Hlast, Position_eqb_refl.
      reflexivity.
Qed.

(** [createGeometryFromShape] for a shape that is not empty.  The ring of
    the polygon is the shape itself when the last point of the shape equals
    its first, and the shape with its first point appended otherwise; either
    way the ring is closed, and closing it again changes nothing.  The
    polygon of that ring is returned when it is simple, and the null pointer
    exactly when it is not. *)
Theorem shape_polygon_has_closed_ring `{GEOS} (shape : PositionVector) :
  shape <> [] ->
  let ring :=
    if Position_eqb (last shape Position_default) (hd Position_default shape)
    then shape
    else shape ++ [hd Position_default shape] in
  match createGeometryFromShape shape with
  | Some polygon =>
      polygon = GEOSGeom_createPolygon (GEOSGeom_createLinearRing ring)
      /\ GEOSisSimple polygon = true
  | None =>
      GEOSisSimple (GEOSGeom_createPolygon (GEOSGeom_createLinearRing ring)) = false
  end
  /\ Position_eqb (last ring Position_default) (hd Position_default ring) = true
  /\ closeShape ring = ring.
Proof.
  intros Hne ring.
  assert (Hring : closeShape shape = ring).
  { destruct shape as [| front rest]; [contradiction | reflexivity]. }
  destruct (closeShape_closed Hne) as [Hclosed Hidem]. rewrite Hring in Hclosed, Hidem.
  split; [| split; assumption].
  unfold createGeometryFromShape. rewrite Hring.
  destruct (GEOSisSimple _) eqn:Hsimple; [split; [reflexivity | exact Hsimple] | reflexivity].
Qed.

Lemma open_triangle :
  Position_eqb
    (last [mkPosition 0 0 0; mkPosition 1 0 0; mkPosition 0 1 0] Position_default)
    (hd Position_default [mkPosition 0 0 0; mkPosition 1 0 0; mkPosition 0 1 0])
  = false.
Proof.
  cbn [last hd]. unfold Position_eqb. cbn [myX myY myZ].
  rewrite (Reqb_false (a := 1) (b := 0)) by lra.
  rewrite andb_false_r. reflexivity.
Qed.

(** The theorem for an open triangle: its first point is appended. *)
Lemma shape_polygon_has_closed_ring_witness :
  @createGeometryFromShape simpleGEOS [mkPosition 0 0 0; mkPosition 1 0 0; mkPosition 0 1 0]
  = Some (GEOSGeom_createPolygon
            (GEOSGeom_createLinearRing
               [mkPosition 0 0 0; mkPosition 1 0 0; mkPosition 0 1 0; mkPosition 0 0 0]))
  /\ closeShape [mkPosition 0 0 0; mkPosition 1 0 0; mkPosition 0 1 0; mkPosition 0 0 0]
     = [mkPosition 0 0 0; mkPosition 1 0 0; mkPosition 0 1 0; mkPosition 0 0 0].
Proof.
  pose proof (@shape_polygon_has_closed_ring simpleGEOS
                [mkPosition 0 0 0; mkPosition 1 0 0; mkPosition 0 1 0]) as Hring.
  cbv zeta in Hring. rewrite open_triangle in Hring.
  destruct Hring as (Hpolygon & _ & Hidem); [discriminate |].
  split; [| exact Hidem].
  destruct (@createGeometryFromShape simpleGEOS
              [mkPosition 0 0 0; mkPosition 1 0 0; mkPosition 0 1 0]) as [polygon |].
  - destruct Hpolygon as [-> _]. reflexivity.
  - discriminate Hpolygon.
Defined.

Lemma pairGeometries_not_null (o : PairOutcome) : ~ In None (pairGeometries o).
Proof. destruct o; simpl; intuition discriminate. Qed.

Lemma edgeGeometries_not_null `{GEOS} (net : MSNet) (adjacent : list EdgeId) (edge : MSEdge) :
  ~ In None (edgeGeometries net adjacent edge).
Proof.
  unfold edgeGeometries.
  destruct (isWalkingArea edge); [intros [] |].
  destruct (getSidewalk edge) as [lane |]; [| intros []].
  intros [Hd | Hin]; [discriminate |].
  apply in_flat_map in Hin. destruct Hin as (nextEdge & _ & Hin).
  exact (pairGeometries_not_null _ Hin).
Qed.

(** The only null pointers that reach the collections handed to GEOS are
    results of [createGeometryFromShape] for additional polygons that are not
    simple: the loop over the junctions pushes no null pointer (it checks the
    one result of [createGeometryFromShape] it uses), while the loop over the
    shape container pushes the result unchecked, for the polygons of type
    "jupedsim.walkable_area" or "taz" into the walkable areas and for those of
    type "jupedsim.obstacle" into the obstacles. *)
Theorem null_geometry_only_from_additional_polygon `{GEOS} (net : MSNet) :
  (forall junction, ~ In None (junctionGeometries net junction))
  /\ (In None (walkableAreas net) <->
      exists id polygon,
        In (id, polygon) (getPolygons net)
        /\ (getShapeType polygon = "jupedsim.walkable_area" \/ getShapeType polygon = "taz")
        /\ createGeometryFromShape (polygonShape polygon) = None)
  /\ (In None (additionalObstacles net) <->
      exists id polygon,
        In (id, polygon) (getPolygons net)
        /\ getShapeType polygon = "jupedsim.obstacle"
        /\ createGeometryFromShape (polygonShape polygon) = None).
Proof.
  assert (Hj : forall junction, ~ In None (junctionGeometries net junction)).
  { intros junction Hin. unfold junctionGeometries in Hin. apply in_flat_map in Hin.
    destruct Hin as (e & _ & Hin). exact (edgeGeometries_not_null _ _ _ Hin). }
  split; [exact Hj |]. split.
  - unfold walkableAreas. rewrite in_app_iff. split.
    + intros [Hin | Hin].
      * apply in_flat_map in Hin. destruct Hin as (j & _ & Hin). destruct (Hj j Hin).
      * unfold additionalWalkableAreas in Hin. apply in_flat_map in Hin.
        destruct Hin as ([id polygon] & Hp & Hin). cbn [snd] in Hin.
        destruct (String.eqb (getShapeType polygon) "jupedsim.walkable_area"
                  || String.eqb (getShapeType polygon) "taz") eqn:Ht; [| destruct Hin].
        destruct Hin as [Hnull | []].
        exists id, polygon. split; [exact Hp |]. split; [| exact Hnull].
        apply orb_true_iff in Ht. destruct Ht as [Ht | Ht]; apply String.eqb_eq in Ht; tauto.
    + intros (id & polygon & Hp & Ht & Hnull). right.
      unfold additionalWalkableAreas. apply in_flat_map. exists (id, polygon).
      split; [exact Hp |]. cbn [snd].
      assert (Hc : String.eqb (getShapeType polygon) "jupedsim.walkable_area"
                   || String.eqb (getShapeType polygon) "taz" = true).
      { apply orb_true_iff.
        destruct Ht as [Ht | Ht]; [left | right]; apply String.eqb_eq; exact Ht. }
      rewrite Hc, Hnull. left. reflexivity.
  - unfold additionalObstacles. split.
    + intros Hin. apply in_flat_map in Hin.
      destruct Hin as ([id polygon] & Hp & Hin). cbn [snd] in Hin.
      destruct (String.eqb (getShapeType polygon) "jupedsim.walkable_area"
                || String.eqb (getShapeType polygon) "taz"); [destruct Hin |].
      destruct (String.eqb (getShapeType polygon) "jupedsim.obstacle") eqn:Ht; [| destruct Hin].
      destruct Hin as [Hnull | []].
      exists id, polygon.
      split; [exact Hp |]. split; [apply String.eqb_eq; exact Ht | exact Hnull].
    + intros (id & polygon & Hp & Ht & Hnull).
      apply in_flat_map. exists (id, polygon). split; [exact Hp |]. cbn [snd].
      rewrite Ht, Hnull. left. reflexivity.
Qed.

(** [getWalkingAreaInbetween] returns the first edge, among the predecessors
    of [edge] followed by its successors, that is a walking area with
    [otherEdge] among its own predecessors and successors; it returns the
    null pointer exactly when there is no such edge. *)
Theorem walking_area_inbetween_is_first_match (net : MSNet) (edge otherEdge : MSEdge) :
  match getWalkingAreaInbetween net edge otherEdge with
  | Some walkingArea =>
      exists before id after,
        getPredecessors edge ++ getSuccessors edge = before ++ id :: after
        /\ walkingArea = getEdge net id
        /\ joins net otherEdge id
        /\ forall id', In id' before -> ~ joins net otherEdge id'
  | None =>
      forall id, In id (getPredecessors edge ++ getSuccessors edge) -> ~ joins net otherEdge id
  end.
Proof.
  unfold getWalkingAreaInbetween.
  change (getAdjacentEdgesOfEdge edge) with (getPredecessors edge ++ getSuccessors edge).
  match goal with
  | |- context [find ?g ?l] => set (f := g); pose proof (find_first f l) as Hfind
  end.
  assert (Hf : forall id, f (getEdge net id) = true <-> joins net otherEdge id).
  { intros id. unfold f, joins. rewrite andb_true_iff, contains_In. reflexivity. }
  destruct (find f _) as [walkingArea |].
  - destruct Hfind as (before & after & Hsplit & Ha & Hb).
    apply map_eq_app in Hsplit. destruct Hsplit as (ids1 & ids2 & Hids & Hm1 & Hm2).
    apply map_eq_cons in Hm2. destruct Hm2 as (id & ids3 & -> & Hid & Hm3).
    exists ids1, id, ids3. split; [exact Hids |]. split; [symmetry; exact Hid |].
    split; [apply Hf; rewrite Hid; exact Ha |].
    intros id' Hin Hj. apply Hf in Hj.
    rewrite (Hb (getEdge net id')) in Hj; [discriminate |].
    rewrite <- Hm1. apply in_map. exact Hin.
  - intros id Hin Hj. apply Hf in Hj.
    rewrite (Hfind (getEdge net id)) in Hj; [discriminate |].
    apply in_map. exact Hin.
Qed.

Lemma pairGeometries_length (o : PairOutcome) : (List.length (pairGeometries o) <= 1)%nat.
Proof. destruct o; simpl; lia. Qed.

Lemma flat_map_length_le {A B : Type} (f : A -> list B) (l : list A) :
  (forall a, (List.length (f a) <= 1)%nat) ->
  (List.length (flat_map f l) <= List.length l)%nat.
Proof.
  intros Hf. induction l as [| h t IH]; simpl; [lia |].
  rewrite length_app. specialize (Hf h). lia.
Qed.

(** What one edge next to a junction contributes to the walkable areas: a
    walking-area edge and an edge without a sidewalk contribute nothing;
    any other edge contributes its sidewalk's centre line buffered by half
    the lane's width with round caps and joins, followed by at most one
    polygon for each edge next to the junction. *)
Theorem edge_contributes_its_dilated_lane `{GEOS} (net : MSNet) (adjacent : list EdgeId)
  (edge : MSEdge) :
  match getSidewalk edge with
  | Some lane =>
      if isWalkingArea edge then edgeGeometries net adjacent edge = []
      else
        exists connectors,
          edgeGeometries net adjacent edge
          = Some (GEOSBufferWithStyle (GEOSGeom_createLineString (getShape lane))
                    (getWidth lane / 2) 16 GEOSBUF_CAP_ROUND GEOSBUF_JOIN_ROUND 5)
            :: connectors
          /\ (List.length connectors <= List.length adjacent)%nat
  | None => edgeGeometries net adjacent edge = []
  end.
Proof.
  unfold edgeGeometries.
  destruct (getSidewalk edge) as [lane |]; [| destruct (isWalkingArea edge); reflexivity].
  destruct (isWalkingArea edge); [reflexivity |].
  eexists. split; [reflexivity |].
  apply flat_map_length_le. intros a. apply pairGeometries_length.
Qed.

Section PairCases.

Context {G : GEOS}.

Variable net : MSNet.
Variables edge nextEdge walkingArea : MSEdge.
Variables lane nextLane : MSLane.

Hypothesis Hdistinct : edgeID nextEdge <> edgeID edge.
Hypothesis Hinbetween : getWalkingAreaInbetween net edge nextEdge = Some walkingArea.
Hypothesis Hsidewalk : getSidewalk nextEdge = Some nextLane.




End PairCases.





(* ===================================================================== *)
(** ** Model Initializer: selection, polygons and failures *)
(* ===================================================================== *)

Section FirstLargest.

Context {G : GEOS}.

Variable network : GEOSGeometry.

(** The area of component [i]. *)
Let area (i : nat) : R := GEOSArea (GEOSGetGeometryN network i).

(** The selection loop over the components [s], ..., [s + n - 1]: the state
    is untouched, or it names the first of these components whose area beats
    the state the loop started from and is not exceeded later. *)
Lemma selectStep_seq :
  forall n s acc,
    let r := fold_left (selectStep network) (seq s n) acc in
    maxArea acc <= maxArea r
    /\ (forall j, (s <= j < s + n)%nat -> area j <= maxArea r)
    /\ (r = acc
        \/ exists k, (s <= k < s + n)%nat
                     /\ r = mkMaxArea (area k) (Some (GEOSGetGeometryN network k)) k
                     /\ maxArea acc < area k
                     /\ forall j, (s <= j < k)%nat -> area j < area k).
Proof.
  induction n as [| n IH]; intros s acc; cbn [seq fold_left].
  - cbv zeta. split; [lra |]. split; [intros j Hj; lia | left; reflexivity].
  - cbv zeta.
    assert (Hstep : maxArea acc <= maxArea (selectStep network acc s)
                    /\ area s <= maxArea (selectStep network acc s)
                    /\ (selectStep network acc s = acc
                        \/ selectStep network acc s
                           = mkMaxArea (area s) (Some (GEOSGetGeometryN network s)) s
                           /\ maxArea acc < area s)).
    { unfold selectStep. fold (area s).
      destruct (Rltb (maxArea acc) (area s)) eqn:Hlt; cbn [maxArea].
      - apply Rltb_true_iff in Hlt.
        split; [lra |]. split; [lra |]. right. split; [reflexivity | lra].
      - apply Rltb_false_iff in Hlt. split; [lra |]. split; [lra |]. left. reflexivity. }
    destruct Hstep as (Hacc & Hs & Hsel).
    destruct (IH (S s) (selectStep network acc s)) as (Hmono & Hbound & Hr).
    split; [lra |]. split.
    + intros j Hj. destruct (Nat.eq_dec j s) as [-> | Hne]; [lra | apply Hbound; lia].
    + destruct Hr as [Hr | (k & Hk & Hr & Hlt & Hfirst)].
      * rewrite Hr. destruct Hsel as [-> | [Hsel Hlt]]; [left; reflexivity |].
        right. exists s. split; [lia |]. split; [exact Hsel |]. split; [exact Hlt |].
        intros j Hj. lia.
      * right. exists k. split; [lia |]. split; [exact Hr |]. split; [lra |].
        intros j Hj. destruct (Nat.eq_dec j s) as [-> | Hne]; [lra | apply Hfirst; lia].
Qed.

End FirstLargest.

(** Whenever the selection loop of [initialize] selects a component, it is a
    component of positive area that no component exceeds, and the first such
    one: every component before it is strictly smaller, so that among
    components of equal largest area the one of lowest index is taken. *)
Theorem first_largest_component_is_selected `{GEOS} (network polygon : GEOSGeometry) :
  maxAreaConnectedComponentPolygon (selectMaxArea network) = Some polygon ->
  exists k,
    (k < GEOSGetNumGeometries network)%nat
    /\ polygon = GEOSGetGeometryN network k
    /\ maxAreaIndex (selectMaxArea network) = k
    /\ maxArea (selectMaxArea network) = GEOSArea polygon
    /\ 0 < GEOSArea polygon
    /\ (forall j, (j < k)%nat -> GEOSArea (GEOSGetGeometryN network j) < GEOSArea polygon)
    /\ (forall j, (j < GEOSGetNumGeometries network)%nat ->
                  GEOSArea (GEOSGetGeometryN network j) <= GEOSArea polygon).
Proof.
  intros Hsel.
  destruct (selectStep_seq network (GEOSGetNumGeometries network) 0 (mkMaxArea 0 None 0))
    as (_ & Hbound & Hr).
  fold (selectMaxArea network) in Hbound, Hr.
  destruct Hr as [Hr | (k & Hk & Hr & Hlt & Hfirst)].
  - rewrite Hr in Hsel. discriminate.
  - rewrite Hr in Hsel. cbn in Hsel. injection Hsel as <-.
    exists k. split; [lia |]. split; [reflexivity |].
    rewrite Hr in *. cbn [maxArea maxAreaIndex] in *.
    split; [reflexivity |]. split; [reflexivity |]. split; [exact Hlt |].
    split.
    + intros j Hj. apply Hfirst. lia.
    + intros j Hj. apply Hbound. lia.
Qed.

Lemma threeEqualParts_selection (g : GEOSGeometry) :
  maxAreaConnectedComponentPolygon (@selectMaxArea threeEqualPartsGEOS g)
  = Some (GEOSGetGeometryN g 0).
Proof.
  unfold selectMaxArea. cbn [GEOSGetNumGeometries threeEqualPartsGEOS exampleGEOS seq fold_left].
  unfold selectStep. cbn [GEOSArea threeEqualPartsGEOS exampleGEOS maxArea].
  assert (H01 : Rltb 0 1 = true) by (apply Rltb_true_iff; lra).
  assert (H11 : Rltb 1 1 = false) by (apply Rltb_false_iff; lra).
  rewrite H01. cbn [maxArea]. rewrite H11. cbn [maxArea]. rewrite H11. reflexivity.
Qed.

(** The theorem for three components of area 1 each: the first one is
    selected. *)
Lemma first_largest_component_is_selected_witness :
  exists k,
    (k < 3)%nat
    /\ GEOSGetGeometryN (GEOSGeom_createPointFromXY 0 0) 0
       = GEOSGetGeometryN (GEOSGeom_createPointFromXY 0 0) k
    /\ maxAreaIndex (@selectMaxArea threeEqualPartsGEOS (GEOSGeom_createPointFromXY 0 0)) = k
    /\ maxArea (@selectMaxArea threeEqualPartsGEOS (GEOSGeom_createPointFromXY 0 0)) = 1
    /\ 0 < 1
    /\ (forall j, (j < k)%nat -> 1 < 1)
    /\ (forall j, (j < 3)%nat -> 1 <= 1).
Proof.
  exact (@first_largest_component_is_selected threeEqualPartsGEOS
           (GEOSGeom_createPointFromXY 0 0) _
           (threeEqualParts_selection (GEOSGeom_createPointFromXY 0 0))).
Defined.

Lemma map_injective_Some {A : Type} (l l' : list A) :
  map Some l = map Some l' -> l = l'.
Proof.
  revert l'. induction l as [| a l IH]; intros [| a' l'] Heq; try discriminate;
    [reflexivity |].
  cbn in Heq. injection Heq as -> Heq. rewrite (IH _ Heq). reflexivity.
Qed.

Lemma removelast_map {A B : Type} (f : A -> B) (l : list A) :
  removelast (map f l) = map f (removelast l).
Proof.
  induction l as [| a l IH]; [reflexivity |].
  destruct l as [| b l]; [reflexivity |].
  cbn [map removelast] in *. rewrite IH. reflexivity.
Qed.

Section PolygonFacts.

Context {G : GEOS}.

(** The conversion is defined exactly for a geometry that has coordinates,
    and then gives the x and y of all of them but the last. *)
Lemma convertToJPSPoints_cases (geometry : GEOSGeometry) :
  match convertToJPSPoints geometry with
  | Some points =>
      getCoordinates geometry <> []
      /\ points
         = map (fun p => mkJPSPoint (myX p) (myY p)) (removelast (getCoordinates geometry))
  | None => getCoordinates geometry = []
  end.
Proof.
  unfold convertToJPSPoints, getCoordinates.
  destruct (GEOSGeom_getCoordSeq geometry) as [| first others]; [reflexivity |].
  split; [discriminate |].
  rewrite (removelast_map (fun c => mkPosition (myX c) (myY c) 0)), map_map. reflexivity.
Qed.

Lemma convertToJPSPoints_defined (geometry : GEOSGeometry) :
  getCoordinates geometry <> [] ->
  convertToJPSPoints geometry
  = Some (map (fun p => mkJPSPoint (myX p) (myY p)) (removelast (getCoordinates geometry))).
Proof.
  intros Hne. pose proof (convertToJPSPoints_cases geometry) as Hcases.
  destruct (convertToJPSPoints geometry) as [points |]; [| contradiction].
  destruct Hcases as [_ ->]. reflexivity.
Qed.

(** The loop over the holes, from a builder that is defined. *)
Lemma exclude_fold (rings : list GEOSGeometry) :
  forall b,
    (forall ring, In ring rings -> getCoordinates ring <> []) ->
    exists built,
      fold_left excludeHole rings (Some b) = Some built
      /\ accessibleAreas built = accessibleAreas b
      /\ map Some (excludedAreas built)
         = map Some (excludedAreas b) ++ map convertToJPSPoints rings.
Proof.
  induction rings as [| ring rings IH]; intros b Hne; cbn [fold_left map].
  - exists b. rewrite app_nil_r. repeat split.
  - unfold excludeHole at 2.
    rewrite (convertToJPSPoints_defined ring (Hne ring (or_introl eq_refl))).
    destruct (IH (JPS_GeometryBuilder_ExcludeFromAccessibleArea b
                    (map (fun p => mkJPSPoint (myX p) (myY p))
                       (removelast (getCoordinates ring))))
                 (fun r Hr => Hne r (or_intror Hr))) as (built & Hfold & Ha & He).
    exists built. split; [exact Hfold |]. split; [exact Ha |].
    rewrite He. cbn [excludedAreas JPS_GeometryBuilder_ExcludeFromAccessibleArea].
    rewrite map_app, <- app_assoc. reflexivity.
Qed.

(** The loop over the holes stays undefined once it is. *)
Lemma exclude_fold_undefined (rings : list GEOSGeometry) :
  fold_left excludeHole rings None = None.
Proof. induction rings as [| ring rings IH]; [reflexivity | exact IH]. Qed.

Lemma preparePolygonForJPS_areas (builder : JPS_GeometryBuilder) (polygon : GEOSGeometry) :
  getCoordinates (GEOSGetExteriorRing polygon) <> [] ->
  (forall ring, In ring (largeHoles polygon) -> getCoordinates ring <> []) ->
  exists built,
    preparePolygonForJPS builder polygon = Some built
    /\ map Some (accessibleAreas built)
       = map Some (accessibleAreas builder) ++ [convertToJPSPoints (GEOSGetExteriorRing polygon)]
    /\ map Some (excludedAreas built)
       = map Some (excludedAreas builder) ++ map convertToJPSPoints (largeHoles polygon).
Proof.
  intros Hexterior Hholes. unfold preparePolygonForJPS.
  rewrite (convertToJPSPoints_defined _ Hexterior).
  destruct (exclude_fold (largeHoles polygon)
              (JPS_GeometryBuilder_AddAccessibleArea builder
                 (map (fun p => mkJPSPoint (myX p) (myY p))
                    (removelast (getCoordinates (GEOSGetExteriorRing polygon)))))
              Hholes) as (built & Hfold & Ha & He).
  exists built. split; [exact Hfold |]. split.
  - rewrite Ha. cbn [accessibleAreas JPS_GeometryBuilder_AddAccessibleArea].
    rewrite map_app. reflexivity.
  - exact He.
Qed.

(** A builder that [preparePolygonForJPS] returns was built from rings that
    have coordinates. *)
Lemma preparePolygonForJPS_defined (builder built : JPS_GeometryBuilder)
  (polygon : GEOSGeometry) :
  preparePolygonForJPS builder polygon = Some built ->
  getCoordinates (GEOSGetExteriorRing polygon) <> []
  /\ forall ring, In ring (largeHoles polygon) -> getCoordinates ring <> [].
Proof.
  unfold preparePolygonForJPS.
  pose proof (convertToJPSPoints_cases (GEOSGetExteriorRing polygon)) as Hexterior.
  destruct (convertToJPSPoints (GEOSGetExteriorRing polygon)) as [exterior |];
    [| discriminate].
  destruct Hexterior as [Hne _]. intros Hfold. split; [exact Hne |].
  revert Hfold. generalize (JPS_GeometryBuilder_AddAccessibleArea builder exterior).
  induction (largeHoles polygon) as [| hole holes IH]; intros b Hfold ring Hin;
    [destruct Hin |].
  cbn [fold_left] in Hfold. unfold excludeHole at 2 in Hfold.
  pose proof (convertToJPSPoints_cases hole) as Hhole.
  destruct (convertToJPSPoints hole) as [points |].
  - destruct Hin as [<- | Hin]; [exact (proj1 Hhole) | exact (IH _ Hfold ring Hin)].
  - rewrite exclude_fold_undefined in Hfold. discriminate.
Qed.

Lemma largeHoles_In (polygon ring : GEOSGeometry) :
  In ring (largeHoles polygon) <->
  exists k, (Z.of_nat k < GEOSGetNumInteriorRings polygon)%Z
            /\ GEOSGetNumInteriorRings polygon <> (-1)%Z
            /\ ring = GEOSGetInteriorRingN polygon k
            /\ GEOS_MIN_AREA < getHoleArea ring.
Proof.
  unfold largeHoles.
  destruct (Z.eqb (GEOSGetNumInteriorRings polygon) (-1)) eqn:Hn.
  - apply Z.eqb_eq in Hn. split; [intros [] |]. intros (k & _ & Hne & _). contradiction.
  - apply Z.eqb_neq in Hn. rewrite filter_In, in_map_iff. split.
    + intros [(k & <- & Hk) Hlarge]. apply in_seq in Hk. apply Rltb_true_iff in Hlarge.
      exists k. split; [lia |]. split; [exact Hn |]. split; [reflexivity | exact Hlarge].
    + intros (k & Hk & _ & -> & Hlarge). split.
      * exists k. split; [reflexivity |]. apply in_seq. lia.
      * apply Rltb_true_iff. exact Hlarge.
Qed.

End PolygonFacts.

(** [preparePolygonForJPS] for a polygon whose number of interior rings is
    -1 (the error value) or more, whose exterior ring has coordinates and
    whose large holes have: the call is defined; the exterior ring is added
    as one accessible area after those the builder held, and the interior
    rings whose area exceeds 0.01 are excluded, in ring order, after what the
    builder excluded before.  A ring of area 0.01 or less is never
    excluded. *)
Theorem engine_geometry_of_polygon `{GEOS} (builder : JPS_GeometryBuilder)
  (polygon : GEOSGeometry) :
  (-1 <= GEOSGetNumInteriorRings polygon)%Z ->
  getCoordinates (GEOSGetExteriorRing polygon) <> [] ->
  (forall ring, In ring (largeHoles polygon) -> getCoordinates ring <> []) ->
  exists built,
    preparePolygonForJPS builder polygon = Some built
    /\ map Some (accessibleAreas built)
       = map Some (accessibleAreas builder) ++ [convertToJPSPoints (GEOSGetExteriorRing polygon)]
    /\ map Some (excludedAreas built)
       = map Some (excludedAreas builder) ++ map convertToJPSPoints (largeHoles polygon)
    /\ (forall ring,
           In ring (largeHoles polygon) <->
           exists k, (Z.of_nat k < GEOSGetNumInteriorRings polygon)%Z
                     /\ ring = GEOSGetInteriorRingN polygon k
                     /\ 1 / 100 < GEOSArea (GEOSGeom_createPolygon ring)).
Proof.
  intros Hn Hexterior Hholes.
  destruct (preparePolygonForJPS_areas builder polygon Hexterior Hholes)
    as (built & Hbuilt & Ha & He).
  exists built. split; [exact Hbuilt |]. split; [exact Ha |]. split; [exact He |].
  intros ring. rewrite largeHoles_In. unfold GEOS_MIN_AREA, getHoleArea. split.
  - intros (k & Hk & _ & Hr & Hl). exists k. repeat split; assumption.
  - intros (k & Hk & Hr & Hl). exists k. split; [exact Hk |]. split; [lia |]. split; assumption.
Qed.

Lemma holedGEOS_largeHoles (polygon : GEOSGeometry) :
  @largeHoles holedGEOS polygon = [GEOSGetInteriorRingN polygon 0].
Proof.
  unfold largeHoles. cbn [GEOSGetNumInteriorRings holedGEOS Z.eqb].
  change (Z.to_nat 2) with 2%nat. cbn [seq map filter].
  unfold getHoleArea, GEOS_MIN_AREA. cbn [GEOSArea holedGEOS].
  assert (H1 : Rltb (1 / 100) 1 = true) by (apply Rltb_true_iff; lra).
  assert (H2 : Rltb (1 / 100) (1 / 1000) = false) by (apply Rltb_false_iff; lra).
  rewrite H1, H2. reflexivity.
Qed.

(** The theorem for the square with a hole of area 1 and one of area
    1/1000: the square is added and only the first hole is excluded. *)
Lemma engine_geometry_of_polygon_witness :
  exists built,
    @preparePolygonForJPS holedGEOS JPS_GeometryBuilder_Create holedSquare
    = Some built
    /\ accessibleAreas built = [[mkJPSPoint 0 0; mkJPSPoint 4 0; mkJPSPoint 4 4]]
    /\ excludedAreas built = [[mkJPSPoint 1 1; mkJPSPoint 2 1; mkJPSPoint 2 2]].
Proof.
  destruct (@engine_geometry_of_polygon holedGEOS JPS_GeometryBuilder_Create
              holedSquare) as (built & Hbuilt & Ha & He & _).
  - simpl. lia.
  - discriminate.
  - intros ring Hin. rewrite holedGEOS_largeHoles in Hin. destruct Hin as [<- | []].
    discriminate.
  - exists built. split; [exact Hbuilt |].
    rewrite holedGEOS_largeHoles in He. cbn in Ha, He.
    destruct (accessibleAreas built) as [| area [| ? ?]]; try discriminate.
    destruct (excludedAreas built) as [| hole [| ? ?]]; try discriminate.
    injection Ha as ->. injection He as ->. split; reflexivity.
Defined.

(** The polygon shown and the geometry given to the engine agree, for a
    polygon whose rings have coordinates: the accessible area is the shape
    shown without its closing point; when the number of interior rings is -1
    nothing is shown and nothing is excluded (the accessible area is still
    added); otherwise one polygon is shown, with as many holes as areas are
    excluded, and the i-th excluded area is the i-th hole shown without its
    closing point. *)
Theorem drawn_polygon_has_the_engine_holes `{GEOS} (polygon : GEOSGeometry)
  (polygonId : string) :
  (-1 <= GEOSGetNumInteriorRings polygon)%Z ->
  getCoordinates (GEOSGetExteriorRing polygon) <> [] ->
  (forall ring, In ring (largeHoles polygon) -> getCoordinates ring <> []) ->
  exists builder,
    preparePolygonForJPS JPS_GeometryBuilder_Create polygon = Some builder
    /\ accessibleAreas builder
       = [map (fun p => mkJPSPoint (myX p) (myY p))
            (removelast (getCoordinates (GEOSGetExteriorRing polygon)))]
    /\ if Z.eqb (GEOSGetNumInteriorRings polygon) (-1) then
         preparePolygonForDrawing polygon polygonId = [] /\ excludedAreas builder = []
       else
         exists holes,
           preparePolygonForDrawing polygon polygonId
           = [addPolygon polygonId (getCoordinates (GEOSGetExteriorRing polygon)) holes]
           /\ List.length holes = List.length (excludedAreas builder)
           /\ forall i hole,
                nth_error holes i = Some hole ->
                nth_error (excludedAreas builder) i
                = Some (map (fun p => mkJPSPoint (myX p) (myY p)) (removelast hole)).
Proof.
  intros Hn Hexterior Hholes.
  destruct (preparePolygonForJPS_areas JPS_GeometryBuilder_Create polygon Hexterior Hholes)
    as (builder & Hbuilt & Ha & He).
  exists builder. split; [exact Hbuilt |].
  cbn [accessibleAreas excludedAreas JPS_GeometryBuilder_Create app map] in Ha, He.
  rewrite (convertToJPSPoints_defined _ Hexterior) in Ha.
  assert (Hexcluded : excludedAreas builder
                      = map (fun ring =>
                               map (fun p => mkJPSPoint (myX p) (myY p))
                                 (removelast (getCoordinates ring)))
                          (largeHoles polygon)).
  { apply (map_injective_Some). rewrite He, map_map. apply map_ext_in.
    intros ring Hin. apply convertToJPSPoints_defined. apply Hholes. exact Hin. }
  split.
  { destruct (accessibleAreas builder) as [| area [| ? ?]]; try discriminate.
    injection Ha as ->. reflexivity. }
  unfold preparePolygonForDrawing.
  destruct (Z.eqb (GEOSGetNumInteriorRings polygon) (-1)) eqn:Hm.
  - split; [reflexivity |]. rewrite Hexcluded. unfold largeHoles. rewrite Hm. reflexivity.
  - eexists. split; [reflexivity |]. split.
    + rewrite Hexcluded, !length_map. reflexivity.
    + intros i hole Hi. rewrite Hexcluded. rewrite nth_error_map in *.
      destruct (nth_error (largeHoles polygon) i) as [ring |]; [| discriminate].
      cbn in Hi. injection Hi as <-. reflexivity.
Qed.

(** The theorem for the square with two holes. *)
Lemma drawn_polygon_has_the_engine_holes_witness :
  exists builder,
    @preparePolygonForJPS holedGEOS JPS_GeometryBuilder_Create holedSquare
    = Some builder
    /\ accessibleAreas builder
       = [map (fun p => mkJPSPoint (myX p) (myY p))
            (removelast
               (@getCoordinates holedGEOS
                  (GEOSGetExteriorRing holedSquare)))]
    /\ exists holes,
         @preparePolygonForDrawing holedGEOS holedSquare
           "jupedsim.pedestrian_network.0"
         = [addPolygon "jupedsim.pedestrian_network.0"
              (@getCoordinates holedGEOS (GEOSGetExteriorRing holedSquare))
              holes]
         /\ List.length holes = List.length (excludedAreas builder)
         /\ forall i hole,
              nth_error holes i = Some hole ->
              nth_error (excludedAreas builder) i
              = Some (map (fun p => mkJPSPoint (myX p) (myY p)) (removelast hole)).
Proof.
  apply (@drawn_polygon_has_the_engine_holes holedGEOS holedSquare
           "jupedsim.pedestrian_network.0").
  - simpl. lia.
  - discriminate.
  - intros ring Hin. rewrite holedGEOS_largeHoles in Hin. destruct Hin as [<- | []].
    discriminate.
Defined.

Section InitializeTrace.

Context {G : GEOS} {E : JPSEngine}.

Lemma calls_of_buildPedestrianNetwork_trace net :
  filter isJPSCall (buildPedestrianNetwork_trace net) = [].
Proof. reflexivity. Qed.

Lemma calls_of_componentsWarning n : filter isJPSCall (componentsWarning n) = [].
Proof. unfold componentsWarning. destruct (1 <? n)%nat; reflexivity. Qed.

Lemma calls_of_preparePolygonForDrawing polygon id :
  filter isJPSCall (preparePolygonForDrawing polygon id) = [].
Proof. unfold preparePolygonForDrawing. destruct (Z.eqb _ _); reflexivity. Qed.

Lemma dumps_of_componentsWarning n : filter isDump (componentsWarning n) = [].
Proof. unfold componentsWarning. destruct (1 <? n)%nat; reflexivity. Qed.

Lemma dumps_of_preparePolygonForDrawing polygon id :
  filter isDump (preparePolygonForDrawing polygon id) = [].
Proof. unfold preparePolygonForDrawing. destruct (Z.eqb _ _); reflexivity. Qed.

Lemma calls_of_geometryEvents net network polygon :
  filter isJPSCall (geometryEvents net network polygon)
  = [Call_JPS_GeometryBuilder_Create; Call_JPS_GeometryBuilder_Build].
Proof.
  unfold geometryEvents. rewrite !filter_app. cbn [filter isJPSCall].
  rewrite calls_of_buildPedestrianNetwork_trace, calls_of_componentsWarning,
    calls_of_preparePolygonForDrawing.
  reflexivity.
Qed.

Lemma dumps_of_geometryEvents net network polygon :
  filter isDump (geometryEvents net network polygon)
  = filter isDump (buildPedestrianNetwork_trace net)
    ++ [dumpGeometry polygon "pedestrianNetwork.wkt"].
Proof.
  unfold geometryEvents. rewrite !filter_app. cbn [filter isDump].
  rewrite dumps_of_componentsWarning, dumps_of_preparePolygonForDrawing, app_nil_r.
  reflexivity.
Qed.

Lemma geometryEvents_no_addEvent net network polygon :
  ~ In addEvent (geometryEvents net network polygon).
Proof.
  unfold geometryEvents. rewrite !in_app_iff.
  intros [[Hin | Hin] | [Hin | [Hin | Hin]]].
  - cbn in Hin. intuition discriminate.
  - unfold componentsWarning in Hin. destruct (1 <? _)%nat; cbn in Hin; intuition discriminate.
  - cbn in Hin. intuition discriminate.
  - unfold preparePolygonForDrawing in Hin.
    destruct (Z.eqb _ _); cbn in Hin; intuition discriminate.
  - cbn in Hin. intuition discriminate.
Qed.

(** [initialize] once the network is built and a component selected: the
    three creation calls of the engine, each of which may fail. *)
Lemma initialize_outcomes net jpsDeltaT exitTolerance network polygon builder :
  buildPedestrianNetwork net = inr network ->
  maxAreaConnectedComponentPolygon (selectMaxArea network) = Some polygon ->
  preparePolygonForJPS JPS_GeometryBuilder_Create polygon = Some builder ->
  let modelBuilder := JPS_CollisionFreeSpeedModelBuilder_Create 8 (1 / 10) 5 (2 / 100) in
  let t2 := geometryEvents net network polygon in
  initialize net jpsDeltaT exitTolerance
  = match JPS_GeometryBuilder_Build builder with
    | inl message =>
        (t2 ++ [JPS_ErrorMessage_Free],
         Throws (mkProcessError (String.append "Error creating the geometry: " message)))
    | inr geometry =>
        match JPS_CollisionFreeSpeedModelBuilder_Build modelBuilder with
        | inl message =>
            ((t2 ++ [Call_JPS_CollisionFreeSpeedModelBuilder_Build]) ++ [JPS_ErrorMessage_Free],
             Throws (mkProcessError
                       (String.append "Error creating the pedestrian model: " message)))
        | inr model =>
            match JPS_Simulation_Create model geometry (STEPS2TIME jpsDeltaT) with
            | inl message =>
                (((t2 ++ [Call_JPS_CollisionFreeSpeedModelBuilder_Build])
                    ++ [Call_JPS_Simulation_Create]) ++ [JPS_ErrorMessage_Free],
                 Throws (mkProcessError
                           (String.append "Error creating the simulation: " message)))
            | inr simulation =>
                ((t2 ++ [Call_JPS_CollisionFreeSpeedModelBuilder_Build])
                   ++ [Call_JPS_Simulation_Create],
                 Returns (mkModel net jpsDeltaT exitTolerance network
                            (Nat.eqb (GEOSGetNumGeometries network) 1) builder geometry
                            modelBuilder model simulation [] 0%Z))
            end
        end
    end.
Proof.
  intros Hb Hsel Hbuilder. cbv zeta. unfold initialize, geometryEvents. rewrite Hb. cbv zeta.
  rewrite Hsel, Hbuilder. reflexivity.
Qed.

(** [initialize] when the conversion of the selected component to points of
    the engine is undefined. *)
Lemma initialize_undefined net jpsDeltaT exitTolerance network polygon :
  buildPedestrianNetwork net = inr network ->
  maxAreaConnectedComponentPolygon (selectMaxArea network) = Some polygon ->
  preparePolygonForJPS JPS_GeometryBuilder_Create polygon = None ->
  initialize net jpsDeltaT exitTolerance
  = (((initGEOS :: buildPedestrianNetwork_trace net)
        ++ componentsWarning (GEOSGetNumGeometries network))
       ++ [dumpGeometry polygon "pedestrianNetwork.wkt"; Call_JPS_GeometryBuilder_Create],
     Undefined).
Proof.
  intros Hb Hsel Hbuilder. unfold initialize. rewrite Hb. cbv zeta.
  rewrite Hsel, Hbuilder. reflexivity.
Qed.

(** The adapter [initialize] returns. *)
Lemma initialize_fields net jpsDeltaT exitTolerance t m :
  initialize net jpsDeltaT exitTolerance = (t, Returns m) ->
  myNetwork m = net
  /\ myJPSDeltaT m = jpsDeltaT
  /\ myExitTolerance m = exitTolerance
  /\ myPedestrianStates m = []
  /\ myNumActivePedestrians m = 0%Z
  /\ buildPedestrianNetwork net = inr (myGEOSPedestrianNetwork m)
  /\ myIsPedestrianNetworkConnected m
     = Nat.eqb (GEOSGetNumGeometries (myGEOSPedestrianNetwork m)) 1
  /\ (exists polygon,
         maxAreaConnectedComponentPolygon (selectMaxArea (myGEOSPedestrianNetwork m))
         = Some polygon
         /\ preparePolygonForJPS JPS_GeometryBuilder_Create polygon
            = Some (myJPSGeometryBuilder m))
  /\ JPS_GeometryBuilder_Build (myJPSGeometryBuilder m) = inr (myJPSGeometry m)
  /\ myJPSModelBuilder m = JPS_CollisionFreeSpeedModelBuilder_Create 8 (1 / 10) 5 (2 / 100)
  /\ JPS_CollisionFreeSpeedModelBuilder_Build (myJPSModelBuilder m) = inr (myJPSModel m)
  /\ JPS_Simulation_Create (myJPSModel m) (myJPSGeometry m) (IZR jpsDeltaT / 1000)
     = inr (myJPSSimulation m)
  /\ hd_error t = Some initGEOS.
Proof.
  intros Hinit. unfold initialize in Hinit.
  destruct (buildPedestrianNetwork net) as [e | network] eqn:Hb; [discriminate |].
  destruct (maxAreaConnectedComponentPolygon (selectMaxArea network)) as [polygon |] eqn:Hsel;
    [| discriminate].
  cbv zeta in Hinit.
  destruct (preparePolygonForJPS _ _) as [builder |] eqn:Hbuilder; [| discriminate].
  destruct (JPS_GeometryBuilder_Build _) as [message | geometry] eqn:Hg; [discriminate |].
  destruct (JPS_CollisionFreeSpeedModelBuilder_Build _) as [message | model] eqn:Hm;
    [discriminate |].
  destruct (JPS_Simulation_Create _ _ _) as [message | simulation] eqn:Hs; [discriminate |].
  injection Hinit as <- <-.
  cbn [myNetwork myJPSDeltaT myExitTolerance myPedestrianStates myNumActivePedestrians
         myGEOSPedestrianNetwork myIsPedestrianNetworkConnected myJPSGeometryBuilder
         myJPSGeometry myJPSModelBuilder myJPSModel myJPSSimulation].
  repeat (split; [reflexivity |]).
  split; [exists polygon; split; [exact Hsel | exact Hbuilder] |].
  split; [exact Hg |]. split; [reflexivity |]. split; [exact Hm |]. split; [exact Hs |].
  reflexivity.
Qed.

End InitializeTrace.

Lemma simpleGEOS_selection (g : GEOSGeometry) :
  maxAreaConnectedComponentPolygon (@selectMaxArea simpleGEOS g) = Some (GEOSGetGeometryN g 0).
Proof.
  unfold selectMaxArea. cbn [GEOSGetNumGeometries simpleGEOS exampleGEOS seq fold_left].
  unfold selectStep. cbn [GEOSArea simpleGEOS exampleGEOS maxArea].
  assert (H01 : Rltb 0 1 = true) by (apply Rltb_true_iff; lra).
  rewrite H01. reflexivity.
Qed.

Lemma simpleGEOS_builder (polygon : GEOSGeometry) :
  @preparePolygonForJPS simpleGEOS JPS_GeometryBuilder_Create polygon
  = Some (mkGeometryBuilder [[mkJPSPoint 0 0; mkJPSPoint 30 0; mkJPSPoint 30 2]] []).
Proof. reflexivity. Qed.

(** The three creation calls of the engine in the constructor, once the
    network is built and a component selected.  When the conversion of the
    component to points of the engine is undefined, so is the constructor,
    after the geometry builder was created and before anything is built.
    Otherwise the geometry is built first, then the operational model, then
    the simulation, for the engine's step length in seconds.  The first call
    that fails ends the constructor with a [ProcessError] whose message names
    the failed creation and carries the engine's message; the error message
    is released, the calls that would follow are not made and the recurring
    event is not registered.  When all three succeed the adapter is returned
    and the recurring event is registered last. *)
Theorem engine_failure_aborts_construction `{GEOS} `{JPSEngine} (net : MSNet) (jpsDeltaT : Z)
  (exitTolerance : R) (network polygon : GEOSGeometry) :
  buildPedestrianNetwork net = inr network ->
  maxAreaConnectedComponentPolygon (selectMaxArea network) = Some polygon ->
  let t := fst (MSPModel_JuPedSim_new net jpsDeltaT exitTolerance) in
  let outcome := snd (MSPModel_JuPedSim_new net jpsDeltaT exitTolerance) in
  match preparePolygonForJPS JPS_GeometryBuilder_Create polygon with
  | None =>
      outcome = Undefined
      /\ filter isJPSCall t = [Call_JPS_GeometryBuilder_Create]
      /\ ~ In addEvent t
  | Some builder =>
  match JPS_GeometryBuilder_Build builder with
  | inl message =>
      outcome = Throws (mkProcessError (String.append "Error creating the geometry: " message))
      /\ filter isJPSCall t = [Call_JPS_GeometryBuilder_Create; Call_JPS_GeometryBuilder_Build]
      /\ last t initGEOS = JPS_ErrorMessage_Free
      /\ ~ In addEvent t
  | inr geometry =>
      match JPS_CollisionFreeSpeedModelBuilder_Build
              (JPS_CollisionFreeSpeedModelBuilder_Create 8 (1 / 10) 5 (2 / 100)) with
      | inl message =>
          outcome
          = Throws (mkProcessError (String.append "Error creating the pedestrian model: " message))
          /\ filter isJPSCall t
             = [Call_JPS_GeometryBuilder_Create; Call_JPS_GeometryBuilder_Build;
                Call_JPS_CollisionFreeSpeedModelBuilder_Build]
          /\ last t initGEOS = JPS_ErrorMessage_Free
          /\ ~ In addEvent t
      | inr model =>
          match JPS_Simulation_Create model geometry (IZR jpsDeltaT / 1000) with
          | inl message =>
              outcome
              = Throws (mkProcessError (String.append "Error creating the simulation: " message))
              /\ filter isJPSCall t
                 = [Call_JPS_GeometryBuilder_Create; Call_JPS_GeometryBuilder_Build;
                    Call_JPS_CollisionFreeSpeedModelBuilder_Build; Call_JPS_Simulation_Create]
              /\ last t initGEOS = JPS_ErrorMessage_Free
              /\ ~ In addEvent t
          | inr simulation =>
              (exists m, outcome = Returns m /\ myJPSSimulation m = simulation)
              /\ filter isJPSCall t
                 = [Call_JPS_GeometryBuilder_Create; Call_JPS_GeometryBuilder_Build;
                    Call_JPS_CollisionFreeSpeedModelBuilder_Build; Call_JPS_Simulation_Create]
              /\ last t initGEOS = addEvent
          end
      end
  end
  end.
Proof.
  intros Hb Hsel. cbv zeta. unfold MSPModel_JuPedSim_new.
  destruct (preparePolygonForJPS JPS_GeometryBuilder_Create polygon) as [builder |]
    eqn:Hbuilder.
  2: { rewrite (@initialize_undefined _ _ net jpsDeltaT exitTolerance network polygon
                  Hb Hsel Hbuilder).
       cbn [fst snd]. split; [reflexivity |]. split.
       - rewrite !filter_app. cbn [filter isJPSCall].
         rewrite calls_of_buildPedestrianNetwork_trace, calls_of_componentsWarning.
         reflexivity.
       - rewrite !in_app_iff. intros [[Hin | Hin] | Hin].
         + cbn in Hin. intuition discriminate.
         + unfold componentsWarning in Hin.
           destruct (1 <? _)%nat; cbn in Hin; intuition discriminate.
         + cbn in Hin. intuition discriminate. }
  rewrite (@initialize_outcomes _ _ net jpsDeltaT exitTolerance network polygon builder
             Hb Hsel Hbuilder).
  cbv zeta. unfold STEPS2TIME.
  pose proof (@calls_of_geometryEvents _ net network polygon) as Hcalls.
  pose proof (@geometryEvents_no_addEvent _ net network polygon) as Hno.
  set (t2 := geometryEvents net network polygon) in *.
  destruct (JPS_GeometryBuilder_Build _) as [message | geometry]; cbn [fst snd].
  { split; [reflexivity |]. split; [rewrite filter_app, Hcalls; reflexivity |].
    split; [apply last_last |].
    rewrite in_app_iff.
    intros [Hin | Hin]; [exact (Hno Hin) | cbn in Hin; intuition discriminate]. }
  destruct (JPS_CollisionFreeSpeedModelBuilder_Build _) as [message | model]; cbn [fst snd].
  { split; [reflexivity |]. split; [rewrite !filter_app, Hcalls; reflexivity |].
    split; [apply last_last |].
    rewrite !in_app_iff.
    intros [[Hin | Hin] | Hin]; [exact (Hno Hin) | |]; cbn in Hin; intuition discriminate. }
  destruct (JPS_Simulation_Create _ _ _) as [message | simulation]; cbn [fst snd].
  { split; [reflexivity |]. split; [rewrite !filter_app, Hcalls; reflexivity |].
    split; [apply last_last |].
    rewrite !in_app_iff.
    intros [[[Hin | Hin] | Hin] | Hin]; [exact (Hno Hin) | | |]; cbn in Hin;
      intuition discriminate. }
  split; [eexists; split; reflexivity |].
  split; [rewrite !filter_app, Hcalls; reflexivity | apply last_last].
Qed.

(** The theorem for an engine whose operational model cannot be built. *)
Lemma engine_failure_aborts_construction_witness :
  snd (@MSPModel_JuPedSim_new simpleGEOS (failingEngine 1) exampleNet 100 (1 / 2))
  = Throws (mkProcessError "Error creating the pedestrian model: bad parameters")
  /\ filter isJPSCall
       (fst (@MSPModel_JuPedSim_new simpleGEOS (failingEngine 1) exampleNet 100 (1 / 2)))
     = [Call_JPS_GeometryBuilder_Create; Call_JPS_GeometryBuilder_Build;
        Call_JPS_CollisionFreeSpeedModelBuilder_Build]
  /\ last (fst (@MSPModel_JuPedSim_new simpleGEOS (failingEngine 1) exampleNet 100 (1 / 2)))
       initGEOS
     = JPS_ErrorMessage_Free
  /\ ~ In addEvent
         (fst (@MSPModel_JuPedSim_new simpleGEOS (failingEngine 1) exampleNet 100 (1 / 2))).
Proof.
  exact (@engine_failure_aborts_construction simpleGEOS (failingEngine 1) exampleNet 100%Z
           (1 / 2) (@finalWalkableAreas simpleGEOS exampleNet)
           (GEOSGetGeometryN (@finalWalkableAreas simpleGEOS exampleNet) 0)
           eq_refl (simpleGEOS_selection _)).
Defined.

(** The adapter the constructor returns: it holds the network and the two
    options it was given, tracks no pedestrian and counts none; its pedestrian
    network is the geometry [buildPedestrianNetwork] returned and it is
    flagged connected exactly when that geometry has one part; its geometry
    builder was fed the selected component only, and its geometry, model and
    simulation are what the engine built from the geometry builder, from the
    model builder with the parameters 8, 0.1, 5, 0.02, and from both with the
    step length in seconds.  The geometry library is initialised first and
    the recurring event registered last. *)
Theorem constructed_adapter_is_empty `{GEOS} `{JPSEngine} (net : MSNet) (jpsDeltaT : Z)
  (exitTolerance : R) (t : Trace) (m : MSPModel_JuPedSim) :
  MSPModel_JuPedSim_new net jpsDeltaT exitTolerance = (t, Returns m) ->
  myNetwork m = net
  /\ myJPSDeltaT m = jpsDeltaT
  /\ myExitTolerance m = exitTolerance
  /\ myPedestrianStates m = []
  /\ myNumActivePedestrians m = 0%Z
  /\ buildPedestrianNetwork net = inr (myGEOSPedestrianNetwork m)
  /\ myIsPedestrianNetworkConnected m
     = Nat.eqb (GEOSGetNumGeometries (myGEOSPedestrianNetwork m)) 1
  /\ (exists polygon,
         maxAreaConnectedComponentPolygon (selectMaxArea (myGEOSPedestrianNetwork m))
         = Some polygon
         /\ preparePolygonForJPS JPS_GeometryBuilder_Create polygon
            = Some (myJPSGeometryBuilder m))
  /\ JPS_GeometryBuilder_Build (myJPSGeometryBuilder m) = inr (myJPSGeometry m)
  /\ myJPSModelBuilder m = JPS_CollisionFreeSpeedModelBuilder_Create 8 (1 / 10) 5 (2 / 100)
  /\ JPS_CollisionFreeSpeedModelBuilder_Build (myJPSModelBuilder m) = inr (myJPSModel m)
  /\ JPS_Simulation_Create (myJPSModel m) (myJPSGeometry m) (IZR jpsDeltaT / 1000)
     = inr (myJPSSimulation m)
  /\ hd_error t = Some initGEOS
  /\ last t initGEOS = addEvent.
Proof.
  unfold MSPModel_JuPedSim_new.
  destruct (initialize net jpsDeltaT exitTolerance) as [t' outcome] eqn:Hinit.
  destruct outcome as [m' | e | |]; try discriminate.
  intros Heq. injection Heq as <- <-.
  destruct (initialize_fields _ _ _ Hinit)
    as (H1 & H2 & H3 & H4 & H5 & H6 & H7 & H8 & H9 & H10 & H11 & H12 & H13).
  repeat (split; [assumption |]).
  split; [| apply last_last].
  destruct t' as [| e t']; [discriminate | exact H13].
Qed.

Lemma exampleNet_construction :
  exists t m,
    @MSPModel_JuPedSim_new simpleGEOS acceptingEngine exampleNet 100 (1 / 2) = (t, Returns m).
Proof.
  unfold MSPModel_JuPedSim_new.
  rewrite (@initialize_outcomes simpleGEOS acceptingEngine exampleNet 100%Z (1 / 2)
             (@finalWalkableAreas simpleGEOS exampleNet)
             (GEOSGetGeometryN (@finalWalkableAreas simpleGEOS exampleNet) 0) _
             eq_refl (simpleGEOS_selection _) (simpleGEOS_builder _)).
  eexists. eexists. reflexivity.
Qed.

(** The theorem for [exampleNet] and the engine that accepts everything. *)
Lemma constructed_adapter_is_empty_witness :
  exists t m,
    @MSPModel_JuPedSim_new simpleGEOS acceptingEngine exampleNet 100 (1 / 2) = (t, Returns m)
    /\ myNetwork m = exampleNet
    /\ myJPSDeltaT m = 100%Z
    /\ myPedestrianStates m = []
    /\ myNumActivePedestrians m = 0%Z
    /\ myJPSSimulation m = 0%nat
    /\ last t initGEOS = addEvent.
Proof.
  destruct exampleNet_construction as (t & m & Hnew).
  exists t, m. split; [exact Hnew |].
  destruct (@constructed_adapter_is_empty simpleGEOS acceptingEngine exampleNet 100%Z (1 / 2)
              t m Hnew)
    as (Hnet & Hdt & _ & Hstates & Hcount & _ & _ & _ & _ & _ & _ & Hsim & _ & Hlast).
  repeat (split; [assumption |]).
  split; [| exact Hlast].
  cbn in Hsim. injection Hsim as <-. reflexivity.
Defined.

(** The geometries written to files by the constructor: the five
    intermediate geometries of [buildPedestrianNetwork] are written, in the
    order in which they are computed, before the simplicity check, so also
    when the check fails and the constructor throws; when a component is
    selected it is written next, as "pedestrianNetwork.wkt", and nothing else
    is written whatever the engine answers.  When no component is selected
    the constructor is undefined. *)
Theorem geometries_are_dumped_before_the_check `{GEOS} `{JPSEngine} (net : MSNet)
  (jpsDeltaT : Z) (exitTolerance : R) :
  let disjointWalkableAreas := GEOSGeom_createCollection GEOS_MULTIPOLYGON (walkableAreas net) in
  let disjointAdditionalObstacles :=
    GEOSGeom_createCollection GEOS_MULTIPOLYGON (additionalObstacles net) in
  let dumps :=
    [dumpGeometry disjointWalkableAreas "disjointWalkableAreas.wkt";
     dumpGeometry (GEOSUnaryUnion disjointWalkableAreas) "initialWalkableAreas.wkt";
     dumpGeometry disjointAdditionalObstacles "disjointAdditionalObstacles.wkt";
     dumpGeometry (GEOSUnaryUnion disjointAdditionalObstacles) "additionalObstaclesUnion.wkt";
     dumpGeometry
       (GEOSDifference (GEOSUnaryUnion disjointWalkableAreas)
          (GEOSUnaryUnion disjointAdditionalObstacles))
       "finalWalkableAreas.wkt"] in
  let t := fst (MSPModel_JuPedSim_new net jpsDeltaT exitTolerance) in
  match buildPedestrianNetwork net with
  | inl e =>
      filter isDump t = dumps
      /\ snd (MSPModel_JuPedSim_new net jpsDeltaT exitTolerance) = Throws e
  | inr network =>
      match maxAreaConnectedComponentPolygon (selectMaxArea network) with
      | Some polygon => filter isDump t = dumps ++ [dumpGeometry polygon "pedestrianNetwork.wkt"]
      | None => snd (MSPModel_JuPedSim_new net jpsDeltaT exitTolerance) = Undefined
      end
  end.
Proof.
  cbv zeta.
  destruct (buildPedestrianNetwork net) as [e | network] eqn:Hb.
  - unfold MSPModel_JuPedSim_new, initialize. rewrite Hb. split; reflexivity.
  - destruct (maxAreaConnectedComponentPolygon (selectMaxArea network)) as [polygon |] eqn:Hsel.
    + unfold MSPModel_JuPedSim_new.
      destruct (preparePolygonForJPS JPS_GeometryBuilder_Create polygon) as [builder |]
        eqn:Hbuilder.
      2: { rewrite (@initialize_undefined _ _ net jpsDeltaT exitTolerance network polygon
                      Hb Hsel Hbuilder).
           cbn [fst]. rewrite !filter_app, dumps_of_componentsWarning, app_nil_r.
           reflexivity. }
      rewrite (@initialize_outcomes _ _ net jpsDeltaT exitTolerance network polygon builder
                 Hb Hsel Hbuilder).
      cbv zeta.
      pose proof (@dumps_of_geometryEvents _ net network polygon) as Hdumps.
      set (t2 := geometryEvents net network polygon) in *.
      destruct (JPS_GeometryBuilder_Build _) as [message | geometry]; cbn [fst].
      { rewrite filter_app, Hdumps. cbn [filter isDump]. rewrite app_nil_r. reflexivity. }
      destruct (JPS_CollisionFreeSpeedModelBuilder_Build _) as [message | model]; cbn [fst].
      { rewrite !filter_app, Hdumps. cbn [filter isDump]. rewrite !app_nil_r. reflexivity. }
      destruct (JPS_Simulation_Create _ _ _) as [message | simulation]; cbn [fst];
        rewrite !filter_app, Hdumps; cbn [filter isDump]; rewrite !app_nil_r; reflexivity.
    + unfold MSPModel_JuPedSim_new, initialize. rewrite Hb. cbv zeta. rewrite Hsel.
      reflexivity.
Qed.

(* ===================================================================== *)
(** ** Model Initializer: the conversion to points of the engine *)
(* ===================================================================== *)

Lemma removelast_length {A : Type} (l : list A) :
  List.length (removelast l) = (List.length l - 1)%nat.
Proof.
  induction l as [| a l IH]; [reflexivity |].
  destruct l as [| b l]; [reflexivity |].
  cbn [removelast List.length] in *. rewrite IH. lia.
Qed.

(** The two overloads of [convertToJPSPoints] agree on a geometry whose
    coordinate sequence is not empty: both are defined, and converting the
    geometry gives the same points as converting the coordinates
    [getCoordinates] reads from it.  The result has one point less than the
    sequence has coordinates, and its i-th point is the x and y of the i-th
    coordinate. *)
Theorem overloads_of_convertToJPSPoints_agree `{GEOS} (geometry : GEOSGeometry) :
  getCoordinates geometry <> [] ->
  exists points,
    convertToJPSPoints geometry = Some points
    /\ convertToJPSPoints_PositionVector (getCoordinates geometry) = Some points
    /\ List.length points = (List.length (getCoordinates geometry) - 1)%nat
    /\ forall i point,
         nth_error points i = Some point ->
         exists p, nth_error (getCoordinates geometry) i = Some p
                   /\ point = mkJPSPoint (myX p) (myY p).
Proof.
  intros Hne.
  exists (map (fun p => mkJPSPoint (myX p) (myY p)) (removelast (getCoordinates geometry))).
  split; [apply convertToJPSPoints_defined; exact Hne |].
  split.
  { unfold convertToJPSPoints_PositionVector.
    destruct (getCoordinates geometry) as [| c cs]; [contradiction |].
    rewrite removelast_map. reflexivity. }
  split; [rewrite length_map; apply removelast_length |].
  intros i point Hi. rewrite nth_error_map in Hi.
  destruct (nth_error (removelast (getCoordinates geometry)) i) as [p |] eqn:Hp;
    [| discriminate].
  cbn in Hi. injection Hi as <-. exists p. split; [| reflexivity].
  rewrite removelast_firstn_len in Hp.
  rewrite nth_error_firstn in Hp.
  destruct (i <? Nat.pred (List.length (getCoordinates geometry)))%nat;
    [exact Hp | discriminate].
Qed.

(** The theorem for the exterior ring of the square. *)
Lemma overloads_of_convertToJPSPoints_agree_witness :
  exists points,
    @convertToJPSPoints holedGEOS (GEOSGetExteriorRing holedSquare)
    = Some points
    /\ convertToJPSPoints_PositionVector
         (@getCoordinates holedGEOS (GEOSGetExteriorRing holedSquare))
       = Some points
    /\ List.length points = 3%nat.
Proof.
  destruct (@overloads_of_convertToJPSPoints_agree holedGEOS
              (GEOSGetExteriorRing holedSquare))
    as (points & Hsame & Hvector & Hlen & _).
  - discriminate.
  - exists points. split; [exact Hsame |]. split; [exact Hvector | exact Hlen].
Defined.

(** Closing a shape for GEOS and opening it again for the engine: the
    points of the closed ring without the last one are the points of the shape
    when the shape was open (its last point differs from its first), and the
    points of the shape without its last one when it was closed already. *)
Theorem closing_point_is_dropped_again (shape : PositionVector) :
  shape <> [] ->
  convertToJPSPoints_PositionVector (closeShape shape)
  = Some (map (fun p => mkJPSPoint (myX p) (myY p))
            (if Position_eqb (last shape Position_default) (hd Position_default shape)
             then removelast shape else shape)).
Proof.
  destruct shape as [| front rest]; [contradiction |]. intros _.
  unfold closeShape. cbn [hd].
  destruct (Position_eqb (last (front :: rest) Position_default) front).
  - cbn [convertToJPSPoints_PositionVector]. rewrite removelast_map. reflexivity.
  - cbn [app convertToJPSPoints_PositionVector]. rewrite removelast_map.
    change (front :: rest ++ [front]) with ((front :: rest) ++ [front]).
    rewrite removelast_last. reflexivity.
Qed.

(** The theorem for an open triangle. *)
Lemma closing_point_is_dropped_again_witness :
  convertToJPSPoints_PositionVector
    (closeShape [mkPosition 0 0 0; mkPosition 1 0 0; mkPosition 0 1 0])
  = Some [mkJPSPoint 0 0; mkJPSPoint 1 0; mkJPSPoint 0 1].
Proof.
  rewrite (@closing_point_is_dropped_again
             [mkPosition 0 0 0; mkPosition 1 0 0; mkPosition 0 1 0]) by discriminate.
  rewrite open_triangle. reflexivity.
Defined.

(* ===================================================================== *)
(** ** Journey Builder: waypoints and transitions *)
(* ===================================================================== *)

Section WaypointFacts.

Context {E : JPSEngine} {H : Host}.

Implicit Types w : World.

(** What [addWaypoint] returns and emits, case by case. *)
Lemma addWaypoint_cases w journey predecessor point :
  let jpsPoint := mkJPSPoint (myX point) (myY point) in
  let request := JPS_Simulation_AddStageWaypoint (simulation w) jpsPoint (exitTolerance w) in
  let w0 := setSimulation (fst request) w in
  match snd request with
  | inl message =>
      addWaypoint w journey predecessor point
      = (false,
         emit [Call_JPS_Simulation_AddStageWaypoint jpsPoint (Some message);
               WRITE_WARNINGF "Error while adding waypoint for an agent: %" [ArgString message];
               JPS_ErrorMessage_Free] w0,
         journey, predecessor)
  | inr waypointId =>
      if Nat.eqb predecessor 0 then
        addWaypoint w journey predecessor point
        = (true, emit [Call_JPS_Simulation_AddStageWaypoint jpsPoint None] w0,
           JPS_JourneyDescription_AddStage journey waypointId, waypointId)
      else
        match JPS_Transition_CreateFixedTransition waypointId with
        | inl message =>
            addWaypoint w journey predecessor point
            = (false,
               emit [Call_JPS_Simulation_AddStageWaypoint jpsPoint None;
                     Call_JPS_Transition_CreateFixedTransition waypointId (Some message);
                     WRITE_WARNINGF "Error while creating fixed transition for an agent: %"
                       [ArgString message];
                     JPS_ErrorMessage_Free] w0,
               journey, predecessor)
        | inr transition =>
            match JPS_JourneyDescription_SetTransitionForStage journey predecessor transition with
            | inl message =>
                addWaypoint w journey predecessor point
                = (false,
                   emit [Call_JPS_Simulation_AddStageWaypoint jpsPoint None;
                         Call_JPS_Transition_CreateFixedTransition waypointId None;
                         Call_JPS_JourneyDescription_SetTransitionForStage predecessor
                           (Some message);
                         WRITE_WARNINGF "Error while setting transition for an agent: %"
                           [ArgString message];
                         JPS_ErrorMessage_Free] w0,
                   journey, predecessor)
            | inr linked =>
                addWaypoint w journey predecessor point
                = (true,
                   emit [Call_JPS_Simulation_AddStageWaypoint jpsPoint None;
                         Call_JPS_Transition_CreateFixedTransition waypointId None;
                         Call_JPS_JourneyDescription_SetTransitionForStage predecessor None;
                         JPS_Transition_Free transition] w0,
                   JPS_JourneyDescription_AddStage linked waypointId, waypointId)
            end
        end
  end.
Proof.
  cbv zeta. unfold addWaypoint, simulation, exitTolerance.
  destruct (JPS_Simulation_AddStageWaypoint _ _ _) as [sim [message | waypointId]];
    cbn [fst snd failureOf].
  - unfold emit. cbn [adapter persons rng DELTA_T trace]. rewrite <- app_assoc. reflexivity.
  - destruct (Nat.eqb predecessor 0); [reflexivity |].
    destruct (JPS_Transition_CreateFixedTransition waypointId) as [message | transition];
      cbn [failureOf].
    + unfold emit. cbn [adapter persons rng DELTA_T trace]. rewrite <- !app_assoc. reflexivity.
    + destruct (JPS_JourneyDescription_SetTransitionForStage journey predecessor transition)
        as [message | linked]; cbn [failureOf];
        unfold emit; cbn [adapter persons rng DELTA_T trace]; rewrite <- !app_assoc; reflexivity.
Qed.

End WaypointFacts.

(** [addWaypoint] asks the engine for one waypoint, at the x and y of the
    point and with the exit tolerance.  The world after the call is the world
    before it with the simulation the request leaves and with events appended
    to the trace: no other member of the adapter changes, in particular not
    the tracked states, the counter, the network, the exit tolerance or the
    step length, and neither do the persons or the host's step length.  The
    call returns true exactly when the journey was extended: the new stage
    becomes the predecessor and is appended to the journey, after a fixed
    transition from the old predecessor to it was set when there was a
    predecessor.  When it returns false the journey and the predecessor are
    as they were. *)
Theorem waypoint_extends_journey_only_on_success `{JPSEngine} `{Host} (w : World)
  (journey : JPS_JourneyDescription) (predecessor : JPS_StageId) (point : Position)
  (b : bool) (w' : World) (journey' : JPS_JourneyDescription) (predecessor' : JPS_StageId) :
  addWaypoint w journey predecessor point = (b, w', journey', predecessor') ->
  let request :=
    JPS_Simulation_AddStageWaypoint (simulation w) (mkJPSPoint (myX point) (myY point))
      (exitTolerance w) in
  (exists es, w' = emit es (setSimulation (fst request) w))
  /\ simulation w' = fst request
  /\ tracked w' = tracked w
  /\ getActiveNumber w' = getActiveNumber w
  /\ myNetwork (adapter w') = myNetwork (adapter w)
  /\ exitTolerance w' = exitTolerance w
  /\ myJPSDeltaT (adapter w') = myJPSDeltaT (adapter w)
  /\ myGEOSPedestrianNetwork (adapter w') = myGEOSPedestrianNetwork (adapter w)
  /\ myIsPedestrianNetworkConnected (adapter w') = myIsPedestrianNetworkConnected (adapter w)
  /\ myJPSGeometryBuilder (adapter w') = myJPSGeometryBuilder (adapter w)
  /\ myJPSGeometry (adapter w') = myJPSGeometry (adapter w)
  /\ myJPSModelBuilder (adapter w') = myJPSModelBuilder (adapter w)
  /\ myJPSModel (adapter w') = myJPSModel (adapter w)
  /\ persons w' = persons w
  /\ rng w' = rng w
  /\ DELTA_T w' = DELTA_T w
  /\ if b then
       exists waypointId,
         snd request = inr waypointId
         /\ predecessor' = waypointId
         /\ if Nat.eqb predecessor 0
            then journey' = JPS_JourneyDescription_AddStage journey waypointId
            else exists transition linked,
                JPS_Transition_CreateFixedTransition waypointId = inr transition
                /\ JPS_JourneyDescription_SetTransitionForStage journey predecessor transition
                   = inr linked
                /\ journey' = JPS_JourneyDescription_AddStage linked waypointId
     else journey' = journey /\ predecessor' = predecessor.
Proof.
  intros Hadd. cbv zeta.
  pose proof (addWaypoint_cases w journey predecessor point) as Hcases. cbv zeta in Hcases.
  assert (Hframe : forall es,
             w' = emit es
                    (setSimulation
                       (fst (JPS_Simulation_AddStageWaypoint (simulation w)
                               (mkJPSPoint (myX point) (myY point)) (exitTolerance w))) w) ->
             (exists es', w' = emit es'
                               (setSimulation
                                  (fst (JPS_Simulation_AddStageWaypoint (simulation w)
                                          (mkJPSPoint (myX point) (myY point))
                                          (exitTolerance w))) w))
             /\ simulation w'
                = fst (JPS_Simulation_AddStageWaypoint (simulation w)
                         (mkJPSPoint (myX point) (myY point)) (exitTolerance w))
             /\ tracked w' = tracked w
             /\ getActiveNumber w' = getActiveNumber w
             /\ myNetwork (adapter w') = myNetwork (adapter w)
             /\ exitTolerance w' = exitTolerance w
             /\ myJPSDeltaT (adapter w') = myJPSDeltaT (adapter w)
             /\ myGEOSPedestrianNetwork (adapter w') = myGEOSPedestrianNetwork (adapter w)
             /\ myIsPedestrianNetworkConnected (adapter w')
                = myIsPedestrianNetworkConnected (adapter w)
             /\ myJPSGeometryBuilder (adapter w') = myJPSGeometryBuilder (adapter w)
             /\ myJPSGeometry (adapter w') = myJPSGeometry (adapter w)
             /\ myJPSModelBuilder (adapter w') = myJPSModelBuilder (adapter w)
             /\ myJPSModel (adapter w') = myJPSModel (adapter w)
             /\ persons w' = persons w
             /\ rng w' = rng w
             /\ DELTA_T w' = DELTA_T w).
  { intros es ->. split; [exists es; reflexivity |]. repeat split. }
  destruct (snd (JPS_Simulation_AddStageWaypoint _ _ _)) as [message | waypointId].
  - rewrite Hcases in Hadd. injection Hadd as <- <- <- <-.
    repeat (split; [apply (Hframe _ eq_refl) |]). split; reflexivity.
  - destruct (Nat.eqb predecessor 0).
    + rewrite Hcases in Hadd. injection Hadd as <- <- <- <-.
      repeat (split; [apply (Hframe _ eq_refl) |]).
      exists waypointId. split; [reflexivity |]. split; reflexivity.
    + destruct (JPS_Transition_CreateFixedTransition waypointId) as [message | transition]
        eqn:Hcreate.
      * rewrite Hcases in Hadd. injection Hadd as <- <- <- <-.
        repeat (split; [apply (Hframe _ eq_refl) |]). split; reflexivity.
      * destruct (JPS_JourneyDescription_SetTransitionForStage journey predecessor transition)
          as [message | linked] eqn:Hset.
        -- rewrite Hcases in Hadd. injection Hadd as <- <- <- <-.
           repeat (split; [apply (Hframe _ eq_refl) |]). split; reflexivity.
        -- rewrite Hcases in Hadd. injection Hadd as <- <- <- <-.
           repeat (split; [apply (Hframe _ eq_refl) |]).
           exists waypointId. split; [reflexivity |]. split; [reflexivity |].
           exists transition, linked. split; [exact Hcreate |]. split; [exact Hset | reflexivity].
Qed.

(** The theorem for a second waypoint at (25, 0), accepted by the engine:
    the stage 1 is linked to itself and appended. *)
Lemma waypoint_extends_journey_only_on_success_witness :
  exists w' journey',
    addWaypoint (exampleWorld (fun _ => None) (fun _ => None) (fun _ => mkJPSPoint 0 0) 1 [] 0)
      (mkJourney [1%nat] []) 1%nat (mkPosition 25 0 0)
    = (true, w', journey', 1%nat)
    /\ simulation w' = 1%nat
    /\ tracked w' = []
    /\ getActiveNumber w' = 0%Z.
Proof.
  eexists. eexists. split; [reflexivity |].
  destruct (@waypoint_extends_journey_only_on_success acceptingEngine exampleHost
              (exampleWorld (fun _ => None) (fun _ => None) (fun _ => mkJPSPoint 0 0) 1 [] 0)
              (mkJourney [1%nat] []) 1%nat (mkPosition 25 0 0) true _ _ _ eq_refl)
    as (_ & Hsim & Htracked & Hcount & _).
  split; [exact Hsim |]. split; [exact Htracked | exact Hcount].
Defined.

(** The fixed transition [addWaypoint] creates is released exactly when the
    call succeeds with a predecessor: then it is released once.  When setting
    the transition on the journey fails, the call returns false after the
    transition was created, and the transition is not released. *)
Theorem transition_is_released_only_on_success `{JPSEngine} `{Host} (w : World)
  (journey : JPS_JourneyDescription) (predecessor : JPS_StageId) (point : Position)
  (b : bool) (w' : World) (journey' : JPS_JourneyDescription) (predecessor' : JPS_StageId)
  (es : Trace) :
  addWaypoint w journey predecessor point = (b, w', journey', predecessor') ->
  trace w' = trace w ++ es ->
  filter isTransitionRelease es
  = (if b && negb (Nat.eqb predecessor 0)
     then match JPS_Transition_CreateFixedTransition predecessor' with
          | inr transition => [JPS_Transition_Free transition]
          | inl _ => []
          end
     else [])
  /\ (forall stage message,
         In (Call_JPS_JourneyDescription_SetTransitionForStage stage (Some message)) es ->
         b = false
         /\ (exists waypointId, In (Call_JPS_Transition_CreateFixedTransition waypointId None) es)
         /\ filter isTransitionRelease es = []).
Proof.
  intros Hadd Htrace.
  pose proof (addWaypoint_cases w journey predecessor point) as Hcases. cbv zeta in Hcases.
  assert (Hes : forall es', trace w' = trace w ++ es' -> es = es').
  { intros es' Ht. apply (app_inv_head (trace w)). rewrite <- Htrace, <- Ht. reflexivity. }
  destruct (snd (JPS_Simulation_AddStageWaypoint _ _ _)) as [message | waypointId].
  - rewrite Hcases in Hadd. injection Hadd as <- <- <- <-.
    rewrite (Hes _ eq_refl). split; [reflexivity |].
    intros stage m Hin. cbn in Hin. intuition discriminate.
  - destruct (Nat.eqb predecessor 0) eqn:Hp.
    + rewrite Hcases in Hadd. injection Hadd as <- <- <- <-.
      rewrite (Hes _ eq_refl). split; [reflexivity |].
      intros stage m Hin. cbn in Hin. intuition discriminate.
    + destruct (JPS_Transition_CreateFixedTransition waypointId) as [message | transition]
        eqn:Hcreate.
      * rewrite Hcases in Hadd. injection Hadd as <- <- <- <-.
        rewrite (Hes _ eq_refl). split; [reflexivity |].
        intros stage m Hin. cbn in Hin. intuition discriminate.
      * destruct (JPS_JourneyDescription_SetTransitionForStage journey predecessor transition)
          as [message | linked].
        -- rewrite Hcases in Hadd. injection Hadd as <- <- <- <-.
           rewrite (Hes _ eq_refl). split; [reflexivity |].
           intros stage m Hin. split; [reflexivity |].
           split; [exists waypointId; right; left; reflexivity | reflexivity].
        -- rewrite Hcases in Hadd. injection Hadd as <- <- <- <-.
           rewrite (Hes _ eq_refl). split; [cbn; rewrite Hcreate; reflexivity |].
           intros stage m Hin. cbn in Hin. intuition discriminate.
Qed.

(** The theorem for an engine that cannot set a transition: nothing is
    released. *)
Lemma transition_is_released_only_on_success_witness :
  filter isTransitionRelease
    [Call_JPS_Simulation_AddStageWaypoint (mkJPSPoint 25 0) None;
     Call_JPS_Transition_CreateFixedTransition 1 None;
     Call_JPS_JourneyDescription_SetTransitionForStage 7 (Some "unknown stage");
     WRITE_WARNINGF "Error while setting transition for an agent: %" [ArgString "unknown stage"];
     JPS_ErrorMessage_Free]
  = [].
Proof.
  exact (proj1 (@transition_is_released_only_on_success brokenTransitionsEngine exampleHost
                  brokenTransitionsWorld (mkJourney [7%nat] []) 7%nat (mkPosition 25 0 0)
                  false _ _ _ _ eq_refl eq_refl)).
Defined.

(* ===================================================================== *)
(** ** Journey Builder: the state of a new pedestrian *)
(* ===================================================================== *)

Section NewState.

Context {E : JPSEngine} {H : Host}.

Implicit Types w : World.

Lemma add_new_state fuel person stage now w state w' :
  findState person (tracked w) = None ->
  add fuel person stage now w = Returns (Some state, w') ->
  let net := myNetwork (adapter w) in
  let p := persons w person in
  let st := nth stage (myPlan p) MSStage_default in
  exists front route departureLane p0 w0 departurePosition w1 current rest arrivalStage w2
         journey startingStage predecessor waypoints arrivalLane w3 journey' predecessor' sim
         jid w6,
    getRoute st = front :: route
    /\ getSidewalk (getEdge net front) = Some departureLane
    /\ randomLocationDeparture fuel w p = Returns (p0, w0)
    /\ (if Position_eqb p0 Position_INVALID
        then laneDeparturePosition w0 departureLane st else (p0, w0))
       = (departurePosition, w1)
    /\ remainingStages p = current :: rest
    /\ addIntermediateWaypoints current rest w1 JPS_JourneyDescription_Create 0%nat 0%nat []
       = LoopDone arrivalStage w2 journey startingStage predecessor waypoints
    /\ getSidewalk (getEdge net (getDestination arrivalStage)) = Some arrivalLane
    /\ addWaypoint w2 journey predecessor
         (positionAtOffset (getShape arrivalLane) (getArrivalPos arrivalStage) 0)
       = (true, w3, journey', predecessor')
    /\ JPS_Simulation_AddJourney (myJPSSimulation (adapter w3)) journey' = (sim, inr jid)
    /\ tryPedestrianInsertion
         (departingState person stage st departureLane departurePosition journey' jid
            (if Nat.eqb startingStage 0 then predecessor' else startingStage)
            (waypoints
               ++ [positionAtOffset (getShape arrivalLane) (getArrivalPos arrivalStage) 0]))
         (setNumActivePedestrians
            (myNumActivePedestrians
               (adapter (emit [Call_JPS_Simulation_AddJourney journey' None]
                           (setSimulation sim w3))) + 1)%Z
            (emit [Call_JPS_Simulation_AddJourney journey' None] (setSimulation sim w3)))
       = (state, w6)
    /\ w' = setPedestrianStates (myPedestrianStates (adapter w6) ++ [state]) w6.
Proof.
  intros Hnone Hadd. cbv zeta. unfold add in Hadd. fold (tracked w) in Hadd.
  rewrite Hnone in Hadd.
  destruct (getRoute _) as [| front route] eqn:Hroute; [discriminate |].
  destruct (getSidewalk (getEdge _ front)) as [departureLane |] eqn:Hlane; [| discriminate].
  destruct (randomLocationDeparture fuel w (persons w person)) as [[p0 w0] | e | |] eqn:Hdep;
    try discriminate.
  destruct (if Position_eqb p0 Position_INVALID then _ else _)
    as [departurePosition w1] eqn:Hpos.
  destruct (remainingStages _) as [| current rest] eqn:Hrem; [discriminate |].
  destruct (addIntermediateWaypoints current rest w1 _ _ _ _)
    as [w2 | arrivalStage w2 journey startingStage predecessor waypoints |] eqn:Hloop;
    [discriminate | | discriminate].
  destruct (getSidewalk (getEdge _ (getDestination arrivalStage))) as [arrivalLane |] eqn:Harr;
    [| discriminate].
  destruct (addWaypoint w2 journey predecessor _) as [[[b w3] journey'] predecessor'] eqn:Hwp.
  destruct b; [| discriminate].
  destruct (JPS_Simulation_AddJourney _ journey') as [sim [message | jid]] eqn:Hj;
    [discriminate |].
  cbn [failureOf] in Hadd.
  destruct (tryPedestrianInsertion _ _) as [state' w6] eqn:Htry.
  injection Hadd as <- <-.
  exists front, route, departureLane, p0, w0, departurePosition, w1, current, rest,
    arrivalStage, w2, journey, startingStage, predecessor, waypoints, arrivalLane, w3,
    journey', predecessor', sim, jid, w6.
  repeat (split; [first [assumption | reflexivity] |]).
  reflexivity.
Qed.

(** The insertion attempt leaves the kinematics of the state alone. *)
Lemma tryPedestrianInsertion_kinematics state w state' w' :
  tryPedestrianInsertion state w = (state', w') ->
  myPosition state' = myPosition state
  /\ myPreviousPosition state' = myPreviousPosition state
  /\ myLanePosition state' = myLanePosition state
  /\ myAngle state' = myAngle state
  /\ myWaypoints state' = myWaypoints state
  /\ myStage state' = myStage state
  /\ myJourney state' = myJourney state
  /\ myStageId state' = myStageId state
  /\ DELTA_T w' = DELTA_T w
  /\ exists es, trace w' = trace w ++ es.
Proof.
  unfold tryPedestrianInsertion.
  destruct (JPS_Simulation_AddCollisionFreeSpeedModelAgent _ _) as [sim [message | agentId]];
    intros Heq; injection Heq as <- <-; repeat (split; [reflexivity |]).
  - eexists. cbn [trace emit setSimulation setAdapter]. rewrite <- app_assoc. reflexivity.
  - eexists. reflexivity.
Qed.

End NewState.

Section JourneyFacts.

Context {E : JPSEngine} {H : Host}.

Implicit Types w : World.

Lemma last_cons {A : Type} (a d : A) (l : list A) : last (a :: l) d = last l a.
Proof.
  revert a d. induction l as [| b l IH]; intros a d; [reflexivity |].
  change (last (a :: b :: l) d) with (last (b :: l) d). rewrite !IH. reflexivity.
Qed.

Lemma addIntermediateWaypoints_waypoints rest :
  forall prev w journey startingStage predecessor waypoints
         arrivalStage w2 journey2 startingStage2 predecessor2 waypoints2,
    addIntermediateWaypoints prev rest w journey startingStage predecessor waypoints
    = LoopDone arrivalStage w2 journey2 startingStage2 predecessor2 waypoints2 ->
    exists walks others,
      rest = walks ++ others
      /\ Forall (fun s => isWalkingOrTrip (getStageType s) = true) walks
      /\ match others with
         | [] => True
         | next :: _ => isWalkingOrTrip (getStageType next) = false
         end
      /\ arrivalStage = last walks prev
      /\ map Some waypoints2
         = map Some waypoints
           ++ map (stageWaypoint (myNetwork (adapter w))) (removelast (prev :: walks))
      /\ myNetwork (adapter w2) = myNetwork (adapter w).
Proof.
  induction rest as [| next rest IH];
    intros prev w journey startingStage predecessor waypoints
           arrivalStage w2 journey2 startingStage2 predecessor2 waypoints2 Hloop;
    cbn [addIntermediateWaypoints] in Hloop.
  - injection Hloop as <- <- <- <- <- <-. exists [], [].
    split; [reflexivity |]. split; [constructor |]. split; [exact I |]. split; [reflexivity |].
    split; [cbn; rewrite app_nil_r; reflexivity | reflexivity].
  - destruct (isWalkingOrTrip (getStageType next)) eqn:Hwalk; cbn [negb] in Hloop.
    + destruct (getSidewalk (getEdge (myNetwork (adapter w)) (getDestination prev)))
        as [lane |] eqn:Hlane; [| discriminate].
      destruct (addWaypoint w journey predecessor _) as [[[b w1] journey1] predecessor1] eqn:Hwp.
      destruct b; [| discriminate].
      apply addWaypoint_spec in Hwp. destruct Hwp as ((Hnet & _) & _).
      apply IH in Hloop.
      destruct Hloop as (walks & others & -> & Hall & Hother & Harr & Hwps & Hnet2).
      exists (next :: walks), others.
      split; [reflexivity |]. split; [constructor; assumption |]. split; [exact Hother |].
      split; [rewrite last_cons; exact Harr |].
      split.
      * rewrite Hwps, Hnet, map_app, <- app_assoc. f_equal.
        change (removelast (prev :: next :: walks)) with (prev :: removelast (next :: walks)).
        cbn [map app]. unfold stageWaypoint at 2. rewrite Hlane. reflexivity.
      * rewrite Hnet2. exact Hnet.
    + injection Hloop as <- <- <- <- <- <-. exists [], (next :: rest).
      split; [reflexivity |]. split; [constructor |]. split; [exact Hwalk |].
      split; [reflexivity |].
      split; [cbn; rewrite app_nil_r; reflexivity | reflexivity].
Qed.

Lemma sampleDeparturePosition_inside fuel :
  forall shape bbox p r p' r',
    sampleDeparturePosition fuel shape bbox p r = Some (p', r') ->
    around shape p' = true /\ myZ p' = myZ p.
Proof.
  induction fuel as [| fuel IH]; intros shape bbox p r p' r' Hs; cbn [sampleDeparturePosition] in Hs.
  - destruct (around shape p) eqn:Hin; [| discriminate].
    injection Hs as <- <-. split; [exact Hin | reflexivity].
  - destruct (around shape p) eqn:Hin.
    + injection Hs as <- <-. split; [exact Hin | reflexivity].
    + destruct (RandHelper_rand r (xmin bbox) (xmax bbox)) as [x r1].
      destruct (RandHelper_rand r1 (ymin bbox) (ymax bbox)) as [y r2].
      apply IH in Hs. exact Hs.
Qed.

(** The three ways lines 161-179 of [add] end. *)
Lemma randomLocationDeparture_cases fuel w person p0 w0 :
  randomLocationDeparture fuel w person = Returns (p0, w0) ->
  let net := myNetwork (adapter w) in
  let tripOrigin := getEdge net (MSStage_getEdge (getPreviousStage person)) in
  let applies :=
    Nat.eqb (getCurrentStageIndex person) 2 && isRandomLocation (departPosProcedure person)
    && isTazConnector tripOrigin in
  match polygons_get (getPolygons net) (tazParameter tripOrigin) with
  | Some tazShape =>
      if applies
      then around (polygonShape tazShape) p0 = true /\ trace w0 = trace w
      else p0 = Position_INVALID /\ w0 = w
  | None =>
      p0 = Position_INVALID
      /\ if applies
         then w0 = emit [WRITE_WARNINGF "FromTaz '%' for person '%' has no shape information."
                           [ArgString (tazParameter tripOrigin); ArgString (getID person)]] w
         else w0 = w
  end.
Proof.
  unfold randomLocationDeparture. cbv zeta.
  destruct (Nat.eqb (getCurrentStageIndex person) 2 && isRandomLocation (departPosProcedure person));
    cbn [andb].
  - destruct (isTazConnector _).
    + destruct (polygons_get _ _) as [tazShape |].
      * destruct (sampleDeparturePosition _ _ _ _ _) as [[p r] |] eqn:Hs; [| discriminate].
        intros Heq. injection Heq as <- <-.
        apply sampleDeparturePosition_inside in Hs. split; [tauto | reflexivity].
      * intros Heq. injection Heq as <- <-. split; reflexivity.
    + intros Heq. injection Heq as <- <-.
      destruct (polygons_get _ _); split; reflexivity.
  - intros Heq. injection Heq as <- <-.
    destruct (polygons_get _ _); split; reflexivity.
Qed.

End JourneyFacts.

Lemma distanceTo2D_same (p q : Position) :
  myX p = myX q -> myY p = myY q -> distanceTo2D p q = 0.
Proof.
  intros Hx Hy. unfold distanceTo2D. rewrite Hx, Hy.
  replace ((myX q - myX q) * (myX q - myX q) + (myY q - myY q) * (myY q - myY q)) with 0 by ring.
  apply sqrt_0.
Qed.

Section AddedState.

Context {E : JPSEngine} {H : Host}.

Implicit Types w : World.

(** The fields of a state that [add] has just created. *)
Lemma add_new_state_fields fuel person stage now w state w' :
  findState person (tracked w) = None ->
  add fuel person stage now w = Returns (Some state, w') ->
  let net := myNetwork (adapter w) in
  let p := persons w person in
  let st := nth stage (myPlan p) MSStage_default in
  exists front route departureLane p0 w0 departurePosition w1 current rest arrivalStage w2
         journey startingStage predecessor waypoints arrivalLane,
    getRoute st = front :: route
    /\ getSidewalk (getEdge net front) = Some departureLane
    /\ randomLocationDeparture fuel w p = Returns (p0, w0)
    /\ (if Position_eqb p0 Position_INVALID
        then laneDeparturePosition w0 departureLane st else (p0, w0))
       = (departurePosition, w1)
    /\ remainingStages p = current :: rest
    /\ addIntermediateWaypoints current rest w1 JPS_JourneyDescription_Create 0%nat 0%nat []
       = LoopDone arrivalStage w2 journey startingStage predecessor waypoints
    /\ getSidewalk (getEdge net (getDestination arrivalStage)) = Some arrivalLane
    /\ myPreviousPosition state = departurePosition
    /\ myPosition state = mkPosition (myX departurePosition) (myY departurePosition) 0
    /\ myLanePosition state = getDepartPos st
    /\ myAngle state = rotationAtOffset (getShape departureLane) (getDepartPos st)
    /\ myStage state = stage
    /\ myWaypoints state
       = waypoints ++ [positionAtOffset (getShape arrivalLane) (getArrivalPos arrivalStage) 0]
    /\ DELTA_T w' = DELTA_T w
    /\ exists es, trace w' = trace w1 ++ es.
Proof.
  intros Hnone Hadd. cbv zeta.
  destruct (@add_new_state _ _ fuel person stage now w state w' Hnone Hadd)
    as (front & route & departureLane & p0 & w0 & departurePosition & w1 & current & rest
        & arrivalStage & w2 & journey & startingStage & predecessor & waypoints & arrivalLane
        & w3 & journey' & predecessor' & sim & jid & w6
        & Hroute & Hlane & Hdep & Hpos & Hrem & Hloop & Harr & Hwp & Hj & Htry & ->).
  exists front, route, departureLane, p0, w0, departurePosition, w1, current, rest,
    arrivalStage, w2, journey, startingStage, predecessor, waypoints, arrivalLane.
  repeat (split; [assumption |]).
  apply tryPedestrianInsertion_kinematics in Htry.
  destruct Htry as (Hp & Hpp & Hl & Ha & Hw & Hs & _ & _ & Hd & es6 & Ht6).
  split; [rewrite Hpp; reflexivity |].
  split; [rewrite Hp; reflexivity |].
  split; [rewrite Hl; reflexivity |].
  split; [rewrite Ha; reflexivity |].
  split; [rewrite Hs; reflexivity |].
  split; [rewrite Hw; reflexivity |].
  pose proof (addIntermediateWaypoints_spec rest current w1 JPS_JourneyDescription_Create
                0%nat 0%nat []) as Hspec.
  rewrite Hloop in Hspec. destruct Hspec as (Hs2 & es2 & Ht2 & _).
  apply addWaypoint_spec in Hwp. destruct Hwp as (Hs3 & es3 & Ht3 & _).
  apply randomLocationDeparture_spec in Hdep. destruct Hdep as (Hs0 & _).
  assert (Hs1 : DELTA_T w1 = DELTA_T w0).
  { destruct (Position_eqb p0 Position_INVALID).
    - apply laneDeparturePosition_spec in Hpos. destruct Hpos as ((_ & _ & _ & _ & _ & _ & Hd1) & _).
      exact Hd1.
    - injection Hpos as _ <-. reflexivity. }
  split.
  - cbn [DELTA_T setPedestrianStates setAdapter]. rewrite Hd.
    cbn [DELTA_T setNumActivePedestrians setAdapter emit setSimulation].
    destruct Hs0 as (_ & _ & _ & _ & _ & _ & Hd0).
    destruct Hs2 as (_ & _ & _ & _ & _ & _ & Hd2).
    destruct Hs3 as (_ & _ & _ & _ & _ & _ & Hd3).
    congruence.
  - eexists. cbn [trace setPedestrianStates setAdapter]. rewrite Ht6.
    cbn [trace setNumActivePedestrians setAdapter emit setSimulation].
    rewrite Ht3, Ht2, <- !app_assoc. reflexivity.
Qed.

End AddedState.

(** The waypoint queue of a pedestrian [add] has just created.  The stages
    from the current one on start with a run of walks or trips; the queue
    holds, for every stage of the run but the last, the position on the
    sidewalk of its destination (at the access position of its destination
    stop if it has one, at its arrival position otherwise), followed by the
    arrival position of the last stage of the run: one waypoint per stage of
    the run. *)
Theorem journey_has_one_waypoint_per_walk `{JPSEngine} `{Host} (fuel : nat)
  (person : PersonId) (stage : nat) (now : Z) (w w' : World) (state : PState) :
  findState person (tracked w) = None ->
  add fuel person stage now w = Returns (Some state, w') ->
  exists current walks others arrivalLane,
    remainingStages (persons w person) = current :: walks ++ others
    /\ Forall (fun s => isWalkingOrTrip (getStageType s) = true) walks
    /\ match others with
       | [] => True
       | next :: _ => isWalkingOrTrip (getStageType next) = false
       end
    /\ getSidewalk (getEdge (myNetwork (adapter w)) (getDestination (last walks current)))
       = Some arrivalLane
    /\ map Some (myWaypoints state)
       = map (stageWaypoint (myNetwork (adapter w))) (removelast (current :: walks))
         ++ [Some (positionAtOffset (getShape arrivalLane)
                     (getArrivalPos (last walks current)) 0)]
    /\ List.length (myWaypoints state) = S (List.length walks).
Proof.
  intros Hnone Hadd.
  destruct (@add_new_state_fields _ _ fuel person stage now w state w' Hnone Hadd)
    as (front & route & departureLane & p0 & w0 & departurePosition & w1 & current & rest
        & arrivalStage & w2 & journey & startingStage & predecessor & waypoints & arrivalLane
        & _ & _ & Hdep & Hpos & Hrem & Hloop & Harr & _ & _ & _ & _ & _ & Hwps & _).
  assert (Hnet : myNetwork (adapter w1) = myNetwork (adapter w)).
  { apply randomLocationDeparture_spec in Hdep. destruct Hdep as ((Hn0 & _) & _).
    destruct (Position_eqb p0 Position_INVALID).
    - apply laneDeparturePosition_spec in Hpos. destruct Hpos as ((Hn1 & _) & _). congruence.
    - injection Hpos as _ <-. exact Hn0. }
  apply addIntermediateWaypoints_waypoints in Hloop.
  destruct Hloop as (walks & others & -> & Hall & Hother & -> & Hmap & _).
  rewrite Hnet in Hmap. cbn [map app] in Hmap.
  exists current, walks, others, arrivalLane.
  split; [exact Hrem |]. split; [exact Hall |]. split; [exact Hother |].
  split; [exact Harr |].
  assert (Heq : map Some (myWaypoints state)
                = map (stageWaypoint (myNetwork (adapter w))) (removelast (current :: walks))
                  ++ [Some (positionAtOffset (getShape arrivalLane)
                              (getArrivalPos (last walks current)) 0)]).
  { rewrite Hwps, map_app, Hmap. reflexivity. }
  split; [exact Heq |].
  apply (f_equal (@List.length (option Position))) in Heq.
  rewrite length_map, length_app, length_map in Heq. rewrite Heq.
  assert (Hlen : forall (l : list MSStage) a,
             List.length (removelast (a :: l)) = List.length l).
  { induction l as [| b l IH]; intros a; [reflexivity |].
    change (removelast (a :: b :: l)) with (a :: removelast (b :: l)).
    cbn [List.length]. rewrite IH. reflexivity. }
  rewrite Hlen. cbn [List.length]. lia.
Qed.

Lemma add_two_walks :
  exists state w',
    add 0 1 1 0 (exampleWorld (fun _ => None) (fun _ => None) (fun _ => mkJPSPoint 0 0) 1 [] 0)
    = Returns (Some state, w').
Proof.
  eexists. eexists. evaluate. rewrite Position_eqb_refl.
  rewrite (Reqb_false (a := 0) (b := 1000000)) by lra.
  rewrite (Reqb_false (a := 0) (b := -1000000)) by lra.
  reflexivity.
Qed.

(** The theorem for the person with two walks. *)
Lemma journey_has_one_waypoint_per_walk_witness :
  exists state w',
    add 0 1 1 0 (exampleWorld (fun _ => None) (fun _ => None) (fun _ => mkJPSPoint 0 0) 1 [] 0)
    = Returns (Some state, w')
    /\ List.length (myWaypoints state) = 2%nat.
Proof.
  destruct add_two_walks as (state & w' & Hadd).
  exists state, w'. split; [exact Hadd |].
  destruct (@journey_has_one_waypoint_per_walk acceptingEngine exampleHost 0 1 1 0
              (exampleWorld (fun _ => None) (fun _ => None) (fun _ => mkJPSPoint 0 0) 1 [] 0)
              w' state eq_refl Hadd)
    as (current & walks & others & arrivalLane & Hrem & _ & Hother & _ & _ & Hlen).
  rewrite Hlen.
  destruct walks as [| a [| b walks]].
  - cbn in Hrem. injection Hrem as _ <-. discriminate Hother.
  - reflexivity.
  - cbn in Hrem. discriminate Hrem.
Defined.

(** A pedestrian [add] has just created stands still at its departure
    position: its position has the x and y of its previous position, so its
    speed is 0 (for a positive host step, by which the distance is
    divided); its position on the lane is the departure position of the stage,
    its angle the rotation of the departure lane there, and its stage the one
    it was added for. *)
Theorem new_pedestrian_stands_at_departure `{JPSEngine} `{Host} (fuel : nat)
  (person : PersonId) (stage : nat) (now : Z) (w w' : World) (state : PState) :
  findState person (tracked w) = None ->
  add fuel person stage now w = Returns (Some state, w') ->
  (0 < DELTA_T w)%Z ->
  let st := nth stage (myPlan (persons w person)) MSStage_default in
  exists front route departureLane,
    getRoute st = front :: route
    /\ getSidewalk (getEdge (myNetwork (adapter w)) front) = Some departureLane
    /\ myX (myPosition state) = myX (myPreviousPosition state)
    /\ myY (myPosition state) = myY (myPreviousPosition state)
    /\ getSpeed state w' = 0
    /\ getEdgePos state = getDepartPos st
    /\ getAngle state = rotationAtOffset (getShape departureLane) (getDepartPos st)
    /\ myStage state = stage.
Proof.
  intros Hnone Hadd _. cbv zeta.
  destruct (@add_new_state_fields _ _ fuel person stage now w state w' Hnone Hadd)
    as (front & route & departureLane & p0 & w0 & departurePosition & w1 & current & rest
        & arrivalStage & w2 & journey & startingStage & predecessor & waypoints & arrivalLane
        & Hroute & Hlane & _ & _ & _ & _ & _ & Hprev & Hpos & Hl & Ha & Hs & _).
  exists front, route, departureLane.
  split; [exact Hroute |]. split; [exact Hlane |].
  assert (Hx : myX (myPosition state) = myX (myPreviousPosition state))
    by (rewrite Hpos, Hprev; reflexivity).
  assert (Hy : myY (myPosition state) = myY (myPreviousPosition state))
    by (rewrite Hpos, Hprev; reflexivity).
  split; [exact Hx |]. split; [exact Hy |].
  split; [unfold getSpeed; rewrite (distanceTo2D_same _ _ Hx Hy); unfold Rdiv; apply Rmult_0_l |].
  split; [exact Hl |]. split; [exact Ha | exact Hs].
Qed.

(** The theorem for the person [add_accepted] adds. *)
Lemma new_pedestrian_stands_at_departure_witness :
  exists state w',
    add 0 0 1 0 (exampleWorld (fun _ => None) (fun _ => None) (fun _ => mkJPSPoint 0 0) 1 [] 0)
    = Returns (Some state, w')
    /\ getSpeed state w' = 0
    /\ getEdgePos state = 12.
Proof.
  destruct add_accepted as (state & w' & Hadd & _).
  exists state, w'. split; [exact Hadd |].
  destruct (@new_pedestrian_stands_at_departure acceptingEngine exampleHost 0 0 1 0
              (exampleWorld (fun _ => None) (fun _ => None) (fun _ => mkJPSPoint 0 0) 1 [] 0)
              w' state eq_refl Hadd eq_refl)
    as (front & route & departureLane & _ & _ & _ & _ & Hspeed & Hpos & _).
  split; [exact Hspeed | exact Hpos].
Defined.

(** Where a pedestrian [add] has just created departs.  Either the position
    is on the departure lane, at the departure position of the stage and at a
    lateral offset that is the negated lateral departure position (0 when it
    is unspecified); or the person starts its trip at a random location in a
    zone whose polygon is known, and the position lies inside that polygon. *)
Theorem departure_is_on_lane_or_in_zone `{JPSEngine} `{Host} (fuel : nat)
  (person : PersonId) (stage : nat) (now : Z) (w w' : World) (state : PState) :
  findState person (tracked w) = None ->
  add fuel person stage now w = Returns (Some state, w') ->
  let net := myNetwork (adapter w) in
  let p := persons w person in
  let st := nth stage (myPlan p) MSStage_default in
  let tripOrigin := getEdge net (MSStage_getEdge (getPreviousStage p)) in
  (exists front route departureLane lateral,
      getRoute st = front :: route
      /\ getSidewalk (getEdge net front) = Some departureLane
      /\ myPreviousPosition state
         = positionAtOffset (getShape departureLane) (getDepartPos st) (- lateral)
      /\ (getDepartPosLat st <> UNSPECIFIED_POS_LAT ->
          getDepartPosLat st <> RANDOM_POS_LAT -> lateral = getDepartPosLat st)
      /\ (getDepartPosLat st = UNSPECIFIED_POS_LAT -> RANDOM_POS_LAT <> 0 -> lateral = 0))
  \/ (exists tazShape,
         getCurrentStageIndex p = 2%nat
         /\ departPosProcedure p = RANDOM_LOCATION
         /\ isTazConnector tripOrigin = true
         /\ polygons_get (getPolygons net) (tazParameter tripOrigin) = Some tazShape
         /\ around (polygonShape tazShape) (myPreviousPosition state) = true).
Proof.
  intros Hnone Hadd. cbv zeta.
  destruct (@add_new_state_fields _ _ fuel person stage now w state w' Hnone Hadd)
    as (front & route & departureLane & p0 & w0 & departurePosition & w1 & current & rest
        & arrivalStage & w2 & journey & startingStage & predecessor & waypoints & arrivalLane
        & Hroute & Hlane & Hdep & Hpos & _ & _ & _ & Hprev & _).
  destruct (Position_eqb p0 Position_INVALID) eqn:Hinvalid.
  - left. unfold laneDeparturePosition in Hpos.
    set (st := nth stage (myPlan (persons w person)) MSStage_default) in *.
    destruct (if Reqb (if Reqb (getDepartPosLat st) UNSPECIFIED_POS_LAT then 0
                       else getDepartPosLat st) RANDOM_POS_LAT
              then _ else _) as [lateral r] eqn:Hlat.
    injection Hpos as <- _.
    exists front, route, departureLane, lateral.
    split; [exact Hroute |]. split; [exact Hlane |]. split; [exact Hprev |]. split.
    + intros Hu Hr. rewrite (Reqb_false Hu), (Reqb_false Hr) in Hlat.
      injection Hlat as <- _. reflexivity.
    + intros Hu Hr. rewrite Hu, Reqb_refl in Hlat.
      rewrite (Reqb_false (a := 0) (b := RANDOM_POS_LAT)) in Hlat by (intros Heq; apply Hr; symmetry; exact Heq).
      injection Hlat as <- _. reflexivity.
  - right. injection Hpos as <- _.
    apply randomLocationDeparture_cases in Hdep. cbv zeta in Hdep.
    destruct (polygons_get _ _) as [tazShape |].
    + destruct (Nat.eqb _ 2 && isRandomLocation _ && isTazConnector _) eqn:Happlies.
      * apply andb_true_iff in Happlies. destruct Happlies as [Happlies Htaz].
        apply andb_true_iff in Happlies. destruct Happlies as [Hidx Hrandom].
        exists tazShape. split; [apply Nat.eqb_eq; exact Hidx |].
        split; [destruct (departPosProcedure _); try discriminate; reflexivity |].
        split; [exact Htaz |]. split; [reflexivity |].
        rewrite Hprev. tauto.
      * destruct Hdep as [-> _]. rewrite Position_eqb_refl in Hinvalid. discriminate.
    + destruct Hdep as [-> _]. rewrite Position_eqb_refl in Hinvalid. discriminate.
Qed.

(** The theorem for the person [add_accepted] adds: it departs on the
    lane or in a zone. *)
Lemma departure_is_on_lane_or_in_zone_witness :
  exists state w',
    add 0 0 1 0 (exampleWorld (fun _ => None) (fun _ => None) (fun _ => mkJPSPoint 0 0) 1 [] 0)
    = Returns (Some state, w')
    /\ ((exists lateral, myPreviousPosition state = mkPosition 12 (- lateral) 0)
        \/ (exists tazShape,
               polygons_get (getPolygons exampleNet) (tazParameter (getEdge exampleNet 2))
               = Some tazShape)).
Proof.
  destruct add_accepted as (state & w' & Hadd & _).
  exists state, w'. split; [exact Hadd |].
  destruct (@departure_is_on_lane_or_in_zone acceptingEngine exampleHost 0 0 1 0
              (exampleWorld (fun _ => None) (fun _ => None) (fun _ => mkJPSPoint 0 0) 1 [] 0)
              w' state eq_refl Hadd)
    as [(front & route & departureLane & lateral & _ & _ & Hprev & _)
       | (tazShape & _ & _ & _ & Hget & _)].
  - left. exists lateral. exact Hprev.
  - right. exists tazShape. exact Hget.
Defined.

(** A person that starts its trip at a random location in a zone for which
    the shape container holds no polygon: [add] first warns that the zone has
    no shape information, naming the zone and the person, and the pedestrian
    departs on the departure lane as any other. *)
Theorem missing_zone_shape_is_reported `{JPSEngine} `{Host} (fuel : nat)
  (person : PersonId) (stage : nat) (now : Z) (w w' : World) (state : PState) :
  findState person (tracked w) = None ->
  add fuel person stage now w = Returns (Some state, w') ->
  let net := myNetwork (adapter w) in
  let p := persons w person in
  let st := nth stage (myPlan p) MSStage_default in
  let tripOrigin := getEdge net (MSStage_getEdge (getPreviousStage p)) in
  getCurrentStageIndex p = 2%nat ->
  departPosProcedure p = RANDOM_LOCATION ->
  isTazConnector tripOrigin = true ->
  polygons_get (getPolygons net) (tazParameter tripOrigin) = None ->
  (exists es,
      trace w'
      = trace w
        ++ WRITE_WARNINGF "FromTaz '%' for person '%' has no shape information."
             [ArgString (tazParameter tripOrigin); ArgString (getID p)]
           :: es)
  /\ exists front route departureLane lateral,
      getRoute st = front :: route
      /\ getSidewalk (getEdge net front) = Some departureLane
      /\ myPreviousPosition state
         = positionAtOffset (getShape departureLane) (getDepartPos st) (- lateral).
Proof.
  intros Hnone Hadd. cbv zeta. intros Hidx Hrandom Htaz Hget.
  destruct (@add_new_state_fields _ _ fuel person stage now w state w' Hnone Hadd)
    as (front & route & departureLane & p0 & w0 & departurePosition & w1 & current & rest
        & arrivalStage & w2 & journey & startingStage & predecessor & waypoints & arrivalLane
        & Hroute & Hlane & Hdep & Hpos & _ & _ & _ & Hprev & _ & _ & _ & _ & _ & _ & es & Htrace).
  apply randomLocationDeparture_cases in Hdep. cbv zeta in Hdep.
  rewrite Hget, Hidx, Hrandom, Htaz in Hdep. cbn in Hdep. destruct Hdep as [-> ->].
  rewrite Position_eqb_refl in Hpos.
  pose proof (laneDeparturePosition_spec _ _ _ Hpos) as (_ & _ & Ht1).
  split.
  - exists es. rewrite Htrace, Ht1. cbn [trace emit]. rewrite <- app_assoc. reflexivity.
  - unfold laneDeparturePosition in Hpos.
    destruct (if Reqb _ RANDOM_POS_LAT then _ else _) as [lateral r].
    injection Hpos as <- _.
    exists front, route, departureLane, lateral.
    split; [exact Hroute |]. split; [exact Hlane | exact Hprev].
Qed.

Lemma zoneWorld_add :
  exists state w', add 0 0 2 0 zoneWorld = Returns (Some state, w').
Proof.
  eexists. eexists. evaluate. rewrite Position_eqb_refl.
  rewrite (Reqb_false (a := 0) (b := 1000000)) by lra.
  rewrite (Reqb_false (a := 0) (b := -1000000)) by lra.
  reflexivity.
Qed.

(** The theorem for the person of [zoneWorld]. *)
Lemma missing_zone_shape_is_reported_witness :
  exists state w' es,
    add 0 0 2 0 zoneWorld = Returns (Some state, w')
    /\ trace w'
       = WRITE_WARNINGF "FromTaz '%' for person '%' has no shape information."
           [ArgString "zone"; ArgString "p2"]
         :: es.
Proof.
  destruct zoneWorld_add as (state & w' & Hadd).
  destruct (@missing_zone_shape_is_reported acceptingEngine exampleHost 0 0 2 0 zoneWorld
              w' state eq_refl Hadd eq_refl eq_refl eq_refl eq_refl)
    as ((es & Htrace) & _).
  exists state, w', es. split; [exact Hadd | exact Htrace].
Defined.

(* ===================================================================== *)
(** ** Step Synchronizer: iterations, counter and kinematics *)
(* ===================================================================== *)

Section StepEvents.

Context {E : JPSEngine} {H : Host}.

Implicit Types w : World.

Lemma iterate_calls :
  forall n i w,
    DELTA_T (iterate n i w) = DELTA_T w
    /\ exists es,
         trace (iterate n i w) = trace w ++ es
         /\ List.length (filter isIterateCall es) = n
         /\ (List.length (filter isIterationError es) <= n)%nat
         /\ forallb (fun e => isIterateCall e || isIterationError e) es = true.
Proof.
  induction n as [| n IH]; intros i w; cbn [iterate].
  - split; [reflexivity |]. exists []. rewrite app_nil_r. repeat split. cbn. lia.
  - destruct (JPS_Simulation_Iterate (myJPSSimulation (adapter w))) as [sim failure].
    match goal with
    | |- context [iterate n ?j ?w1] => destruct (IH j w1) as (Hd & es & Htrace & Hcalls & Herrors & Hall)
    end.
    split; [rewrite Hd; reflexivity |].
    eexists. split; [rewrite Htrace; cbn [trace emit setSimulation setAdapter];
                     rewrite <- app_assoc; reflexivity |].
    rewrite !filter_app, !length_app, forallb_app, Hcalls, Hall.
    destruct failure; cbn; repeat split; lia.
Qed.

(** The error reports of the sub-steps: one for each iteration that fails,
    in order, with the number of the iteration and the engine's message.  The
    k-th iteration starts from the simulation that k iterations leave. *)
Lemma iterate_reports :
  forall n i w,
    exists es,
      trace (iterate n i w) = trace w ++ es
      /\ filter isIterationError es
         = flat_map
             (fun k =>
                match snd (JPS_Simulation_Iterate
                             (Nat.iter k (fun sim => fst (JPS_Simulation_Iterate sim))
                                (simulation w))) with
                | Some message =>
                    [WRITE_ERRORF "Error during iteration %: %"
                       [ArgInt (i + Z.of_nat k)%Z; ArgString message]]
                | None => []
                end)
             (seq 0 n).
Proof.
  induction n as [| n IH]; intros i w; cbn [iterate].
  - exists []. rewrite app_nil_r. split; reflexivity.
  - unfold simulation.
    destruct (JPS_Simulation_Iterate (myJPSSimulation (adapter w))) as [sim failure] eqn:Hit.
    match goal with
    | |- context [iterate n ?j ?w1] => destruct (IH j w1) as (es & Htrace & Hreports)
    end.
    eexists. split; [rewrite Htrace; cbn [trace emit setSimulation setAdapter];
                     rewrite <- app_assoc; reflexivity |].
    rewrite filter_app, Hreports. cbn [seq flat_map].
    change (Nat.iter 0 (fun sim0 => fst (JPS_Simulation_Iterate sim0))
              (myJPSSimulation (adapter w)))
      with (myJPSSimulation (adapter w)).
    rewrite Hit. cbn [snd]. rewrite Z.add_0_r. f_equal.
    + destruct failure; reflexivity.
    + rewrite <- seq_shift.
      rewrite (flat_map_concat_map _ (map S (seq 0 n))), map_map, <- flat_map_concat_map.
      apply flat_map_ext. intros k.
      rewrite Nat.iter_succ_r. unfold simulation.
      cbn [adapter emit setSimulation setAdapter myJPSSimulation]. rewrite Hit. cbn [fst].
      replace (i + 1 + Z.of_nat k)%Z with (i + Z.of_nat (S k))%Z by lia. reflexivity.
Qed.

Lemma updatePosition_kinematics time state w s1 w1 newPosition stageIndex :
  updatePosition time state w = (s1, w1, newPosition, stageIndex) ->
  myPosition s1
  = Position_set (myPosition state)
      (jps_x (JPS_Agent_GetPosition (myJPSSimulation (adapter w)) (myAgentId state)))
      (jps_y (JPS_Agent_GetPosition (myJPSSimulation (adapter w)) (myAgentId state)))
  /\ myPreviousPosition s1 = myPosition state
  /\ DELTA_T w1 = DELTA_T w.
Proof.
  unfold updatePosition.
  destruct (moveToXYMap_matchingRoutePosition _ _ _ _) as [[candidateLane pos] |].
  - destruct (getSidewalk _) as [expectedLane |].
    + destruct (_ && _); intros Heq; injection Heq as <- <- <- <-; repeat split.
    + intros Heq; injection Heq as <- <- <- <-; repeat split.
  - intros Heq; injection Heq as <- <- <- <-; repeat split.
Qed.

(** The visits to an inserted state: what they leave of the world, and the
    kinematics of the state when it is kept. *)
Lemma visitInserted_kinematics time :
  forall fuel state w kept w',
    visitInserted fuel time state w = Returns (kept, w') ->
    DELTA_T w' = DELTA_T w
    /\ match kept with
       | Some state' =>
           trace w' = trace w
           /\ adapter w' = adapter w
           /\ myPosition state'
              = Position_set (myPosition state)
                  (jps_x (JPS_Agent_GetPosition (myJPSSimulation (adapter w)) (myAgentId state)))
                  (jps_y (JPS_Agent_GetPosition (myJPSSimulation (adapter w)) (myAgentId state)))
           /\ ((myWaypoints state' = myWaypoints state
                /\ myPreviousPosition state' = myPosition state)
               \/ ((List.length (myWaypoints state') < List.length (myWaypoints state))%nat
                   /\ myPreviousPosition state' = myPosition state'))
       | None =>
           trace w' = trace w ++ [Call_JPS_Simulation_MarkAgentForRemoval (myAgentId state)]
       end.
Proof.
  induction fuel as [| fuel IH]; intros state w kept w' Hvisit; [discriminate |].
  cbn [visitInserted] in Hvisit.
  destruct (updatePosition time state w) as [[[s1 w1] newPosition] stageIndex] eqn:Hupd.
  pose proof (updatePosition_kinematics _ _ _ Hupd) as (Hpos & Hprev & Hdelta).
  apply updatePosition_spec in Hupd.
  destruct Hupd as (Hwps & _ & Hagent & _ & Hadapter & Htrace & _).
  unfold getNextWaypoint in Hvisit.
  destruct (myWaypoints s1) as [| nextWaypoint rest] eqn:Hqueue; [discriminate |].
  cbn [hd_error] in Hvisit.
  destruct (Rltb _ _).
  - destruct (drainEdges _ _ _) as [person' |]; [| discriminate].
    unfold advanceNextWaypoint in Hvisit. rewrite Hqueue in Hvisit. cbn [tl] in Hvisit.
    destruct rest as [| second rest'].
    + injection Hvisit as <- <-. split; [exact Hdelta |].
      cbn [trace emit setSimulation setAdapter registerArrived setNumActivePedestrians setPerson
             getAgentId myAgentId].
      rewrite Htrace, Hagent. reflexivity.
    + apply IH in Hvisit. destruct Hvisit as (Hd & Hkept).
      cbn [DELTA_T setPerson] in Hd. split; [rewrite Hd; exact Hdelta |].
      cbn [adapter setPerson trace myAgentId myPosition myWaypoints] in Hkept.
      destruct kept as [state' |].
      * destruct Hkept as (Ht & Ha & Hp & Hcases).
        rewrite Hadapter, Hagent, Hpos in Hp.
        assert (Hhere : myPosition state' = myPosition s1).
        { rewrite Hp, Hpos. reflexivity. }
        split; [rewrite Ht; exact Htrace |].
        split; [rewrite Ha; exact Hadapter |].
        split; [rewrite Hhere; exact Hpos |].
        right. rewrite <- Hwps. split.
        -- destruct Hcases as [[Hw _] | [Hl _]]; [rewrite Hw | cbn [List.length] in Hl];
             cbn [List.length]; lia.
        -- destruct Hcases as [[_ Hpp] | [_ Hpp]]; [rewrite Hpp; symmetry; exact Hhere | exact Hpp].
      * rewrite Hkept, Htrace, Hagent. reflexivity.
  - injection Hvisit as <- <-. split; [exact Hdelta |].
    split; [exact Htrace |]. split; [exact Hadapter |]. split; [exact Hpos |].
    left. split; [rewrite Hqueue; exact Hwps | exact Hprev].
Qed.

(** The events of one visit are neither iterations nor iteration errors. *)
Lemma visitState_events time state w kept w' :
  myWaypoints state <> [] ->
  visitState time state w = Returns (kept, w') ->
  DELTA_T w' = DELTA_T w
  /\ exists es,
       trace w' = trace w ++ es
       /\ forallb (fun e => negb (isIterateCall e || isIterationError e)) es = true.
Proof.
  intros Hne. unfold visitState.
  destruct (isWaitingToEnter state).
  - destruct (tryPedestrianInsertion state w) as [state' w1] eqn:Htry.
    intros Heq. injection Heq as _ <-.
    apply tryPedestrianInsertion_spec in Htry.
    destruct Htry as (Hsame & _ & sim & parameters & _ & Hcases).
    split; [apply Hsame |].
    destruct Hcases as [(message & _ & _ & Ht) | (agentId & _ & _ & Ht)];
      eexists; (split; [exact Ht | reflexivity]).
  - intros Hvisit. apply visitInserted_kinematics in Hvisit.
    destruct Hvisit as (Hd & Hkept). split; [exact Hd |].
    destruct kept as [state' |].
    + destruct Hkept as (Ht & _). exists []. rewrite app_nil_r. split; [exact Ht | reflexivity].
    + eexists. split; [exact Hkept | reflexivity].
Qed.

Lemma updateStates_events time :
  forall states w states' w',
    (forall state, In state states -> myWaypoints state <> []) ->
    updateStates time states w = Returns (states', w') ->
    DELTA_T w' = DELTA_T w
    /\ exists es,
         trace w' = trace w ++ es
         /\ forallb (fun e => negb (isIterateCall e || isIterationError e)) es = true.
Proof.
  induction states as [| state rest IH]; intros w states' w' Hne Hloop.
  - cbn in Hloop. injection Hloop as _ <-. split; [reflexivity |].
    exists []. rewrite app_nil_r. split; reflexivity.
  - cbn [updateStates] in Hloop.
    destruct (visitState time state w) as [[kept w1] | e | |] eqn:Hvisit; try discriminate.
    destruct (updateStates time rest w1) as [[rest' w2] | e | |] eqn:Hrest; try discriminate.
    injection Hloop as _ <-.
    apply visitState_events in Hvisit; [| apply Hne; left; reflexivity].
    destruct Hvisit as (Hd1 & es1 & Ht1 & Ha1).
    apply IH in Hrest; [| intros s Hs; apply Hne; right; exact Hs].
    destruct Hrest as (Hd2 & es2 & Ht2 & Ha2).
    split; [congruence |].
    exists (es1 ++ es2). split; [rewrite Ht2, Ht1, app_assoc; reflexivity |].
    rewrite forallb_app, Ha1, Ha2. reflexivity.
Qed.

Lemma filter_none {A : Type} (f g : A -> bool) (l : list A) :
  forallb (fun a => negb (f a || g a)) l = true -> filter f l = [] /\ filter g l = [].
Proof.
  induction l as [| a l IH]; [split; reflexivity |].
  cbn [forallb filter]. intros Hall. apply andb_true_iff in Hall. destruct Hall as [Ha Hl].
  apply negb_true_iff, orb_false_iff in Ha. destruct Ha as [-> ->]. apply IH. exact Hl.
Qed.

End StepEvents.

(** One host step, for a positive engine step and a host step whose
    quotient by it fits an [int]: [execute] returns the host step length after
    exactly DELTA_T / myJPSDeltaT iterations of the engine.  Every iteration
    that fails is reported as an error, with its number and the engine's
    message, and no other error is reported; a failure does not stop the
    remaining iterations.  The error message is released last. *)
Theorem every_engine_iteration_is_run `{JPSEngine} `{Host} (time : Z) (w : World) :
  queuesNonEmpty w ->
  (0 < myJPSDeltaT (adapter w))%Z ->
  (0 <= DELTA_T w < 2147483648 * myJPSDeltaT (adapter w))%Z ->
  exists w' es,
    execute time w = Returns (DELTA_T w, w')
    /\ trace w' = trace w ++ es
    /\ Z.of_nat (List.length (filter isIterateCall es))
       = (DELTA_T w / myJPSDeltaT (adapter w))%Z
    /\ filter isIterationError es
       = flat_map
           (fun k =>
              match snd (JPS_Simulation_Iterate
                           (Nat.iter k (fun sim => fst (JPS_Simulation_Iterate sim))
                              (simulation w))) with
              | Some message =>
                  [WRITE_ERRORF "Error during iteration %: %"
                     [ArgInt (Z.of_nat k); ArgString message]]
              | None => []
              end)
           (seq 0 (Z.to_nat (DELTA_T w / myJPSDeltaT (adapter w))))
    /\ (List.length (filter isIterationError es) <= List.length (filter isIterateCall es))%nat
    /\ last es initGEOS = JPS_ErrorMessage_Free.
Proof.
  intros Hinv Hstep Hrange.
  assert (Hne : myJPSDeltaT (adapter w) <> 0%Z) by lia.
  assert (Hquot : toInt (Z.quot (DELTA_T w) (myJPSDeltaT (adapter w)))
                  = (DELTA_T w / myJPSDeltaT (adapter w))%Z).
  { rewrite Z.quot_div_nonneg by lia. unfold toInt.
    assert (0 <= DELTA_T w / myJPSDeltaT (adapter w) < 2147483648)%Z.
    { split; [apply Z.div_pos; lia | apply Z.div_lt_upper_bound; lia]. }
    rewrite Z.mod_small by lia. lia. }
  destruct (execute_spec time Hinv Hne) as (w' & es' & Hexec & _).
  exists w'. unfold execute in Hexec |- *.
  rewrite (proj2 (Z.eqb_neq _ _) Hne) in Hexec |- *. cbv zeta in Hexec |- *.
  rewrite Hquot in Hexec |- *.
  set (n := Z.to_nat (DELTA_T w / myJPSDeltaT (adapter w))) in *.
  destruct (iterate_calls n 0%Z w) as (_ & es0 & Ht0 & Hcalls & Herrors & _).
  destruct (iterate_reports n 0%Z w) as (es0' & Ht0' & Hreports).
  assert (es0' = es0) by (apply (app_inv_head (trace w)); congruence). subst es0'.
  destruct (iterate_spec n 0%Z w) as (Hsame & _).
  destruct Hsame as (_ & _ & _ & Htracked0 & _).
  set (w1 := iterate n 0%Z w) in *.
  destruct (updateStates time (myPedestrianStates (adapter w1)) w1)
    as [[states' w2] | e | |] eqn:Hloop; try discriminate.
  apply updateStates_events in Hloop; [| fold (tracked w1); rewrite Htracked0; exact Hinv].
  destruct Hloop as (_ & es1 & Ht1 & Hnone).
  apply filter_none in Hnone. destruct Hnone as [Hno1 Hno2].
  injection Hexec as <-.
  exists (es0 ++ es1 ++ [JPS_ErrorMessage_Free]).
  split; [reflexivity |].
  split; [cbn [trace emit setPedestrianStates setAdapter]; rewrite Ht1, Ht0, <- !app_assoc;
          reflexivity |].
  rewrite !filter_app, !length_app, Hno1, Hno2, Hcalls. cbn [filter isIterateCall isIterationError
    List.length app]. rewrite !app_nil_r.
  split.
  - rewrite Nat.add_0_r. unfold n. rewrite Z2Nat.id; [reflexivity |].
    apply Z.div_pos; lia.
  - split; [exact Hreports |]. split; [lia |]. rewrite !app_assoc. apply last_last.
Qed.

(** The theorem for a host step of one second and an engine step of a
    tenth of it, with an engine whose every other iteration fails: ten
    iterations, five of them reported. *)
Lemma every_engine_iteration_is_run_witness :
  exists w' es,
    execute 0 flakyWorld = Returns (1000%Z, w')
    /\ trace w' = es
    /\ Z.of_nat (List.length (filter isIterateCall es)) = 10%Z
    /\ filter isIterationError es
       = [WRITE_ERRORF "Error during iteration %: %" [ArgInt 0; ArgString "no progress"];
          WRITE_ERRORF "Error during iteration %: %" [ArgInt 2; ArgString "no progress"];
          WRITE_ERRORF "Error during iteration %: %" [ArgInt 4; ArgString "no progress"];
          WRITE_ERRORF "Error during iteration %: %" [ArgInt 6; ArgString "no progress"];
          WRITE_ERRORF "Error during iteration %: %" [ArgInt 8; ArgString "no progress"]]
    /\ (List.length (filter isIterationError es) <= List.length (filter isIterateCall es))%nat
    /\ last es initGEOS = JPS_ErrorMessage_Free.
Proof.
  apply (@every_engine_iteration_is_run flakyEngine exampleHost 0%Z flakyWorld).
  - intros s [<- | []]. discriminate.
  - reflexivity.
  - simpl. lia.
Defined.

Section Counter.

Context {E : JPSEngine} {H : Host}.

Implicit Types w : World.

Lemma add_countsTracked fuel person stage now w r w' :
  countsTracked w ->
  add fuel person stage now w = Returns (r, w') ->
  countsTracked w'.
Proof.
  unfold countsTracked. intros Hinv Hadd. apply add_spec in Hadd.
  destruct (findState person (tracked w)) as [pstate |].
  - destruct Hadd as [_ ->]. exact Hinv.
  - destruct Hadd as (es & _ & Hr). destruct r as [state |].
    + destruct Hr as (_ & Htracked & Hcount & _).
      rewrite Htracked, Hcount, length_app, Hinv. cbn [List.length]. lia.
    + destruct Hr as (_ & _ & Htracked & Hcount). rewrite Htracked, Hcount. exact Hinv.
Qed.

Lemma execute_countsTracked time w delay w' :
  queuesNonEmpty w ->
  countsTracked w ->
  execute time w = Returns (delay, w') ->
  countsTracked w'.
Proof.
  unfold countsTracked. intros Hq Hinv Hexec.
  destruct (execute_frame _ _ Hexec) as (Hstep & _).
  destruct (execute_spec time Hq Hstep) as (w1 & es & Hexec1 & _ & _ & Hlen & Hcount & _).
  rewrite Hexec in Hexec1. injection Hexec1 as _ <-.
  rewrite Hcount, Hinv. lia.
Qed.

(** A step is undefined as soon as the loop reaches an inserted state whose
    queue is empty. *)
Lemma updateStates_undefined time state after :
  isWaitingToEnter state = false ->
  myWaypoints state = [] ->
  forall before w,
    (forall s, In s before -> myWaypoints s <> []) ->
    updateStates time (before ++ state :: after) w = Undefined.
Proof.
  intros Hinserted Hempty.
  induction before as [| s before IH]; intros w Hne.
  - cbn [app updateStates]. unfold visitState. rewrite Hinserted, Hempty.
    cbn [List.length visitInserted].
    destruct (updatePosition time state w) as [[[s1 w1] newPosition] stageIndex] eqn:Hupd.
    apply updatePosition_spec in Hupd. destruct Hupd as (Hwps & _).
    unfold getNextWaypoint. rewrite Hwps, Hempty. reflexivity.
  - cbn [app updateStates].
    destruct (visitState_spec time s w (Hne s (or_introl eq_refl)))
      as (kept & w1 & es & Hvisit & _).
    rewrite Hvisit, IH; [reflexivity |].
    intros s' Hs'. apply Hne. right. exact Hs'.
Qed.

End Counter.

(** What [getActiveNumber] returns is the number of tracked pedestrians:
    this holds of the adapter the constructor returns, in any surroundings, and
    [add], a host step, [clearState] and [remove] keep it. *)
Theorem active_number_counts_tracked `{GEOS} `{JPSEngine} `{Host} :
  (forall net jpsDeltaT exitTolerance t m persons rng delta events,
      MSPModel_JuPedSim_new net jpsDeltaT exitTolerance = (t, Returns m) ->
      countsTracked (mkWorld m persons rng delta events))
  /\ (forall fuel person stage now (w w' : World) r,
         countsTracked w ->
         add fuel person stage now w = Returns (r, w') ->
         countsTracked w')
  /\ (forall time (w w' : World) delay,
         queuesNonEmpty w ->
         countsTracked w ->
         execute time w = Returns (delay, w') ->
         countsTracked w')
  /\ (forall w : World, countsTracked (clearState w))
  /\ (forall state (w : World), countsTracked w -> countsTracked (remove state w)).
Proof.
  split; [| split; [| split; [| split]]].
  - intros net jpsDeltaT exitTolerance t m persons rng delta events Hnew.
    destruct (@MSPModel_JuPedSim_new_returns _ _ net jpsDeltaT exitTolerance t m Hnew)
      as (t' & Hinit).
    destruct (@initialize_fields _ _ net jpsDeltaT exitTolerance t' m Hinit)
      as (_ & _ & _ & Hstates & Hcount & _).
    unfold countsTracked, getActiveNumber, tracked. cbn [adapter].
    rewrite Hstates, Hcount. reflexivity.
  - intros fuel person stage now w w' r Hinv Hadd. eapply add_countsTracked; eassumption.
  - intros time w w' delay Hq Hinv Hexec. eapply execute_countsTracked; eassumption.
  - intros w. reflexivity.
  - intros state w Hinv. exact Hinv.
Qed.

(** The theorem for the step of [execute_two_near_waypoints]: one of two
    pedestrians arrives. *)
Lemma active_number_counts_tracked_witness :
  exists w',
    execute 0
      (exampleWorld (fun _ => None) (fun _ => None) (fun _ => mkJPSPoint 0 0) 1
         [insertedState 0 [mkPosition 1 0 0; mkPosition 0 1 0];
          waitingState 1 [mkPosition 20 0 0]] 2)
    = Returns (1000%Z, w')
    /\ countsTracked w'.
Proof.
  destruct execute_two_near_waypoints as (w' & Hexec & _).
  exists w'. split; [exact Hexec |].
  apply (proj1 (proj2 (proj2 (@active_number_counts_tracked simpleGEOS acceptingEngine
                                exampleHost)))
           0%Z
           (exampleWorld (fun _ => None) (fun _ => None) (fun _ => mkJPSPoint 0 0) 1
              [insertedState 0 [mkPosition 1 0 0; mkPosition 0 1 0];
               waitingState 1 [mkPosition 20 0 0]] 2)
           w' 1000%Z).
  - intros s [<- | [<- | []]]; discriminate.
  - reflexivity.
  - exact Hexec.
Defined.

(** A host step over a tracked set in which an inserted pedestrian has an
    empty waypoint queue, and no state before it has: the step reads the front
    of the empty queue, which is undefined. *)
Theorem empty_queue_makes_step_undefined `{JPSEngine} `{Host} (time : Z) (w : World)
  (before after : list PState) (state : PState) :
  tracked w = before ++ state :: after ->
  (forall s, In s before -> myWaypoints s <> []) ->
  isWaitingToEnter state = false ->
  myWaypoints state = [] ->
  execute time w = Undefined.
Proof.
  intros Htracked Hne Hinserted Hempty. unfold execute.
  destruct (Z.eqb (myJPSDeltaT (adapter w)) 0); [reflexivity |]. cbv zeta.
  set (n := Z.to_nat (toInt (Z.quot (DELTA_T w) (myJPSDeltaT (adapter w))))).
  destruct (iterate_spec n 0%Z w) as (Hsame & _).
  destruct Hsame as (_ & _ & _ & Htracked0 & _).
  fold (tracked (iterate n 0%Z w)). rewrite Htracked0, Htracked.
  rewrite (@updateStates_undefined _ _ time state after Hinserted Hempty before _ Hne). reflexivity.
Qed.

(** The theorem for a waiting pedestrian followed by an inserted one
    without waypoints. *)
Lemma empty_queue_makes_step_undefined_witness :
  execute 0
    (exampleWorld (fun _ => None) (fun _ => None) (fun _ => mkJPSPoint 0 0) 1
       [waitingState 1 [mkPosition 20 0 0]; insertedState 0 []] 2)
  = Undefined.
Proof.
  apply (@empty_queue_makes_step_undefined acceptingEngine exampleHost 0%Z
           (exampleWorld (fun _ => None) (fun _ => None) (fun _ => mkJPSPoint 0 0) 1
              [waitingState 1 [mkPosition 20 0 0]; insertedState 0 []] 2)
           [waitingState 1 [mkPosition 20 0 0]] [] (insertedState 0 [])).
  - reflexivity.
  - intros s [<- | []]. discriminate.
  - reflexivity.
  - reflexivity.
Defined.




